(** * Youth sports calendar: filtering, view projection, date display and
    calendar export.

    A shallow embedding of the JavaScript sources
    ([utils/displayHelpers.js], [utils/websiteValidation.js],
    [utils/timezone.js], [utils/export.js], [App.js],
    [components/DayCell.js], [components/CalendarGrid.js],
    [components/ListView.js]) together with the part of the host
    environment they call (strings, [Array.prototype.sort], [Date],
    [URL], [URLSearchParams], date-fns). *)

From Stdlib Require Import ZArith List String Ascii Bool Lia Permutation Sorted.
Import ListNotations.
Local Open Scope string_scope.
Local Open Scope Z_scope.

(** ** JavaScript values and exceptions *)

(** The values an event field can hold once it comes back from the
    record store: a string, [null], or nothing at all. *)
Inductive jsval : Type :=
| JUndefined
| JNull
| JString (s : string).

Inductive exn : Type :=
| TypeError
| RangeError
| LibraryError (message : string).

(** A computation that either completes or throws. *)
Inductive result (A : Type) : Type :=
| Ok (a : A)
| Throw (e : exn).
Arguments Ok {A} a.
Arguments Throw {A} e.

Definition bind {A B : Type} (m : result A) (k : A -> result B) : result B :=
  match m with
  | Ok a => k a
  | Throw e => Throw e
  end.

Notation "x <- m ;; k" := (bind m (fun x => k))
  (at level 61, m at next level, right associativity).

(** [try { body } catch (error) { handler }] *)
Definition try_catch {A : Type} (body : result A) (handler : exn -> A) : A :=
  match body with
  | Ok a => a
  | Throw e => handler e
  end.

(** Truthiness of a field value: [undefined], [null] and [''] are falsy. *)
Definition truthy (v : jsval) : bool :=
  match v with
  | JString s => negb (s =? "")%string
  | _ => false
  end.

(** [v || d] for a string default [d]. *)
Definition or_default (v : jsval) (d : string) : string :=
  match v with
  | JString s => if (s =? "")%string then d else s
  | _ => d
  end.

(** [v.m(...)] on a value that may be [null] or [undefined]: property
    access on those throws a [TypeError]. *)
Definition as_object (v : jsval) : result string :=
  match v with
  | JString s => Ok s
  | _ => Throw TypeError
  end.

(** ** Strings (ASCII repertoire) *)

Definition is_upper (c : ascii) : bool :=
  let n := N_of_ascii c in ((65 <=? n) && (n <=? 90))%N.

Definition lower_char (c : ascii) : ascii :=
  if is_upper c then ascii_of_N (N_of_ascii c + 32) else c.

(** [String.prototype.toLowerCase] *)
Fixpoint toLowerCase (s : string) : string :=
  match s with
  | EmptyString => EmptyString
  | String c r => String (lower_char c) (toLowerCase r)
  end.

(** White space and line terminators: TAB, LF, VT, FF, CR, SP. *)
Definition is_white (c : ascii) : bool :=
  let n := N_of_ascii c in (((9 <=? n) && (n <=? 13)) || (n =? 32))%N.

Fixpoint trimStart (s : string) : string :=
  match s with
  | EmptyString => EmptyString
  | String c r => if is_white c then trimStart r else s
  end.

Fixpoint trimEnd (s : string) : string :=
  match s with
  | EmptyString => EmptyString
  | String c r =>
      let r' := trimEnd r in
      if is_white c && (r' =? "")%string then EmptyString else String c r'
  end.

(** [String.prototype.trim] *)
Definition trim (s : string) : string := trimEnd (trimStart s).

(** [String.prototype.includes] *)
Definition includes (s q : string) : bool :=
  match index 0 q s with
  | Some _ => true
  | None => false
  end.

(** [String.prototype.startsWith], which is what an anchored literal
    pattern such as [/^mailto:/] tests. *)
Definition startsWith (s p : string) : bool := prefix p s.

(** [Array.prototype.includes] on an array of strings. *)
Definition array_includes (l : list string) (s : string) : bool :=
  existsb (String.eqb s) l.

(** [s.replace(/-/g, '')] *)
Fixpoint remove_dashes (s : string) : string :=
  match s with
  | EmptyString => EmptyString
  | String c r =>
      if (c =? "-")%char then remove_dashes r else String c (remove_dashes r)
  end.

(** [s.split(c)[0]]: the text before the first [c]. *)
Fixpoint before_first (c : ascii) (s : string) : string :=
  match s with
  | EmptyString => EmptyString
  | String d r => if (d =? c)%char then EmptyString else String d (before_first c r)
  end.

(** The text before the first character that satisfies [p]. *)
Fixpoint before_delimiter (p : ascii -> bool) (s : string) : string :=
  match s with
  | EmptyString => EmptyString
  | String d r => if p d then EmptyString else String d (before_delimiter p r)
  end.

(** ** Display normalisation ([utils/displayHelpers.js]) *)

Definition emptyValues : list string :=
  ["null"; "undefined"; "none"; "n/a"; "na"; "not available"].

Definition getDisplayValue (value : jsval) (defaultValue : string) : string :=
  match value with
  | JNull | JUndefined => defaultValue
  | JString s =>
      if (s =? "")%string then defaultValue
      else
        let stringValue := trim s in
        if array_includes emptyValues (toLowerCase stringValue)
        then defaultValue
        else stringValue
  end.

(** The default of the second parameter. *)
Definition getDisplayValue_default (value : jsval) : string :=
  getDisplayValue value "N/A".

Definition getAgeDisplay (age : jsval) : string := getDisplayValue age "N/A".
Definition getGenderDisplay (gender : jsval) : string := getDisplayValue gender "N/A".
Definition getEventTypeDisplay (eventType : jsval) : string := getDisplayValue eventType "N/A".
Definition getLocationDisplay (location : jsval) : string := getDisplayValue location "N/A".

Definition getDisplayClass (value : jsval) (defaultClass emptyClass : string) : string :=
  let displayValue := getDisplayValue_default value in
  if (displayValue =? "N/A")%string then emptyClass else defaultClass.

(** ** The [URL] constructor (host API)

    The fragment of the WHATWG URL parser that [isValidExternalWebsite]
    depends on, for an absolute URL without a base: the scheme, and for
    [http:] and [https:] the host and the path.  Credentials and ports
    are split off the authority; percent-decoding, IDNA, IPv4/IPv6
    literals and dot-segment removal are not modelled, so that on an
    address with dot segments, a numeric host or a bracketed host the
    fragment and the standard differ.  It serves to run the validation
    on plain addresses; the general fact about the validation takes
    the constructor as a parameter.  A string that is not an absolute
    URL makes the constructor throw a [TypeError]. *)

Record URL : Type := mkURL {
  protocol : string;
  hostname : string;
  pathname : string
}.

Definition is_alpha (c : ascii) : bool :=
  let n := N_of_ascii (lower_char c) in ((97 <=? n) && (n <=? 122))%N.

Definition is_digit (c : ascii) : bool :=
  let n := N_of_ascii c in ((48 <=? n) && (n <=? 57))%N.

Definition is_scheme_char (c : ascii) : bool :=
  is_alpha c || is_digit c || (c =? "+")%char || (c =? "-")%char || (c =? ".")%char.

(** Longest prefix whose characters satisfy [p], and the rest. *)
Fixpoint span (p : ascii -> bool) (s : string) : string * string :=
  match s with
  | EmptyString => (EmptyString, EmptyString)
  | String c r =>
      if p c then let '(a, b) := span p r in (String c a, b)
      else (EmptyString, s)
  end.

Fixpoint string_forallb (p : ascii -> bool) (s : string) : bool :=
  match s with
  | EmptyString => true
  | String c r => p c && string_forallb p r
  end.

(** The part of [s] after the last occurrence of [c], if [c] occurs. *)
Fixpoint after_last (c : ascii) (s : string) : option string :=
  match s with
  | EmptyString => None
  | String d r =>
      match after_last c r with
      | Some t => Some t
      | None => if (d =? c)%char then Some r else None
      end
  end.

(** The part of [s] before the last occurrence of [c], if [c] occurs. *)
Fixpoint before_last (c : ascii) (s : string) : option string :=
  match s with
  | EmptyString => None
  | String d r =>
      match before_last c r with
      | Some t => Some (String d t)
      | None => if (d =? c)%char then Some EmptyString else None
      end
  end.

Definition is_slash (c : ascii) : bool := (c =? "/")%char || (c =? "\")%char.

Definition is_authority_end (c : ascii) : bool :=
  is_slash c || (c =? "?")%char || (c =? "#")%char.

Definition is_path_end (c : ascii) : bool := (c =? "?")%char || (c =? "#")%char.

Definition forbidden_host_char (c : ascii) : bool :=
  is_white c || (N_of_ascii c <? 32)%N ||
  existsb (Ascii.eqb c) ["#"; "/"; ":"; "<"; ">"; "?"; "@"; "["; "\"; "]"; "^"; "|"; "%"]%char.

Definition is_special_scheme (scheme : string) : bool :=
  array_includes ["http"; "https"] scheme.

Definition backslash_to_slash (c : ascii) : ascii :=
  if (c =? "\")%char then "/"%char else c.

Fixpoint string_map (f : ascii -> ascii) (s : string) : string :=
  match s with
  | EmptyString => EmptyString
  | String c r => String (f c) (string_map f r)
  end.

Fixpoint decimal_value (s : string) (acc : N) : N :=
  match s with
  | EmptyString => acc
  | String c r => decimal_value r (10 * acc + (N_of_ascii c - 48))%N
  end.

(** [new URL(url)] *)
Definition new_URL (url : string) : result URL :=
  match url with
  | EmptyString => Throw TypeError
  | String c _ =>
      if negb (is_alpha c) then Throw TypeError else
      let '(sch, rest) := span is_scheme_char url in
      match rest with
      | String ":" rest =>
          let scheme := toLowerCase sch in
          if is_special_scheme scheme then
            let '(_, rest) := span is_slash rest in
            let '(authority, rest) := span (fun c => negb (is_authority_end c)) rest in
            let hostport :=
              match after_last "@" authority with
              | Some hp => hp
              | None => authority
              end in
            let '(host, port) :=
              match before_last ":" hostport, after_last ":" hostport with
              | Some h, Some p => (h, p)
              | _, _ => (hostport, EmptyString)
              end in
            let '(path, _) := span (fun c => negb (is_path_end c)) rest in
            if (host =? "")%string
               || negb (string_forallb (fun c => negb (forbidden_host_char c)) host)
               || negb (string_forallb is_digit port)
               || (65535 <? decimal_value port 0)%N
            then Throw TypeError
            else Ok {| protocol := scheme ++ ":";
                       hostname := toLowerCase host;
                       pathname := if (path =? "")%string then "/"
                                   else string_map backslash_to_slash path |}
          else
            let '(path, _) := span (fun c => negb (is_path_end c)) rest in
            Ok {| protocol := scheme ++ ":"; hostname := ""; pathname := path |}
      | _ => Throw TypeError
      end
  end.

(** ** Website validation ([utils/websiteValidation.js]) *)

Definition placeholderValues : list string :=
  ["n/a"; "na"; "not available"; "none"; "null"; "undefined"].

(** The [internalPatterns] array: each entry is the test of one anchored
    pattern against the trimmed input. *)
Definition internalPatterns : list (string -> bool) :=
  [ (fun url => (url =? "/")%string);
    (fun url => startsWith url "/#");
    (fun url => startsWith url "/?");
    (fun url => startsWith url "javascript:");
    (fun url => startsWith url "mailto:");
    (fun url => startsWith url "tel:") ].

(** The function, with the [URL] constructor it calls as a parameter. *)
Definition isValidExternalWebsite_with (newURL : string -> result URL) (url : jsval) : bool :=
  if negb (truthy url) then false else
  match url with
  | JString url =>
      let url := trim url in
      if (url =? "")%string then false else
      if array_includes placeholderValues (toLowerCase url) then false else
      try_catch
        (urlObj <- newURL url ;;
         if (protocol urlObj =? "")%string
            || negb (array_includes ["http:"; "https:"] (protocol urlObj))
         then Ok false else
         if (hostname urlObj =? "")%string then Ok false else
         if (hostname urlObj =? "localhost")%string
            || (hostname urlObj =? "127.0.0.1")%string
            || includes (hostname urlObj) "localhost"
            || (pathname urlObj =? "/")%string
            || (pathname urlObj =? "")%string
         then Ok false else
         if existsb (fun pattern => pattern url) internalPatterns then Ok false
         else Ok true)
        (fun _ => false)
  | _ => false
  end.

Definition isValidExternalWebsite (url : jsval) : bool :=
  isValidExternalWebsite_with new_URL url.

Definition getWebsiteDisplayText (url : jsval) : string :=
  if isValidExternalWebsite url then "Visit" else "N/A".

(** ** Calendar arithmetic

    Days are counted from 1970-01-01 (day 0) in the proleptic Gregorian
    calendar, as the [Date] time value does. *)

Definition msPerDay : Z := 86400000.
Definition msPerHour : Z := 3600000.

Definition is_leap (y : Z) : bool :=
  (y mod 4 =? 0) && (negb (y mod 100 =? 0) || (y mod 400 =? 0)).

Definition days_in_month (y m : Z) : Z :=
  if m =? 2 then (if is_leap y then 29 else 28)
  else if (m =? 4) || (m =? 6) || (m =? 9) || (m =? 11) then 30
  else 31.

(** Day within a 400-year era, counted from 1 March of its first year,
    of day [d] of month [m] in year [yoe] of the era (the year running
    from March to February). *)
Definition doe_of_civil (yoe m d : Z) : Z :=
  yoe * 365 + yoe / 4 - yoe / 100
  + ((153 * (if m >? 2 then m - 3 else m + 9) + 2) / 5 + d - 1).

(** Day number of the civil date [y]-[m]-[d] ([m] from 1 to 12). *)
Definition days_from_civil (y m d : Z) : Z :=
  let y' := if m <=? 2 then y - 1 else y in
  let era := y' / 400 in
  era * 146097 + doe_of_civil (y' - era * 400) m d - 719468.

(** Year of the era, month and day of month of a day of the era. *)
Definition civil_of_doe (doe : Z) : Z * Z * Z :=
  let yoe := (doe - doe / 1460 + doe / 36524 - doe / 146096) / 365 in
  let doy := doe - (365 * yoe + yoe / 4 - yoe / 100) in
  let mp := (5 * doy + 2) / 153 in
  (yoe, (if mp <? 10 then mp + 3 else mp - 9), doy - (153 * mp + 2) / 5 + 1).

(** Civil date (year, month from 1 to 12, day of month) of a day number. *)
Definition civil_from_days (z : Z) : Z * Z * Z :=
  let z' := z + 719468 in
  let era := z' / 146097 in
  let '(yoe, m, d) := civil_of_doe (z' - era * 146097) in
  (yoe + era * 400 + (if m <=? 2 then 1 else 0), m, d).

(** Day of the week of a day number, Sunday = 0. *)
Definition WeekDay (day : Z) : Z := (day + 4) mod 7.

Definition Day (t : Z) : Z := t / msPerDay.
Definition TimeWithinDay (t : Z) : Z := t mod msPerDay.

Definition YearFromTime (t : Z) : Z := let '(y, _, _) := civil_from_days (Day t) in y.
(** Month number from 0 to 11. *)
Definition MonthFromTime (t : Z) : Z := let '(_, m, _) := civil_from_days (Day t) in m - 1.
Definition DateFromTime (t : Z) : Z := let '(_, _, d) := civil_from_days (Day t) in d.

(** [MakeDay(year, month, date)] with [month] from 0. *)
Definition MakeDay (year month date : Z) : Z :=
  days_from_civil (year + month / 12) (month mod 12 + 1) 1 + date - 1.

Definition MakeDate (day time : Z) : Z := day * msPerDay + time.

(** ** Decimal text *)

Definition digit_char (n : Z) : ascii := ascii_of_N (Z.to_N (n mod 10) + 48).

(** The [width] low decimal digits of [n], most significant first. *)
Fixpoint digits (width : nat) (n : Z) : string :=
  match width with
  | O => EmptyString
  | S w => digits w (n / 10) ++ String (digit_char n) EmptyString
  end.

Fixpoint decimal_width (fuel : nat) (n : Z) : nat :=
  match fuel with
  | O => 1%nat
  | S f => if n <? 10 then 1%nat else S (decimal_width f (n / 10))
  end.

(** Decimal numeral of a non-negative integer, without padding. *)
Definition decimal (n : Z) : string := digits (decimal_width 20 n) n.

(** [String(n).padStart(width, '0')] for a non-negative integer. *)
Definition zero_pad (width : nat) (n : Z) : string :=
  digits (Nat.max width (decimal_width 20 n)) n.

Definition digit_value (c : ascii) : option Z :=
  if is_digit c then Some (Z.of_N (N_of_ascii c) - 48) else None.

(** Value of a string of decimal digits; [None] when it is empty or
    holds anything else. *)
Fixpoint number_of_digits (s : string) (acc : Z) : option Z :=
  match s with
  | EmptyString => Some acc
  | String c r =>
      match digit_value c with
      | Some v => number_of_digits r (10 * acc + v)
      | None => None
      end
  end.

Definition parse_digits (s : string) : option Z :=
  match s with
  | EmptyString => None
  | _ => number_of_digits s 0
  end.

(** The calendar date written [YYYY-MM-DD]; [None] when the text has
    another shape or names a day that does not exist. *)
Definition parse_ymd (s : string) : option (Z * Z * Z) :=
  if negb (String.length s =? 10)%nat then None else
  if negb ((substring 4 1 s =? "-")%string && (substring 7 1 s =? "-")%string) then None else
  match parse_digits (substring 0 4 s), parse_digits (substring 5 2 s),
        parse_digits (substring 8 2 s) with
  | Some y, Some m, Some d =>
      if (1 <=? m) && (m <=? 12) && (1 <=? d) && (d <=? days_in_month y m)
      then Some (y, m, d) else None
  | _, _, _ => None
  end.

(** The calendar date written in one of the ISO shapes [YYYY],
    [YYYY-MM] and [YYYY-MM-DD]; a month or a day left out is the first. *)
Definition parse_iso_date (s : string) : option (Z * Z * Z) :=
  if (String.length s =? 10)%nat then parse_ymd s
  else if (String.length s =? 7)%nat then
    if negb (substring 4 1 s =? "-")%string then None else
    match parse_digits (substring 0 4 s), parse_digits (substring 5 2 s) with
    | Some y, Some m => if (1 <=? m) && (m <=? 12) then Some (y, m, 1) else None
    | _, _ => None
    end
  else if (String.length s =? 4)%nat then
    match parse_digits s with
    | Some y => Some (y, 1, 1)
    | None => None
    end
  else None.

(** The time of day written [HH:mm:ss], in milliseconds. *)
Definition parse_hms (s : string) : option Z :=
  if negb (String.length s =? 8)%nat then None else
  if negb ((substring 2 1 s =? ":")%string && (substring 5 1 s =? ":")%string) then None else
  match parse_digits (substring 0 2 s), parse_digits (substring 3 2 s),
        parse_digits (substring 6 2 s) with
  | Some h, Some mi, Some sec =>
      if (h <? 24) && (mi <? 60) && (sec <? 60)
      then Some (h * msPerHour + mi * 60000 + sec * 1000) else None
  | _, _, _ => None
  end.

(** ** The [Date] object (host API)

    A [Date] holds a time value, milliseconds since the epoch in UTC, or
    NaN for an Invalid Date.  Numbers that can be NaN are options. *)

Definition number : Type := option Z.
Definition NaN : number := None.
Definition Date : Type := number.

(** [a + n] on numbers. *)
Definition num_add (a : number) (n : Z) : number :=
  match a with
  | Some x => Some (x + n)
  | None => None
  end.

(** [a < b] on numbers: false as soon as one side is NaN. *)
Definition num_lt (a b : number) : bool :=
  match a, b with
  | Some x, Some y => x <? y
  | _, _ => false
  end.

Definition num_gt (a b : number) : bool := num_lt b a.

(** The host's time zone: [LocalTZA tz t true] is the offset from UTC, in
    milliseconds, in effect at the UTC instant [t]; [LocalTZA tz t false]
    is the offset by which the local time value [t] is read. *)
Record TimeZone : Type := mkTimeZone { LocalTZA : Z -> bool -> Z }.

Definition LocalTime (tz : TimeZone) (t : Z) : Z := t + LocalTZA tz t true.
Definition UTC (tz : TimeZone) (t : Z) : Z := t - LocalTZA tz t false.

Definition TimeClip (t : Z) : number :=
  if Z.abs t <=? 8640000000000000 then Some t else NaN.

(** [new Date(value)] for a field value.  A string in one of the
    date-only forms of the standard ([YYYY], [YYYY-MM], [YYYY-MM-DD])
    denotes midnight UTC.  How any other string is read is left to the
    engine by the standard (a date with a time is read in the host's
    zone, and engines read further shapes by rules of their own): the
    model gives an Invalid Date for them, and the facts below either
    keep to the date-only forms or speak of the [Date] that was built,
    whatever the string.  A day past the end of its month, as in
    [2024-02-30], is an Invalid Date here; an engine may also carry it
    over into the next month.  [null] converts to the number 0 and
    [undefined] to NaN. *)
Definition new_Date (value : jsval) : Date :=
  match value with
  | JUndefined => NaN
  | JNull => Some 0
  | JString s =>
      match parse_iso_date s with
      | Some (y, m, d) => Some (days_from_civil y m d * msPerDay)
      | None => NaN
      end
  end.

Definition getFullYear (tz : TimeZone) (d : Date) : number :=
  match d with
  | Some t => Some (YearFromTime (LocalTime tz t))
  | None => NaN
  end.

Definition getMonth (tz : TimeZone) (d : Date) : number :=
  match d with
  | Some t => Some (MonthFromTime (LocalTime tz t))
  | None => NaN
  end.

Definition getDate (tz : TimeZone) (d : Date) : number :=
  match d with
  | Some t => Some (DateFromTime (LocalTime tz t))
  | None => NaN
  end.

(** [d.setDate(date)]: the new time value of [d]. *)
Definition setDate (tz : TimeZone) (d : Date) (date : number) : Date :=
  match d, date with
  | Some t0, Some dt =>
      let t := LocalTime tz t0 in
      let newDate := MakeDate (MakeDay (YearFromTime t) (MonthFromTime t) dt)
                              (TimeWithinDay t) in
      TimeClip (UTC tz newDate)
  | _, _ => NaN
  end.

(** [d.toISOString()], which throws a [RangeError] on an Invalid Date.
    Years outside 0..9999 take the expanded form with a sign and six
    digits. *)
Definition toISOString (d : Date) : result string :=
  match d with
  | None => Throw RangeError
  | Some t =>
      let '(y, m, dd) := civil_from_days (Day t) in
      let ms := TimeWithinDay t in
      let year :=
        if (0 <=? y) && (y <=? 9999) then digits 4 y
        else (if y <? 0 then "-" else "+") ++ digits 6 (Z.abs y) in
      Ok (year ++ "-" ++ digits 2 m ++ "-" ++ digits 2 dd ++ "T"
          ++ digits 2 (ms / msPerHour) ++ ":" ++ digits 2 (ms / 60000 mod 60) ++ ":"
          ++ digits 2 (ms / 1000 mod 60) ++ "." ++ digits 3 (ms mod 1000) ++ "Z")
  end.

(** [s.substr(0, n)] *)
Definition substr0 (n : nat) (s : string) : string := substring 0 n s.

(** A zone that keeps one offset all year: [minutes] east of Greenwich. *)
Definition fixed_zone (minutes : Z) : TimeZone :=
  {| LocalTZA := fun _ _ => minutes * 60000 |}.

(** The day number of the [n]-th Sunday (from 1) of month [m] of year [y]. *)
Definition nth_sunday (y m n : Z) : Z :=
  let first := days_from_civil y m 1 in
  first + (7 - WeekDay first) mod 7 + 7 * (n - 1).

(** The zone [America/New_York] under the rule in force since 2007:
    daylight time from the second Sunday of March, 02:00 local, to the
    first Sunday of November, 02:00 local.  A skipped or repeated local
    time is read with the offset in force before the transition. *)
Definition America_New_York : TimeZone :=
  {| LocalTZA := fun t isUTC =>
       let y := YearFromTime t in
       let spring := nth_sunday y 3 2 * msPerDay in
       let autumn := nth_sunday y 11 1 * msPerDay in
       let dst :=
         if isUTC
         then (spring + 7 * msPerHour <=? t) && (t <? autumn + 6 * msPerHour)
         else (spring + 3 * msPerHour <=? t) && (t <? autumn + 2 * msPerHour) in
       if dst then -4 * msPerHour else -5 * msPerHour |}.

(** ** date-fns (library)

    date-fns reads and writes a [Date] through its local-time fields
    only.  The model keeps exactly those: a date is its local time
    value, milliseconds since 1970-01-01T00:00 on the wall clock, or NaN
    for an Invalid Date.  It is taken that the wall-clock times involved
    exist in the host's zone. *)

(** [`${v}`] *)
Definition template (v : jsval) : string :=
  match v with
  | JUndefined => "undefined"
  | JNull => "null"
  | JString s => s
  end.

(** [T] or a space, which part the date from the time. *)
Definition is_dateTimeDelimiter (c : ascii) : bool := (c =? "T")%char || (c =? " ")%char.

(** [parseISO(argument)].  The text is cut at the first [T] or space
    into a date and a time.  The model reads the dates [YYYY],
    [YYYY-MM] and [YYYY-MM-DD] and the time [HH:mm:ss], which may be
    left out; the other ISO 8601 forms the library knows (basic,
    week and ordinal dates, shorter times, fractions, zone suffixes)
    are outside it and count as unreadable, so the facts below either
    keep to the forms read or speak of the date that [parseISO]
    returns, whatever the text.  An argument that is not a string gives
    an Invalid Date. *)
Definition parseISO (argument : jsval) : Date :=
  match argument with
  | JString s =>
      let date := before_delimiter is_dateTimeDelimiter s in
      let timeString :=
        substring (S (String.length date)) (String.length s - S (String.length date)) s in
      match parse_iso_date date with
      | Some (y, m, d) =>
          let day := days_from_civil y m d in
          if (timeString =? "")%string then Some (MakeDate day 0)
          else
            match parse_hms timeString with
            | Some time => Some (MakeDate day time)
            | None => NaN
            end
      | None => NaN
      end
  | _ => NaN
  end.

Definition startOfDay (d : Date) : Date :=
  match d with
  | Some t => Some (Day t * msPerDay)
  | None => NaN
  end.

(** [isSameDay(dateLeft, dateRight)]: the two starts of day have the
    same time value, which NaN never has. *)
Definition isSameDay (dateLeft dateRight : Date) : bool :=
  match startOfDay dateLeft, startOfDay dateRight with
  | Some l, Some r => l =? r
  | _, _ => false
  end.

(** [startOfWeek(date)], weeks starting on Sunday. *)
Definition startOfWeek (d : Date) : Date :=
  match d with
  | Some t => Some ((Day t - WeekDay (Day t)) * msPerDay)
  | None => NaN
  end.

Definition endOfWeek (d : Date) : Date :=
  match d with
  | Some t => Some ((Day t - WeekDay (Day t) + 7) * msPerDay - 1)
  | None => NaN
  end.

Definition startOfMonth (d : Date) : Date :=
  match d with
  | Some t => let '(y, m, _) := civil_from_days (Day t) in
              Some (days_from_civil y m 1 * msPerDay)
  | None => NaN
  end.

Definition endOfMonth (d : Date) : Date :=
  match d with
  | Some t => let '(y, m, _) := civil_from_days (Day t) in
              Some ((days_from_civil y m (days_in_month y m) + 1) * msPerDay - 1)
  | None => NaN
  end.

Definition addDays (d : Date) (amount : Z) : Date :=
  match d with
  | Some t => Some (t + amount * msPerDay)
  | None => NaN
  end.

Definition weekday_names : list string :=
  ["Sunday"; "Monday"; "Tuesday"; "Wednesday"; "Thursday"; "Friday"; "Saturday"].

Definition month_names : list string :=
  ["Jan"; "Feb"; "Mar"; "Apr"; "May"; "Jun"; "Jul"; "Aug"; "Sep"; "Oct"; "Nov"; "Dec"].

(** A format pattern cut into tokens: a run of one repeated letter is a
    token, every other character stands for itself. *)
Fixpoint format_tokens (pattern : string) : list string :=
  match pattern with
  | EmptyString => []
  | String c r =>
      match format_tokens r with
      | String c' t :: ts =>
          if is_alpha c && (c =? c')%char
          then String c (String c' t) :: ts
          else String c EmptyString :: String c' t :: ts
      | ts => String c EmptyString :: ts
      end
  end.

Definition is_letter_token (tok : string) : bool :=
  match tok with
  | String c _ => is_alpha c
  | EmptyString => false
  end.

(** One token of the patterns the application uses; any other letter
    token is not a pattern of the library and makes it throw. *)
Definition format_token (t : Z) (tok : string) : result string :=
  let '(y, m, d) := civil_from_days (Day t) in
  if (tok =? "EEEE")%string then Ok (nth (Z.to_nat (WeekDay (Day t))) weekday_names "")
  else if (tok =? "EEE")%string
       then Ok (substring 0 3 (nth (Z.to_nat (WeekDay (Day t))) weekday_names ""))
  else if (tok =? "MMM")%string then Ok (nth (Z.to_nat (m - 1)) month_names "")
  else if (tok =? "d")%string then Ok (decimal d)
  else if (tok =? "yyyy")%string then Ok (zero_pad 4 y)
  else if is_letter_token tok then Throw RangeError
  else Ok tok.

Fixpoint format_all (t : Z) (toks : list string) : result string :=
  match toks with
  | [] => Ok EmptyString
  | tok :: rest =>
      s <- format_token t tok ;;
      r <- format_all t rest ;;
      Ok (s ++ r)
  end.

(** [format(date, formatStr)]: a [RangeError] on an Invalid Date. *)
Definition format (date : Date) (formatStr : string) : result string :=
  match date with
  | None => Throw RangeError
  | Some t => format_all t (format_tokens formatStr)
  end.

(** date-fns-tz [format(date, formatStr, { timeZone })]: the zone only
    feeds the time-zone tokens, of which the application's patterns
    have none. *)
Definition formatTz (date : Date) (formatStr : string) (timeZone : string) : result string :=
  format date formatStr.

(** ** Date display ([utils/timezone.js]) *)

Definition en_dash : string := "–".

Definition formatEventDateDisplay (startDate endDate : jsval) (timezone : string) : jsval :=
  try_catch
    (let startDateObj := parseISO (JString (template startDate ++ "T00:00:00")) in
     if negb (truthy endDate)
        || isSameDay startDateObj (parseISO (JString (template endDate ++ "T00:00:00")))
     then
       s <- formatTz startDateObj "EEEE, MMM d, yyyy" timezone ;;
       Ok (JString s)
     else
       let endDateObj := parseISO (JString (template endDate ++ "T00:00:00")) in
       startFormatted <- formatTz startDateObj "EEE, MMM d" timezone ;;
       endFormatted <- formatTz endDateObj "EEE, MMM d, yyyy" timezone ;;
       Ok (JString (startFormatted ++ " " ++ en_dash ++ " " ++ endFormatted)))
    (fun _ => startDate).

Definition formatDateDisplay (date : jsval) (timezone : string) : jsval :=
  try_catch
    (let dateObj := parseISO (JString (template date ++ "T00:00:00")) in
     s <- formatTz dateObj "EEEE, MMM d, yyyy" timezone ;;
     Ok (JString s))
    (fun _ => date).

(** ** Collation and sorting (host API) *)

Fixpoint lex_compare (a b : list N) : comparison :=
  match a, b with
  | [], [] => Eq
  | [], _ :: _ => Lt
  | _ :: _, [] => Gt
  | x :: a', y :: b' =>
      match (x ?= y)%N with
      | Eq => lex_compare a' b'
      | c => c
      end
  end.

(** The characters of the ASCII repertoire in the order of the root
    collation, by code: white space, punctuation, symbols, the currency
    sign, digits, letters (one entry per letter: case is not a primary
    difference). *)
Definition collation_order : list N :=
  [ 9; 10; 11; 12; 13; 32;
    95; 45; 44; 59; 58; 33; 63; 46; 39; 34; 40; 41; 91; 93; 123; 125;
    64; 42; 47; 92; 38; 35; 37;
    96; 94; 43; 60; 61; 62; 124; 126;
    36;
    48; 49; 50; 51; 52; 53; 54; 55; 56; 57;
    97; 98; 99; 100; 101; 102; 103; 104; 105; 106; 107; 108; 109; 110; 111;
    112; 113; 114; 115; 116; 117; 118; 119; 120; 121; 122 ]%N.

(** The place of [n] in [l], counted from [i]. *)
Fixpoint position (n : N) (l : list N) (i : N) : option N :=
  match l with
  | [] => None
  | x :: rest => if (x =? n)%N then Some i else position n rest (i + 1)%N
  end.

(** The primary weight of a character.  The other control characters
    carry none: the collation passes over them.  Bytes beyond the
    repertoire are ranked after the letters. *)
Definition primary_weight (c : ascii) : option N :=
  let n := N_of_ascii (lower_char c) in
  if (128 <=? n)%N then Some (n + 128)%N else position n collation_order 0.

(** Primary weights: white space before punctuation before symbols
    before digits before letters, case ignored. *)
Definition primary_key (s : string) : list N :=
  flat_map (fun c => match primary_weight c with
                     | Some w => [w]
                     | None => []
                     end) (list_ascii_of_string s).

(** Tertiary weights: lower case before upper case. *)
Definition tertiary_key (s : string) : list N :=
  flat_map (fun c => match primary_weight c with
                     | Some _ => [if is_upper c then 1%N else 0%N]
                     | None => []
                     end) (list_ascii_of_string s).

Definition sign_of (c : comparison) : Z :=
  match c with
  | Lt => -1
  | Eq => 0
  | Gt => 1
  end.

(** [a.localeCompare(b)] under the host's default collation (the root
    collation, with punctuation not ignored), on the ASCII repertoire:
    strings are ranked by their characters in the order above with case
    ignored, and case only separates strings that are otherwise the
    same, lower case first. *)
Definition localeCompare (a b : string) : Z :=
  match lex_compare (primary_key a) (primary_key b) with
  | Eq => sign_of (lex_compare (tertiary_key a) (tertiary_key b))
  | c => sign_of c
  end.

(** [a < b] on strings: by code units. *)
Definition string_lt (a b : string) : bool :=
  match String.compare a b with
  | Lt => true
  | _ => false
  end.

Section ArraySort.
Context {A : Type}.
Variable comparefn : A -> A -> result Z.

Fixpoint sort_insert (x : A) (sorted : list A) : result (list A) :=
  match sorted with
  | [] => Ok [x]
  | y :: ys =>
      order <- comparefn x y ;;
      if order >? 0
      then r <- sort_insert x ys ;; Ok (y :: r)
      else Ok (x :: sorted)
  end.

(** [array.sort(comparefn)].  The sort is stable; an exception thrown
    by the comparator leaves the sort.  Which pairs are compared is up
    to the engine: the model inserts each element, from the last to
    the first, into the sorted rest. *)
Fixpoint Array_sort (array : list A) : result (list A) :=
  match array with
  | [] => Ok []
  | x :: xs => sorted <- Array_sort xs ;; sort_insert x sorted
  end.
End ArraySort.

(** ** Event records *)

Record EventRecord : Type := mkEvent {
  id : jsval;
  name : jsval;
  sport : jsval;
  start_date : jsval;
  end_date : jsval;
  location : jsval;
  age : jsval;
  gender : jsval;
  event_type : jsval;
  website : jsval
}.

(** ** Month view ([components/DayCell.js]) *)

(** What a cell or column shows: the event tiles, and the number behind
    the "+N more" marker when there is one. *)
Record DayTiles : Type := mkDayTiles {
  tiles : list EventRecord;
  more : option Z
}.

(** [array.slice(0, 2)] *)
Definition slice_0_2 {A : Type} (array : list A) : list A := firstn 2 array.

Definition array_length {A : Type} (array : list A) : Z := Z.of_nat (List.length array).

(** [(a, b) => a.name.toLowerCase().localeCompare(b.name.toLowerCase())] *)
Definition compare_lower_names (a b : EventRecord) : result Z :=
  an <- as_object (name a) ;;
  bn <- as_object (name b) ;;
  Ok (localeCompare (toLowerCase an) (toLowerCase bn)).

(** The component as [unnamed/part_002] has it: a day with more than two
    events is sorted before it is cut. *)
Definition DayCell (day : Date) (events : list EventRecord) : result DayTiles :=
  let dayEvents :=
    filter (fun event => isSameDay (parseISO (start_date event)) day) events in
  sortedDayEvents <-
    (if array_length dayEvents >? 2
     then Array_sort compare_lower_names dayEvents
     else Ok dayEvents) ;;
  Ok {| tiles := slice_0_2 sortedDayEvents;
        more := if array_length sortedDayEvents >? 2
                then Some (array_length sortedDayEvents - 2)
                else None |}.

(** The component as [src/components/DayCell.js] has it:
    [dayEvents.slice(0, 2)], with no sort, and the marker from
    [dayEvents.length]. *)
Definition DayCell_unsorted (day : Date) (events : list EventRecord) : DayTiles :=
  let dayEvents :=
    filter (fun event => isSameDay (parseISO (start_date event)) day) events in
  {| tiles := slice_0_2 dayEvents;
     more := if array_length dayEvents >? 2
             then Some (array_length dayEvents - 2)
             else None |}.

(** ** Calendar grid ([components/CalendarGrid.js]) *)

(** [(a, b) => a.name.localeCompare(b.name)]: the argument of
    [localeCompare] is converted to a string, its receiver is not. *)
Definition compare_names (a b : EventRecord) : result Z :=
  an <- as_object (name a) ;;
  Ok (localeCompare an (template (name b))).

Definition getEventsForDate (events : list EventRecord) (date : Date)
  : result (list EventRecord) :=
  Array_sort compare_names
    (filter (fun event =>
               let eventDate := parseISO (start_date event) in
               isSameDay eventDate date) events).

(** [for (let i = 0; i < 7; i++)], as the list of the values of [i]. *)
Definition seven : list Z := [0; 1; 2; 3; 4; 5; 6].

Fixpoint mapM {A B : Type} (f : A -> result B) (l : list A) : result (list B) :=
  match l with
  | [] => Ok []
  | x :: xs => y <- f x ;; ys <- mapM f xs ;; Ok (y :: ys)
  end.

(** One column per day: the day and what it shows. *)
Definition renderWeekView (events : list EventRecord) (currentDate : Date)
  : result (list (Date * DayTiles)) :=
  let startDate := startOfWeek currentDate in
  mapM (fun i =>
          let day := addDays startDate i in
          dayEvents <- getEventsForDate events day ;;
          Ok (day, {| tiles := slice_0_2 dayEvents;
                      more := if array_length dayEvents >? 2
                              then Some (array_length dayEvents - 2)
                              else None |}))
       seven.

Definition renderDayView (events : list EventRecord) (currentDate : Date)
  : result (list EventRecord) :=
  getEventsForDate events currentDate.

(** [day <= endDate] on dates. *)
Definition num_le (a b : number) : bool :=
  match a, b with
  | Some x, Some y => x <=? y
  | _, _ => false
  end.

(** The [while (day <= endDate)] loop of the month view: each turn
    lays out one row of seven cells.  [fuel] bounds the number of rows;
    a month touches at most six weeks. *)
Fixpoint month_rows (fuel : nat) (events : list EventRecord) (day endDate : Date)
  : result (list (list (Date * DayTiles))) :=
  match fuel with
  | O => Ok []
  | S fuel' =>
      if num_le day endDate then
        days <- mapM (fun i => cell <- DayCell (addDays day i) events ;;
                               Ok (addDays day i, cell)) seven ;;
        rows <- month_rows fuel' events (addDays day 7) endDate ;;
        Ok (days :: rows)
      else Ok []
  end.

Definition renderMonthView (events : list EventRecord) (currentDate : Date)
  : result (list (list (Date * DayTiles))) :=
  let monthStart := startOfMonth currentDate in
  let monthEnd := endOfMonth monthStart in
  let startDate := startOfWeek monthStart in
  let endDate := endOfWeek monthEnd in
  month_rows 6 events startDate endDate.

(** ** Filtering ([App.js]) *)

Module Filters.
(** [dateRange]: each bound is [null] or a [Date] object. *)
Record DateRange : Type := mkDateRange {
  start : option Date;
  end_ : option Date
}.

Record t : Type := mkFilters {
  sport : string;
  location : string;
  age : string;
  gender : string;
  eventType : string;
  dateRange : DateRange
}.
End Filters.

(** Truthiness of a string. *)
Definition nonempty (s : string) : bool := negb (s =? "")%string.

(** Truthiness of a bound: an object is truthy, [null] is not. *)
Definition is_set (bound : option Date) : bool :=
  match bound with
  | Some _ => true
  | None => false
  end.

(** [v !== s] for a string [s]. *)
Definition strict_neq (v : jsval) (s : string) : bool :=
  match v with
  | JString x => negb (x =? s)%string
  | _ => true
  end.

(** [date < bound] and [date > bound] for a bound that is set. *)
Definition before_bound (date : Date) (bound : option Date) : bool :=
  match bound with
  | Some b => num_lt date b
  | None => false
  end.

Definition after_bound (date : Date) (bound : option Date) : bool :=
  match bound with
  | Some b => num_gt date b
  | None => false
  end.

(** [filterM]: [array.filter] with a callback that may throw. *)
Fixpoint filterM {A : Type} (f : A -> result bool) (l : list A) : result (list A) :=
  match l with
  | [] => Ok []
  | x :: xs =>
      keep <- f x ;;
      rest <- filterM f xs ;;
      Ok (if keep then x :: rest else rest)
  end.

(** The callback of [events.filter] in [applyFilters]. *)
Definition keeps (searchQuery : string) (filters : Filters.t) (event : EventRecord)
  : result bool :=
  eventName <- as_object (JString (or_default (name event) "")) ;;
  eventLocation <- as_object (JString (or_default (location event) "")) ;;
  missed <-
    (if nonempty searchQuery then
       let query := toLowerCase searchQuery in
       eventSport <- as_object (JString (or_default (sport event) "")) ;;
       Ok (negb (includes (toLowerCase eventName) query)
           && negb (includes (toLowerCase eventLocation) query)
           && negb (includes (toLowerCase eventSport) query))
     else Ok false) ;;
  if missed then Ok false else
  if nonempty (Filters.sport filters) && strict_neq (sport event) (Filters.sport filters)
  then Ok false else
  if nonempty (Filters.location filters)
     && negb (includes (toLowerCase eventLocation) (toLowerCase (Filters.location filters)))
  then Ok false else
  if nonempty (Filters.age filters) && strict_neq (age event) (Filters.age filters)
  then Ok false else
  if nonempty (Filters.gender filters) && strict_neq (gender event) (Filters.gender filters)
  then Ok false else
  if nonempty (Filters.eventType filters)
     && strict_neq (event_type event) (Filters.eventType filters)
  then Ok false else
  let range := Filters.dateRange filters in
  if is_set (Filters.start range) || is_set (Filters.end_ range) then
    let eventDate := new_Date (start_date event) in
    if is_set (Filters.start range) && before_bound eventDate (Filters.start range)
    then Ok false else
    if is_set (Filters.end_ range) && after_bound eventDate (Filters.end_ range)
    then Ok false else
    Ok true
  else Ok true.

Definition applyFilters (events : list EventRecord) (searchQuery : string)
  (filters : Filters.t) : result (list EventRecord) :=
  filterM (keeps searchQuery filters) events.

(** ** List view ([components/ListView.js]) *)

(** The value a row is ranked by: a [Date] or a string. *)
Inductive sort_value : Type :=
| DateValue (d : Date)
| StringValue (s : string).

(** [aValue < bValue] *)
Definition value_lt (a b : sort_value) : bool :=
  match a, b with
  | DateValue x, DateValue y => num_lt x y
  | StringValue x, StringValue y => string_lt x y
  | _, _ => false
  end.

(** The [switch (sortField)] of the comparator for one row: [None] is
    the [default] branch. *)
Definition sort_value_of (sortField : string) (e : EventRecord)
  : result (option sort_value) :=
  if (sortField =? "startDateTime")%string then
    Ok (Some (DateValue (new_Date (start_date e))))
  else if (sortField =? "name")%string then
    s <- as_object (name e) ;; Ok (Some (StringValue (toLowerCase s)))
  else if (sortField =? "sport")%string then
    s <- as_object (sport e) ;; Ok (Some (StringValue (toLowerCase s)))
  else if (sortField =? "location")%string then
    s <- as_object (location e) ;; Ok (Some (StringValue (toLowerCase s)))
  else if (sortField =? "age")%string then
    s <- as_object (age e) ;; Ok (Some (StringValue (toLowerCase s)))
  else if (sortField =? "gender")%string then
    s <- as_object (gender e) ;; Ok (Some (StringValue (toLowerCase s)))
  else if (sortField =? "eventType")%string then
    Ok (Some (StringValue (toLowerCase (or_default (event_type e) ""))))
  else Ok None.

Definition list_comparator (sortField sortDirection : string) (a b : EventRecord)
  : result Z :=
  av <- sort_value_of sortField a ;;
  bv <- sort_value_of sortField b ;;
  match av, bv with
  | Some aValue, Some bValue =>
      if value_lt aValue bValue
      then Ok (if (sortDirection =? "asc")%string then -1 else 1)
      else if value_lt bValue aValue
      then Ok (if (sortDirection =? "asc")%string then 1 else -1)
      else Ok 0
  | _, _ => Ok 0
  end.

(** [[...events].sort(...)] *)
Definition sortedEvents (events : list EventRecord) (sortField sortDirection : string)
  : result (list EventRecord) :=
  Array_sort (list_comparator sortField sortDirection) events.

(** The sort fields the column headers select. *)
Definition selectable_fields : list string :=
  ["startDateTime"; "name"; "location"; "sport"; "age"; "gender"; "eventType"].

(** [handleSort(field)]: the new [sortField] and [sortDirection]. *)
Definition handleSort (sortField sortDirection field : string) : string * string :=
  if (sortField =? field)%string
  then (sortField, if (sortDirection =? "asc")%string then "desc" else "asc")
  else (field, "asc").

(** ** Calendar export ([utils/export.js]) *)

Definition hex_digit (n : N) : ascii :=
  if (n <? 10)%N then ascii_of_N (n + 48) else ascii_of_N (n + 55).

(** A byte that the form encoding leaves as it is. *)
Definition form_safe (c : ascii) : bool :=
  is_alpha c || is_digit c
  || (c =? "*")%char || (c =? "-")%char || (c =? ".")%char || (c =? "_")%char.

(** The [application/x-www-form-urlencoded] byte serialiser. *)
Fixpoint form_encode (s : string) : string :=
  match s with
  | EmptyString => EmptyString
  | String c r =>
      if form_safe c then String c (form_encode r)
      else if (c =? " ")%char then String "+" (form_encode r)
      else String "%" (String (hex_digit (N_of_ascii c / 16))
                         (String (hex_digit (N_of_ascii c mod 16)) (form_encode r)))
  end.

(** [new URLSearchParams(record).toString()] *)
Definition URLSearchParams_toString (params : list (string * string)) : string :=
  String.concat "&" (map (fun '(k, v) => form_encode k ++ "=" ++ form_encode v) params).

(** The description both exports compose.  In the source the line
    breaks are written [\\n] inside a template literal: a backslash and
    the letter n. *)
Definition describe (event : EventRecord) : string :=
  "Sport: " ++ or_default (sport event) "N/A"
  ++ "\nAge Group: " ++ or_default (age event) "N/A"
  ++ "\nGender: " ++ or_default (gender event) "N/A"
  ++ "\nEvent Type: " ++ or_default (event_type event) "N/A".

(** The query parameters of the calendar link.  [host] is the zone of
    the machine the code runs on; [userTimezone] is not read. *)
Definition googleCalendarParams (host : TimeZone) (event : EventRecord)
  : result (list (string * string)) :=
  s <- as_object (start_date event) ;;
  let startDate := remove_dashes s in
  let endDateObj := new_Date (end_date event) in
  let endDateObj := setDate host endDateObj (num_add (getDate host endDateObj) 1) in
  iso <- toISOString endDateObj ;;
  let endDate := remove_dashes (substr0 10 iso) in
  Ok [ ("action", "TEMPLATE");
       ("text", template (name event));
       ("dates", startDate ++ "/" ++ endDate);
       ("details", describe event);
       ("location", or_default (location event) "");
       ("sprop", "website:youth-sports-calendar") ].

Definition generateGoogleCalendarUrl (host : TimeZone) (event : EventRecord)
  (userTimezone : string) : string :=
  try_catch
    (params <- googleCalendarParams host event ;;
     Ok ("https://calendar.google.com/calendar/render?" ++ URLSearchParams_toString params))
    (fun _ => "#").

(** The attributes handed to the [ics] library. *)
Record IcsEvent : Type := mkIcsEvent {
  title : jsval;
  description : string;
  ics_location : string;
  ics_start : number * number * number;
  ics_end : number * number * number;
  status : string;
  uid : jsval;
  allDay : bool
}.

(** The [error] member of what the serialiser returns: absent, an error
    object of the library, or the message of a caught exception. *)
Inductive ics_error : Type :=
| NoError
| ErrorObject (message : string)
| ErrorMessage (message : string).

Record IcsReturn : Type := mkIcsReturn {
  error : ics_error;
  value : jsval
}.

(** Truthiness of [result.error]: an object is truthy, a message is
    truthy unless it is empty. *)
Definition error_truthy (e : ics_error) : bool :=
  match e with
  | NoError => false
  | ErrorObject _ => true
  | ErrorMessage m => nonempty m
  end.

(** [error.message] of a caught exception. *)
Definition exn_message (e : exn) : string :=
  match e with
  | TypeError => "TypeError"
  | RangeError => "RangeError"
  | LibraryError m => m
  end.

(** [string.match(/BEGIN:VEVENT[\s\S]*?END:VEVENT/)]: from the first
    [BEGIN:VEVENT] to the end of the first [END:VEVENT] after it. *)
Definition match_VEVENT (s : string) : option string :=
  match index 0 "BEGIN:VEVENT" s with
  | Some i =>
      match index (i + 12) "END:VEVENT" s with
      | Some j => Some (substring i (j + 10 - i) s)
      | None => None
      end
  | None => None
  end.

Inductive effect : Type :=
| Alert (message : string)
| Download (filename : string) (mime : string) (content : string).

Definition ics_header : string :=
  "BEGIN:VCALENDAR
VERSION:2.0
PRODID:-//Youth Sports Calendar//EN
CALSCALE:GREGORIAN
METHOD:PUBLISH
".

Definition newline : string := String (ascii_of_N 10) EmptyString.

Section ExportEngine.
(** The zone of the machine the code runs on. *)
Variable host : TimeZone.
(** [createEvent] of the [ics] library. *)
Variable createEvent : IcsEvent -> result IcsReturn.

Definition icsEvent_of (event : EventRecord) : IcsEvent :=
  let startDate := new_Date (start_date event) in
  let endDate := new_Date (end_date event) in
  let endDate := setDate host endDate (num_add (getDate host endDate) 1) in
  {| title := name event;
     description := describe event;
     ics_location := or_default (location event) "";
     ics_start := (getFullYear host startDate,
                   num_add (getMonth host startDate) 1,
                   getDate host startDate);
     ics_end := (getFullYear host endDate,
                 num_add (getMonth host endDate) 1,
                 getDate host endDate);
     status := "CONFIRMED";
     uid := id event;
     allDay := true |}.

Definition generateICSContent (event : EventRecord) (userTimezone : string)
  : IcsReturn :=
  try_catch
    (createEvent (icsEvent_of event))
    (fun e => {| error := ErrorMessage (exn_message e); value := JUndefined |}).

(** The body of [events.forEach] in [downloadMultipleEventsICS], on
    the pair of [icsContent] and [eventCount]. *)
Definition add_event (userTimezone : string) (state : string * Z) (event : EventRecord)
  : string * Z :=
  let '(icsContent, eventCount) := state in
  try_catch
    (let result := generateICSContent event userTimezone in
     if negb (error_truthy (error result)) then
       v <- as_object (value result) ;;
       match match_VEVENT v with
       | Some veventMatch => Ok (icsContent ++ veventMatch ++ newline, eventCount + 1)
       | None => Ok state
       end
     else Ok state)
    (fun _ => state).

Definition bulk_loop (events : list EventRecord) (userTimezone : string) : string * Z :=
  fold_left (add_event userTimezone) events (ics_header, 0).

Definition downloadMultipleEventsICS (events : list EventRecord) (userTimezone : string)
  : effect :=
  let '(icsContent, eventCount) := bulk_loop events userTimezone in
  if eventCount =? 0
  then Alert "Could not generate the .ics file. No valid events found."
  else Download "youth_sports_events.ics" "text/calendar;charset=utf-8"
                (icsContent ++ "END:VCALENDAR").
End ExportEngine.

(** ** Exhaustive checks over one 400-year era *)

(** [f] holds at [lo], [lo + 1], ..., [lo + n - 1]. *)
Fixpoint all_from (f : Z -> bool) (lo : Z) (n : nat) : bool :=
  match n with
  | O => true
  | S n' => if f lo then all_from f (lo + 1) n' else false
  end.

Definition march_shift (m : Z) : Z := if m <=? 2 then 1 else 0.

(** A day of the era maps to a calendar day that exists and that maps
    back to it. *)
Definition era_day_ok (doe : Z) : bool :=
  let '(yoe, m, d) := civil_of_doe doe in
  (doe_of_civil yoe m 1 + d - 1 =? doe)
  && (0 <=? yoe) && (yoe <? 400) && (1 <=? m) && (m <=? 12)
  && (1 <=? d) && (d <=? days_in_month (yoe + march_shift m) m).

Definition months : list Z := [1; 2; 3; 4; 5; 6; 7; 8; 9; 10; 11; 12].

(** Every calendar day of year [yoe] of the era maps to a day of the
    era that maps back to it. *)
Definition era_year_ok (yoe : Z) : bool :=
  forallb (fun m =>
    all_from (fun d =>
        let doe := doe_of_civil yoe m d in
        let '(yoe', m', d') := civil_of_doe doe in
        (0 <=? doe) && (doe <? 146097) && (yoe' =? yoe) && (m' =? m) && (d' =? d))
      1 (Z.to_nat (days_in_month (yoe + march_shift m) m)))
    months.

(** ** Notions used in the statements *)

(** [a] is ranked no later than [b]. *)
Definition ranked {A : Type} (rank : A -> A -> Z) (a b : A) : Prop := rank a b <= 0.

(** The rank of two strings as a [comparison]. *)
Definition collate (a b : string) : comparison :=
  match lex_compare (primary_key a) (primary_key b) with
  | Eq => lex_compare (tertiary_key a) (tertiary_key b)
  | c => c
  end.

(** The events that start on [day], in the order of the input. *)
Definition same_day_events (day : Date) (events : list EventRecord) : list EventRecord :=
  filter (fun event => isSameDay (parseISO (start_date event)) day) events.

(** The record carries a name. *)
Definition named (e : EventRecord) : Prop :=
  match name e with
  | JString _ => True
  | _ => False
  end.

(** [a] comes no later than [b] in the alphabet, case ignored. *)
Definition ci_ordered (a b : EventRecord) : Prop :=
  localeCompare (toLowerCase (template (name a))) (toLowerCase (template (name b))) <= 0.

Definition sample_event (title day : string) : EventRecord :=
  {| id := JString title; name := JString title; sport := JString "Soccer";
     start_date := JString day; end_date := JString day;
     location := JString "Boston, MA"; age := JString "U12"; gender := JString "Girls";
     event_type := JString "Tournament"; website := JNull |}.

Definition crowded_day : list EventRecord :=
  [ sample_event "Zeta" "2024-03-15"; sample_event "Alpha" "2024-03-15";
    sample_event "Elsewhere" "2024-03-16"; sample_event "Mid" "2024-03-15" ].

(** Two names that differ where one has a digit and the other a sign. *)
Definition elite_day : list EventRecord :=
  [ sample_event "Elite 8s" "2024-03-15"; sample_event "Elite @ Boston" "2024-03-15" ].

Definition crowded_week : list EventRecord :=
  [ sample_event "Zeta" "2024-03-15"; sample_event "alpha" "2024-03-15";
    sample_event "Elsewhere" "2024-03-16"; sample_event "Mid" "2024-03-15";
    sample_event "Alpha" "2024-03-15" ].

(** Two rows, the first of them without a location. *)
Definition rows_missing_location : list EventRecord :=
  [ {| id := JString "1"; name := JString "Spring Cup"; sport := JString "Soccer";
       start_date := JString "2024-03-15"; end_date := JString "2024-03-15";
       location := JNull; age := JString "U12"; gender := JString "Girls";
       event_type := JString "Tournament"; website := JNull |};
    sample_event "Summer Cup" "2024-06-01" ].

(** The same criteria without the date range. *)
Definition without_dateRange (filters : Filters.t) : Filters.t :=
  {| Filters.sport := Filters.sport filters;
     Filters.location := Filters.location filters;
     Filters.age := Filters.age filters;
     Filters.gender := Filters.gender filters;
     Filters.eventType := Filters.eventType filters;
     Filters.dateRange := {| Filters.start := None; Filters.end_ := None |} |}.

(** The callback's verdict when it completes with [true]. *)
Definition says_true (r : result bool) : bool :=
  match r with
  | Ok true => true
  | _ => false
  end.

Definition march_2024 : Filters.t :=
  {| Filters.sport := ""; Filters.location := ""; Filters.age := "";
     Filters.gender := ""; Filters.eventType := "";
     Filters.dateRange :=
       {| Filters.start := Some (new_Date (JString "2024-03-01"));
          Filters.end_ := Some (new_Date (JString "2024-03-31")) |} |}.

(** The calendar date a field value names, when it names one. *)
Definition date_text (v : jsval) : option (Z * Z * Z) :=
  match v with
  | JString s => parse_ymd s
  | _ => None
  end.

Definition weekday_of (y m d : Z) : string :=
  nth (Z.to_nat (WeekDay (days_from_civil y m d))) weekday_names "".

Definition month_abbr (m : Z) : string := nth (Z.to_nat (m - 1)) month_names "".

(** [<Weekday>, <Mon> <Day>, <Year>] *)
Definition long_date (y m d : Z) : string :=
  weekday_of y m d ++ ", " ++ month_abbr m ++ " " ++ decimal d ++ ", " ++ zero_pad 4 y.

(** [<Weekday short>, <Mon> <Day>] *)
Definition short_date (y m d : Z) : string :=
  substring 0 3 (weekday_of y m d) ++ ", " ++ month_abbr m ++ " " ++ decimal d.

(** The wall-clock time [t], set and read back in the zone, is still on
    its calendar day.  That is so of every time that exists in the zone
    (it is read back unchanged), and of a time that a clock change
    skips unless the skip runs across midnight. *)
Definition keeps_calendar_day (tz : TimeZone) (t : Z) : Prop :=
  Day (LocalTime tz (UTC tz t)) = Day t.

(** A calendar day as the three numbers handed to the serialiser. *)
Definition triple (c : Z * Z * Z) : number * number * number :=
  let '(y, m, d) := c in (Some y, Some m, Some d).

(** The value of the parameter [key]. *)
Fixpoint param (key : string) (params : list (string * string)) : option string :=
  match params with
  | [] => None
  | (k, v) :: rest => if (k =? key)%string then Some v else param key rest
  end.

Section Blocks.
Variable host : TimeZone.
Variable createEvent : IcsEvent -> result IcsReturn.

(** What the loop takes from an event: the match in the text that
    [generateICSContent] returns without an error, if there is one. *)
Definition vevent_block (event : EventRecord) (userTimezone : string) : option string :=
  let result := generateICSContent host createEvent event userTimezone in
  if error_truthy (error result) then None
  else match value result with
       | JString v => match_VEVENT v
       | _ => None
       end.

(** What the loop takes from the events, in the order of the input. *)
Definition vevent_blocks (events : list EventRecord) (userTimezone : string) : list string :=
  flat_map (fun event => match vevent_block event userTimezone with
                         | Some block => [block]
                         | None => []
                         end) events.
(** The library reports success for the event: [createEvent] returns,
    and the [error] of what it returns is falsy. *)
Definition reports_success (event : EventRecord) : bool :=
  match createEvent (icsEvent_of host event) with
  | Ok r => negb (error_truthy (error r))
  | Throw _ => false
  end.
End Blocks.

(** [block] is the part of [v] that the expression
    [/BEGIN:VEVENT[\s\S]*?END:VEVENT/] matches: it begins where
    [BEGIN:VEVENT] stands first in [v] and runs to the end of the first
    [END:VEVENT] after that. *)
Definition first_block (v block : string) : Prop :=
  exists i j : nat,
    substring i 12 v = "BEGIN:VEVENT"
    /\ (forall p, (p < i)%nat -> substring p 12 v <> "BEGIN:VEVENT")
    /\ (i + 12 <= j)%nat
    /\ substring j 10 v = "END:VEVENT"
    /\ (forall p, (i + 12 <= p)%nat -> (p < j)%nat -> substring p 10 v <> "END:VEVENT")
    /\ block = substring i (j + 10 - i) v.

(** Every block followed by a line feed. *)
Definition block_lines (blocks : list string) : string :=
  String.concat "" (map (fun block => block ++ newline) blocks).

(** [YYYYMMDD] *)
Definition yyyymmdd (c : Z * Z * Z) : string :=
  let '(y, m, d) := c in digits 4 y ++ digits 2 m ++ digits 2 d.

Definition crlf : string := String (ascii_of_N 13) (String (ascii_of_N 10) EmptyString).

(** A serialiser to try the export with: it refuses an event whose
    dates hold a NaN, and otherwise writes a calendar with one block.
    It stands for no release of the library, whose [createEvent] is a
    parameter of the export throughout; a release that checks the keys
    of the event would refuse every event of [icsEvent_of]. *)
Definition strict_createEvent (e : IcsEvent) : result IcsReturn :=
  match ics_start e, ics_end e with
  | (Some y, Some m, Some d), (Some y', Some m', Some d') =>
      Ok {| error := NoError;
            value := JString ("BEGIN:VCALENDAR" ++ crlf ++ "VERSION:2.0" ++ crlf
                              ++ "BEGIN:VEVENT" ++ crlf
                              ++ "SUMMARY:" ++ template (title e) ++ crlf
                              ++ "DTSTART;VALUE=DATE:" ++ yyyymmdd (y, m, d) ++ crlf
                              ++ "DTEND;VALUE=DATE:" ++ yyyymmdd (y', m', d') ++ crlf
                              ++ "END:VEVENT" ++ crlf
                              ++ "END:VCALENDAR" ++ crlf) |}
  | _, _ => Ok {| error := ErrorObject "ValidationError"; value := JNull |}
  end.

Definition three_events : list EventRecord :=
  [ sample_event "Spring Cup" "2024-03-15"; sample_event "Summer Cup" "soon";
    sample_event "Autumn Cup" "2024-10-05" ].

(** ** Further notions *)

(** ** Filter controls ([components/FiltersBar.js]) *)

(** The criteria [clearAllFilters] sets, which are also the initial
    state in [App.js]. *)
Definition clearAllFilters : Filters.t :=
  {| Filters.sport := ""; Filters.location := ""; Filters.age := "";
     Filters.gender := ""; Filters.eventType := "";
     Filters.dateRange := {| Filters.start := None; Filters.end_ := None |} |}.

(** [hasActiveFilters]: [Object.values(filters).some(...)], where the
    one object among the values is the date range. *)
Definition hasActiveFilters (filters : Filters.t) : bool :=
  existsb (fun value => nonempty value)
    [Filters.sport filters; Filters.location filters; Filters.age filters;
     Filters.gender filters; Filters.eventType filters]
  || (is_set (Filters.start (Filters.dateRange filters))
      || is_set (Filters.end_ (Filters.dateRange filters))).

(** [kept] is [all] with some elements left out, the others in place. *)
Inductive kept_in_order {A : Type} : list A -> list A -> Prop :=
| kept_nil : kept_in_order [] []
| kept_keep (x : A) (kept all : list A) :
    kept_in_order kept all -> kept_in_order (x :: kept) (x :: all)
| kept_drop (x : A) (kept all : list A) :
    kept_in_order kept all -> kept_in_order kept (x :: all).

(** Criteria with a date range only. *)
Definition range_only (lo hi : option Date) : Filters.t :=
  {| Filters.sport := ""; Filters.location := ""; Filters.age := "";
     Filters.gender := ""; Filters.eventType := "";
     Filters.dateRange := {| Filters.start := lo; Filters.end_ := hi |} |}.

Definition soccer_only : Filters.t :=
  {| Filters.sport := "Soccer"; Filters.location := "bos"; Filters.age := "";
     Filters.gender := ""; Filters.eventType := "";
     Filters.dateRange := {| Filters.start := Some (new_Date (JString "2024-03-01"));
                             Filters.end_ := None |} |}.

Definition undated_event : EventRecord :=
  {| id := JString "9"; name := JString "Winter Cup"; sport := JString "Hockey";
     start_date := JNull; end_date := JNull;
     location := JString "Buffalo, NY"; age := JNull; gender := JNull;
     event_type := JNull; website := JNull |}.

(** [SameValueZero] on field values, the equality of a [Set]. *)
Definition same_value (a b : jsval) : bool :=
  match a, b with
  | JUndefined, JUndefined => true
  | JNull, JNull => true
  | JString x, JString y => (x =? y)%string
  | _, _ => false
  end.

(** [[...new Set(array)]]: each value once, where it first occurs.
    [seen] holds the values met so far. *)
Fixpoint Set_values (seen array : list jsval) : list jsval :=
  match array with
  | [] => []
  | v :: rest =>
      if existsb (same_value v) seen then Set_values seen rest
      else v :: Set_values (v :: seen) rest
  end.

(** The comparison of [array.sort()] without a comparator: [undefined]
    goes last, the other values are compared as strings, by code units. *)
Definition default_compare (x y : jsval) : result Z :=
  match x, y with
  | JUndefined, JUndefined => Ok 0
  | JUndefined, _ => Ok 1
  | _, JUndefined => Ok (-1)
  | _, _ =>
      if string_lt (template x) (template y) then Ok (-1)
      else if string_lt (template y) (template x) then Ok 1
      else Ok 0
  end.

(** [[...new Set(events.map(e => e.field))].filter(Boolean).sort()]: the
    options of a dropdown. *)
Definition dropdown_options (field : EventRecord -> jsval) (events : list EventRecord)
  : result (list jsval) :=
  Array_sort default_compare (filter truthy (Set_values [] (map field events))).

Definition sports (events : list EventRecord) := dropdown_options sport events.
Definition ages (events : list EventRecord) := dropdown_options age events.
Definition genders (events : list EventRecord) := dropdown_options gender events.
Definition eventTypes (events : list EventRecord) := dropdown_options event_type events.

(** [updateFilter(key, value)] for a text criterion: [{...prev, [key]:
    value}].  A key that names no criterion leaves them all as they
    are. *)
Definition updateFilter (prev : Filters.t) (key value : string) : Filters.t :=
  {| Filters.sport := if (key =? "sport")%string then value else Filters.sport prev;
     Filters.location := if (key =? "location")%string then value else Filters.location prev;
     Filters.age := if (key =? "age")%string then value else Filters.age prev;
     Filters.gender := if (key =? "gender")%string then value else Filters.gender prev;
     Filters.eventType :=
       if (key =? "eventType")%string then value else Filters.eventType prev;
     Filters.dateRange := Filters.dateRange prev |}.

(** The code units of a string. *)
Definition code_units (s : string) : list N := map N_of_ascii (list_ascii_of_string s).

(** [a] sorts strictly before [b] as a string. *)
Definition text_before (a b : jsval) : Prop := string_lt (template a) (template b) = true.

(** The time value of a record's start, 0 when it has none. *)
Definition start_time (e : EventRecord) : Z :=
  match new_Date (start_date e) with
  | Some t => t
  | None => 0
  end.

(** The record's start makes a date. *)
Definition dated (e : EventRecord) : Prop := new_Date (start_date e) <> NaN.

(** The field of a record that a text column shows. *)
Definition field_value (field : string) (e : EventRecord) : jsval :=
  if (field =? "name")%string then name e
  else if (field =? "sport")%string then sport e
  else if (field =? "location")%string then location e
  else if (field =? "age")%string then age e
  else if (field =? "gender")%string then gender e
  else if (field =? "eventType")%string then event_type e
  else JUndefined.

(** The text a row is ranked by under a text column: the field in lower
    case, [''] for a missing one. *)
Definition sort_text (field : string) (e : EventRecord) : string :=
  toLowerCase (or_default (field_value field e) "").

(** The column can rank the row: the field is there, or the column is
    the event type, which allows for a missing one. *)
Definition rankable (field : string) (e : EventRecord) : Prop :=
  field = "eventType" \/ exists s, field_value field e = JString s.

(** [x] comes no later than [y] in code-unit order. *)
Definition no_later (x y : string) : Prop := String.compare x y <> Gt.

Definition three_rows : list EventRecord :=
  [ sample_event "Summer Cup" "2024-06-01"; undated_event;
    sample_event "Spring Cup" "2024-03-15" ].

Definition text_fields : list string :=
  ["name"; "sport"; "location"; "age"; "gender"; "eventType"].

(** The seven days of the week that starts on day [sunday]. *)
Definition week_days (sunday : Z) : list Date :=
  map (fun i => Some ((sunday + i) * msPerDay)) seven.

(** The days of [n] weeks in a row from day [sunday], a week a row. *)
Fixpoint grid_days (n : nat) (sunday : Z) : list (list Date) :=
  match n with
  | O => []
  | S n' => week_days sunday :: grid_days n' (sunday + 7)
  end.

(** [a >= b] on numbers. *)
Definition num_ge (a b : number) : bool := num_le b a.

(** [(a, b) => a.start_date.localeCompare(b.start_date)] *)
Definition compare_start_dates (a b : EventRecord) : result Z :=
  sa <- as_object (start_date a) ;;
  Ok (localeCompare sa (template (start_date b))).

Definition period_start (view : string) (currentDate : Date) : Date :=
  if (view =? "month")%string then startOfMonth currentDate
  else if (view =? "week")%string then startOfWeek currentDate
  else currentDate.

Definition period_end (view : string) (currentDate : Date) : Date :=
  if (view =? "month")%string then endOfMonth currentDate
  else if (view =? "week")%string then endOfWeek currentDate
  else currentDate.

(** The test of the small-screen list: the event starts within the
    period on show. *)
Definition in_period (view : string) (currentDate : Date) (event : EventRecord) : bool :=
  let eventDate := parseISO (start_date event) in
  let start := period_start view currentDate in
  let end_ := period_end view currentDate in
  num_ge eventDate start && num_le eventDate end_.

(** [allEventsInPeriod], the list a small screen shows in place of a
    calendar view. *)
Definition allEventsInPeriod (view : string) (events : list EventRecord)
    (currentDate : Date) : result (list EventRecord) :=
  Array_sort compare_start_dates (filter (in_period view currentDate) events).

(** [a]'s start date reads no later than [b]'s. *)
Definition start_ordered (a b : EventRecord) : Prop :=
  localeCompare (template (start_date a)) (template (start_date b)) <= 0.

(** A character that the form encoding can put out. *)
Definition query_char (c : ascii) : bool :=
  form_safe c || (c =? "+")%char || (c =? "%")%char.

(** The link with its four variable parts, each already encoded. *)
Definition calendar_link (text dates details location : string) : string :=
  "https://calendar.google.com/calendar/render?action=TEMPLATE&text=" ++ text
  ++ "&dates=" ++ dates ++ "&details=" ++ details ++ "&location=" ++ location
  ++ "&sprop=website%3Ayouth-sports-calendar".

(** [name.replace(/[^a-z0-9]/gi, '_')] *)
Definition replace_non_alnum (s : string) : string :=
  string_map (fun c => if is_alpha c || is_digit c then c else "_"%char) s.

(** A character of a sanitised file name. *)
Definition filename_char (c : ascii) : bool :=
  let n := N_of_ascii c in
  ((97 <=? n) && (n <=? 122) || (48 <=? n) && (n <=? 57) || (n =? 95))%N.

(** [downloadICSFile]: what the user gets.  [new Blob([value])] takes
    the text of the value. *)
Definition downloadICSFile (host : TimeZone) (createEvent : IcsEvent -> result IcsReturn)
    (event : EventRecord) (userTimezone : string) : effect :=
  try_catch
    (let result := generateICSContent host createEvent event userTimezone in
     if error_truthy (error result)
     then Ok (Alert "Could not generate the .ics file. The event data might be incomplete or invalid.")
     else
       let blob := template (value result) in
       n <- as_object (name event) ;;
       Ok (Download (toLowerCase (replace_non_alnum n) ++ ".ics")
                    "text/calendar;charset=utf-8" blob))
    (fun _ => Alert "An unexpected error occurred. Please check the console for more details.").

(** An event that ends on no date. *)
Definition open_ended (title day : string) (end_ : jsval) : EventRecord :=
  {| id := JString title; name := JString title; sport := JString "Soccer";
     start_date := JString day; end_date := end_;
     location := JString "Boston, MA"; age := JString "U12"; gender := JString "Girls";
     event_type := JString "Tournament"; website := JNull |}.

(** [<Mon> <Day>, <Year>] *)
Definition medium_date (y m d : Z) : string :=
  month_abbr m ++ " " ++ decimal d ++ ", " ++ zero_pad 4 y.

(** The two date cells of a row of the table ([ListView.js]). *)
Definition row_dates (event : EventRecord) : result (string * string) :=
  startText <- format (parseISO (start_date event)) "MMM d, yyyy" ;;
  endText <- format (parseISO (end_date event)) "MMM d, yyyy" ;;
  Ok (startText, endText).

(** [a !== b] on field values. *)
Definition differs (a b : jsval) : bool :=
  match a, b with
  | JUndefined, JUndefined | JNull, JNull => false
  | JString x, JString y => negb (x =? y)%string
  | _, _ => true
  end.

(** What the row's template holds between the two dates: the three
    characters that an en dash turns into when its bytes are read in a
    one-byte encoding.  The row prints them as they are. *)
Definition period_separator : string := "â€“".

(** The date line of a row of the small-screen list ([CalendarGrid]). *)
Definition period_row_date (event : EventRecord) : result string :=
  if truthy (end_date event) && differs (end_date event) (start_date event)
  then
    startText <- format (parseISO (start_date event)) "MMM d, yyyy" ;;
    endText <- format (parseISO (end_date event)) "MMM d, yyyy" ;;
    Ok (startText ++ " " ++ period_separator ++ " " ++ endText)
  else format (parseISO (start_date event)) "MMM d, yyyy".

(** [d.getDay()] *)
Definition getDay (tz : TimeZone) (d : Date) : number :=
  match d with
  | Some t => Some (WeekDay (Day (LocalTime tz t)))
  | None => NaN
  end.

(** [a - b] on numbers. *)
Definition num_sub (a b : number) : number :=
  match a, b with
  | Some x, Some y => Some (x - y)
  | _, _ => NaN
  end.

(** [d.setMonth(month)]: the new time value of [d]. *)
Definition setMonth (tz : TimeZone) (d : Date) (month : number) : Date :=
  match d, month with
  | Some t0, Some mo =>
      let t := LocalTime tz t0 in
      let newDate := MakeDate (MakeDay (YearFromTime t) mo (DateFromTime t))
                              (TimeWithinDay t) in
      TimeClip (UTC tz newDate)
  | _, _ => NaN
  end.

(** [navigateDate(direction)] of [App.js]: the new [currentDate]. *)
Definition navigateDate (host : TimeZone) (currentView : string) (currentDate : Date)
    (direction : Z) : Date :=
  let newDate := currentDate in
  if (currentView =? "month")%string
  then setMonth host newDate (num_add (getMonth host newDate) direction)
  else if (currentView =? "week")%string
  then setDate host newDate (num_add (getDate host newDate) (direction * 7))
  else if (currentView =? "day")%string
  then setDate host newDate (num_add (getDate host newDate) direction)
  else newDate.

(** The wall-clock reading of a date on the host, which is what
    date-fns works on. *)
Definition wall_clock (host : TimeZone) (d : Date) : Date :=
  match d with
  | Some t => Some (LocalTime host t)
  | None => NaN
  end.

(** The title of the week view ([formatTitle] of [CalendarNav.js], case
    ['week']). *)
Definition formatTitle_week (host : TimeZone) (currentDate : Date) : result string :=
  let weekStart := currentDate in
  let weekStart :=
    setDate host weekStart (num_sub (getDate host currentDate) (getDay host currentDate)) in
  let weekEnd := weekStart in
  let weekEnd := setDate host weekEnd (num_add (getDate host weekStart) 6) in
  a <- format (wall_clock host weekStart) "MMM d" ;;
  b <- format (wall_clock host weekEnd) "MMM d, yyyy" ;;
  Ok (a ++ " - " ++ b).

(** The largest time value of a [Date]. *)
Definition maxTime : Z := 8640000000000000.

(** A bound of the date range as a date box sets it:
    [e.target.value ? new Date(e.target.value) : null]. *)
Definition date_input_change (value : string) : option Date :=
  if nonempty value then Some (new_Date (JString value)) else None.

(** The text a date box shows for a bound:
    [bound ? bound.toISOString().split('T')[0] : '']. *)
Definition date_input_value (bound : option Date) : result string :=
  match bound with
  | Some date => iso <- toISOString date ;; Ok (before_first "T" iso)
  | None => Ok ""
  end.

(** * Facts *)

(** ** Calendar arithmetic *)

Lemma all_from_spec (f : Z -> bool) (n : nat) :
  forall lo, all_from f lo n = true ->
  forall k, lo <= k < lo + Z.of_nat n -> f k = true.
Proof.
  induction n as [|n IH]; intros lo H k Hk.
  - simpl in Hk. lia.
  - simpl in H. destruct (f lo) eqn:Hlo; [|discriminate].
    destruct (Z.eq_dec k lo) as [->|Hne]; [assumption|].
    apply (IH (lo + 1) H). lia.
Qed.

Lemma era_days_checked : all_from era_day_ok 0 (Z.to_nat 146097) = true.
Proof. vm_cast_no_check (eq_refl true). Qed.

Lemma era_years_checked : all_from era_year_ok 0 (Z.to_nat 400) = true.
Proof. vm_cast_no_check (eq_refl true). Qed.

Lemma civil_of_doe_spec (doe : Z) :
  0 <= doe < 146097 ->
  forall yoe m d, civil_of_doe doe = (yoe, m, d) ->
  doe_of_civil yoe m 1 + d - 1 = doe /\ 0 <= yoe < 400 /\ 1 <= m <= 12
  /\ 1 <= d <= days_in_month (yoe + march_shift m) m.
Proof.
  intros Hdoe yoe m d E.
  pose proof (all_from_spec _ _ _ era_days_checked doe) as H.
  rewrite Z2Nat.id in H by lia. specialize (H ltac:(lia)).
  unfold era_day_ok in H. rewrite E in H.
  repeat rewrite andb_true_iff in H. lia.
Qed.

Lemma doe_of_civil_day (yoe m d : Z) :
  doe_of_civil yoe m d = doe_of_civil yoe m 1 + d - 1.
Proof. unfold doe_of_civil. lia. Qed.

Lemma era_split (z : Z) :
  0 <= z - z / 146097 * 146097 < 146097.
Proof. pose proof (Z.div_mod z 146097 ltac:(lia)). pose proof (Z.mod_pos_bound z 146097 ltac:(lia)). lia. Qed.

Lemma div_era (era r n : Z) : 0 < n -> 0 <= r < n -> (r + era * n) / n = era.
Proof. intros Hn Hr. rewrite Z.div_add by lia. rewrite Z.div_small by lia. lia. Qed.

(** A day number is the first of its month plus its day of month. *)
Lemma days_from_civil_from_days (z : Z) :
  forall y m d, civil_from_days z = (y, m, d) ->
  days_from_civil y m 1 + d - 1 = z /\ 1 <= m <= 12 /\ 1 <= d <= days_in_month y m.
Proof.
  intros y m d. unfold civil_from_days.
  set (era := (z + 719468) / 146097).
  pose proof (era_split (z + 719468)) as Hr. fold era in Hr.
  destruct (civil_of_doe (z + 719468 - era * 146097)) as [[yoe m'] d'] eqn:E.
  intros H. injection H as <- <- <-.
  destruct (civil_of_doe_spec _ Hr _ _ _ E) as (Hd & Hy & Hm & Hdim).
  assert (Hleap : days_in_month (yoe + era * 400 + march_shift m') m'
                  = days_in_month (yoe + march_shift m') m').
  { unfold days_in_month, is_leap.
    replace (yoe + era * 400 + march_shift m') with (yoe + march_shift m' + era * 100 * 4) by lia.
    rewrite Z.mod_add by lia.
    replace (yoe + march_shift m' + era * 100 * 4) with (yoe + march_shift m' + era * 4 * 100) by lia.
    rewrite Z.mod_add by lia.
    replace (yoe + march_shift m' + era * 4 * 100) with (yoe + march_shift m' + era * 400) by lia.
    rewrite Z.mod_add by lia. reflexivity. }
  fold (march_shift m'). rewrite Hleap. split; [|split; assumption].
  unfold days_from_civil.
  assert (Hy' : (if m' <=? 2 then yoe + era * 400 + march_shift m' - 1
                 else yoe + era * 400 + march_shift m') = yoe + era * 400).
  { unfold march_shift. destruct (m' <=? 2); lia. }
  rewrite Hy'. rewrite (div_era era yoe 400) by lia.
  replace (yoe + era * 400 - era * 400) with yoe by lia. lia.
Qed.

Lemma is_leap_era (y era : Z) : is_leap (y + era * 400) = is_leap y.
Proof.
  unfold is_leap.
  replace (y + era * 400) with (y + era * 100 * 4) by lia.
  rewrite Z.mod_add by lia.
  replace (y + era * 100 * 4) with (y + era * 4 * 100) by lia.
  rewrite Z.mod_add by lia.
  replace (y + era * 4 * 100) with (y + era * 400) by lia.
  rewrite Z.mod_add by lia. reflexivity.
Qed.

(** A calendar day that exists lies within its era and is read back
    from its day of the era. *)
Lemma era_year_spec (y m d : Z) :
  1 <= m <= 12 -> 1 <= d <= days_in_month y m ->
  let y' := if m <=? 2 then y - 1 else y in
  let era := y' / 400 in
  let doe := doe_of_civil (y' - era * 400) m d in
  0 <= doe < 146097
  /\ civil_of_doe doe = (y' - era * 400, m, d)
  /\ y = y' - era * 400 + era * 400 + march_shift m.
Proof.
  intros Hm Hd y' era doe.
  assert (Hy : y = y' - era * 400 + era * 400 + march_shift m).
  { unfold y', march_shift. destruct (m <=? 2); lia. }
  assert (Hyoe : 0 <= y' - era * 400 < 400).
  { unfold era. pose proof (Z.div_mod y' 400 ltac:(lia)).
    pose proof (Z.mod_pos_bound y' 400 ltac:(lia)). lia. }
  unfold doe. set (yoe := y' - era * 400) in *.
  pose proof (all_from_spec _ _ _ era_years_checked yoe) as H.
  rewrite Z2Nat.id in H by lia. specialize (H ltac:(lia)).
  unfold era_year_ok in H. rewrite forallb_forall in H.
  assert (Hin : In m months).
  { unfold months. simpl.
    assert (m = 1 \/ m = 2 \/ m = 3 \/ m = 4 \/ m = 5 \/ m = 6 \/ m = 7 \/ m = 8
            \/ m = 9 \/ m = 10 \/ m = 11 \/ m = 12) by lia.
    intuition auto. }
  specialize (H m Hin).
  assert (Hdim : days_in_month y m = days_in_month (yoe + march_shift m) m).
  { unfold days_in_month. rewrite Hy.
    replace (yoe + era * 400 + march_shift m) with (yoe + march_shift m + era * 400) by lia.
    rewrite is_leap_era. reflexivity. }
  pose proof (all_from_spec _ _ _ H d) as Hc.
  rewrite Z2Nat.id in Hc by lia.
  specialize (Hc ltac:(lia)). cbv beta in Hc.
  destruct (civil_of_doe (doe_of_civil yoe m d)) as [[yoe' m'] d'] eqn:E.
  repeat rewrite andb_true_iff in Hc.
  destruct Hc as ((((Hlo & Hhi) & Ey) & Em) & Ed).
  apply Z.eqb_eq in Ey, Em, Ed. subst yoe' m' d'.
  split; [lia|]. split; [reflexivity|exact Hy].
Qed.

(** The day number of a calendar day that exists names that day. *)
Lemma civil_from_days_from_civil (y m d : Z) :
  1 <= m <= 12 -> 1 <= d <= days_in_month y m ->
  civil_from_days (days_from_civil y m d) = (y, m, d).
Proof.
  intros Hm Hd. destruct (era_year_spec y m d Hm Hd) as (Hdoe & Hciv & Hy).
  unfold days_from_civil, civil_from_days.
  set (y' := if m <=? 2 then y - 1 else y) in *.
  set (era := y' / 400) in *.
  set (doe := doe_of_civil (y' - era * 400) m d) in *.
  replace (era * 146097 + doe - 719468 + 719468) with (doe + era * 146097) by lia.
  rewrite (div_era era doe 146097) by lia.
  replace (doe + era * 146097 - era * 146097) with doe by lia.
  rewrite Hciv. fold (march_shift m). do 2 f_equal. lia.
Qed.

(** Day numbers of the years 0000 to 9999. *)
Lemma days_from_civil_bounds (y m d : Z) :
  1 <= m <= 12 -> 1 <= d <= days_in_month y m -> 0 <= y <= 9999 ->
  -1000000 <= days_from_civil y m d <= 3000000.
Proof.
  intros Hm Hd Hy. destruct (era_year_spec y m d Hm Hd) as (Hdoe & _ & _).
  unfold days_from_civil.
  set (y' := if m <=? 2 then y - 1 else y) in *.
  assert (Hy' : -1 <= y' <= 9999) by (unfold y'; destruct (m <=? 2); lia).
  assert (Hera : -1 <= y' / 400 <= 24).
  { split; [apply Z.div_le_lower_bound; lia|].
    apply Z.lt_succ_r. apply Z.div_lt_upper_bound; lia. }
  lia.
Qed.

(** ** Strings *)

Lemma lower_char_idem (c : ascii) : lower_char (lower_char c) = lower_char c.
Proof. destruct c as [[] [] [] [] [] [] [] []]; reflexivity. Qed.

Lemma lower_char_not_upper (c : ascii) : is_upper (lower_char c) = false.
Proof. destruct c as [[] [] [] [] [] [] [] []]; reflexivity. Qed.

Lemma toLowerCase_idem (s : string) : toLowerCase (toLowerCase s) = toLowerCase s.
Proof. induction s as [|c s IH]; simpl; [|rewrite lower_char_idem, IH]; reflexivity. Qed.

Lemma trimStart_blank (s : string) :
  string_forallb is_white s = true -> trimStart s = "".
Proof.
  induction s as [|c s IH]; simpl; [reflexivity|].
  intros H. apply andb_true_iff in H as [Hc Hs]. rewrite Hc. auto.
Qed.

(** Trimming a string of white space leaves nothing. *)
Lemma trim_blank (s : string) : string_forallb is_white s = true -> trim s = "".
Proof. intros H. unfold trim. rewrite (trimStart_blank s H). reflexivity. Qed.

(** ** Collation *)

Lemma lex_compare_refl (a : list N) : lex_compare a a = Eq.
Proof. induction a as [|x a IH]; simpl; [|rewrite N.compare_refl]; auto. Qed.

Lemma lex_compare_eq (a : list N) : forall b, lex_compare a b = Eq -> a = b.
Proof.
  induction a as [|x a IH]; intros [|y b]; simpl; try discriminate; auto.
  destruct (x ?= y)%N eqn:E; try discriminate.
  intros H. apply N.compare_eq in E. f_equal; auto.
Qed.

Lemma lex_compare_antisym (a : list N) :
  forall b, lex_compare b a = CompOpp (lex_compare a b).
Proof.
  induction a as [|x a IH]; intros [|y b]; simpl; auto.
  rewrite (N.compare_antisym x y). destruct (x ?= y)%N; simpl; auto.
Qed.

Lemma lex_compare_trans (a : list N) :
  forall b c, lex_compare a b = Lt -> lex_compare b c = Lt -> lex_compare a c = Lt.
Proof.
  induction a as [|x a IH]; intros [|y b] [|z c]; simpl; try discriminate; auto.
  destruct (x ?= y)%N eqn:Exy; try discriminate;
    destruct (y ?= z)%N eqn:Eyz; try discriminate; intros H1 H2.
  - apply N.compare_eq in Exy, Eyz. subst. rewrite N.compare_refl. eauto.
  - apply N.compare_eq in Exy. subst. rewrite Eyz. reflexivity.
  - apply N.compare_eq in Eyz. subst. rewrite Exy. reflexivity.
  - assert ((x ?= z)%N = Lt) as ->; [|reflexivity].
    rewrite N.compare_lt_iff in *. lia.
Qed.

Lemma localeCompare_collate (a b : string) : localeCompare a b = sign_of (collate a b).
Proof. unfold localeCompare, collate. destruct (lex_compare (primary_key a) _); reflexivity. Qed.

Lemma collate_antisym (a b : string) : collate b a = CompOpp (collate a b).
Proof.
  unfold collate. rewrite (lex_compare_antisym (primary_key a) (primary_key b)).
  destruct (lex_compare (primary_key a) (primary_key b)); simpl; auto.
  apply lex_compare_antisym.
Qed.

Lemma collate_trans (a b c : string) :
  collate a b = Lt -> collate b c = Lt -> collate a c = Lt.
Proof.
  unfold collate.
  destruct (lex_compare (primary_key a) (primary_key b)) eqn:Eab; try discriminate;
    destruct (lex_compare (primary_key b) (primary_key c)) eqn:Ebc; try discriminate;
    intros H1 H2.
  - apply lex_compare_eq in Eab, Ebc. rewrite Eab, Ebc, lex_compare_refl.
    eapply lex_compare_trans; eauto.
  - apply lex_compare_eq in Eab. rewrite Eab, Ebc. reflexivity.
  - apply lex_compare_eq in Ebc. rewrite <- Ebc, Eab. reflexivity.
  - rewrite (lex_compare_trans _ _ _ Eab Ebc). reflexivity.
Qed.

Lemma collate_eq_trans_l (a b c : string) :
  collate a b = Eq -> collate a c = collate b c.
Proof.
  unfold collate.
  destruct (lex_compare (primary_key a) (primary_key b)) eqn:Eab; try discriminate.
  intros H. apply lex_compare_eq in Eab, H. rewrite Eab, H. reflexivity.
Qed.

(** [localeCompare] is a consistent comparator. *)
Lemma localeCompare_antisym (a b : string) : localeCompare b a = - localeCompare a b.
Proof.
  rewrite !localeCompare_collate, collate_antisym. destruct (collate a b); reflexivity.
Qed.

Lemma localeCompare_le_trans (a b c : string) :
  localeCompare a b <= 0 -> localeCompare b c <= 0 -> localeCompare a c <= 0.
Proof.
  rewrite !localeCompare_collate.
  destruct (collate a b) eqn:Eab; simpl; try lia; intros _;
    destruct (collate b c) eqn:Ebc; simpl; try lia; intros _.
  - rewrite (collate_eq_trans_l _ _ _ Eab), Ebc. simpl. lia.
  - rewrite (collate_eq_trans_l _ _ _ Eab), Ebc. simpl. lia.
  - pose proof (collate_antisym b c) as H. rewrite Ebc in H. simpl in H.
    pose proof (collate_antisym a c) as H'.
    rewrite (collate_eq_trans_l _ _ _ H) in H'.
    rewrite collate_antisym, Eab in H'. simpl in H'.
    destruct (collate a c); simpl in *; try discriminate; lia.
  - rewrite (collate_trans _ _ _ Eab Ebc). simpl. lia.
Qed.

Lemma primary_weight_lower (c : ascii) : primary_weight (lower_char c) = primary_weight c.
Proof. unfold primary_weight. rewrite lower_char_idem. reflexivity. Qed.

Lemma primary_key_lower (s : string) : primary_key (toLowerCase s) = primary_key s.
Proof.
  unfold primary_key. induction s as [|c s IH]; [reflexivity|].
  cbn [toLowerCase list_ascii_of_string flat_map].
  rewrite primary_weight_lower. f_equal. exact IH.
Qed.

(** In lower case every tertiary weight is the low one. *)
Lemma tertiary_key_lower_case (s : string) :
  tertiary_key (toLowerCase s) = map (fun _ => 0%N) (primary_key s).
Proof.
  unfold primary_key, tertiary_key. induction s as [|c s IH]; [reflexivity|].
  cbn [toLowerCase list_ascii_of_string flat_map].
  rewrite primary_weight_lower, lower_char_not_upper, map_app, IH.
  destruct (primary_weight c); reflexivity.
Qed.

Lemma tertiary_key_lower (a : string) :
  forall b, primary_key a = primary_key b ->
  tertiary_key (toLowerCase a) = tertiary_key (toLowerCase b).
Proof. intros b H. rewrite !tertiary_key_lower_case, H. reflexivity. Qed.

(** Case never outranks the letters: strings in collation order are in
    order with case ignored. *)
Lemma localeCompare_ignoring_case (a b : string) :
  localeCompare a b <= 0 -> localeCompare (toLowerCase a) (toLowerCase b) <= 0.
Proof.
  unfold localeCompare. rewrite !primary_key_lower.
  destruct (lex_compare (primary_key a) (primary_key b)) eqn:E; simpl; try lia.
  intros _. apply lex_compare_eq in E.
  rewrite (tertiary_key_lower a b E), lex_compare_refl. simpl. lia.
Qed.

(** ** Sorting *)

Section SortFacts.
Context {A : Type}.
Variable comparefn : A -> A -> result Z.

Lemma sort_insert_perm (x : A) (sorted : list A) :
  forall r, sort_insert comparefn x sorted = Ok r -> Permutation (x :: sorted) r.
Proof.
  induction sorted as [|y ys IH]; simpl; intros r H.
  - injection H as <-. apply Permutation_refl.
  - destruct (comparefn x y) as [order|]; simpl in H; [|discriminate].
    destruct (order >? 0).
    + destruct (sort_insert comparefn x ys) as [r'|]; simpl in H; [|discriminate].
      injection H as <-.
      eapply perm_trans; [apply perm_swap|]. apply perm_skip. auto.
    + injection H as <-. apply Permutation_refl.
Qed.

(** Sorting rearranges: nothing is added, lost or duplicated. *)
Lemma Array_sort_perm (array : list A) :
  forall r, Array_sort comparefn array = Ok r -> Permutation array r.
Proof.
  induction array as [|x xs IH]; simpl; intros r H.
  - injection H as <-. constructor.
  - destruct (Array_sort comparefn xs) as [s|]; simpl in H; [|discriminate].
    eapply perm_trans; [apply perm_skip, IH; reflexivity|].
    apply sort_insert_perm. exact H.
Qed.

(** The comparator is a pure, consistent ranking [rank] on the
    elements that satisfy [P]. *)
Variable P : A -> Prop.
Variable rank : A -> A -> Z.
Hypothesis comparefn_rank : forall a b, P a -> P b -> comparefn a b = Ok (rank a b).
Hypothesis rank_total : forall a b, 0 < rank a b -> rank b a <= 0.
Hypothesis rank_trans : forall a b c, rank a b <= 0 -> rank b c <= 0 -> rank a c <= 0.


Lemma sort_insert_sorted (x : A) (sorted : list A) :
  P x -> Forall P sorted -> StronglySorted (ranked rank) sorted ->
  exists r, sort_insert comparefn x sorted = Ok r /\ StronglySorted (ranked rank) r
            /\ Forall P r.
Proof.
  intros Px. induction sorted as [|y ys IH]; intros HP Hs; simpl.
  - eexists. split; [reflexivity|]. split; repeat constructor. exact Px.
  - inversion HP as [|? ? Py HPys]; subst. inversion Hs as [|? ? Hys Hy]; subst.
    rewrite (comparefn_rank x y Px Py). simpl.
    destruct (rank x y >? 0) eqn:E.
    + destruct (IH HPys Hys) as (r & Hr & Hsr & HPr). rewrite Hr. simpl.
      eexists. split; [reflexivity|]. split; [|constructor; assumption].
      constructor; [assumption|].
      assert (Hperm : Permutation (x :: ys) r) by (apply sort_insert_perm; exact Hr).
      eapply Permutation_Forall; [exact Hperm|].
      constructor; [|assumption]. apply rank_total. lia.
    + eexists. split; [reflexivity|]. split; [|constructor; assumption].
      assert (Hxy : ranked rank x y) by (unfold ranked; lia).
      constructor; [assumption|]. constructor; [assumption|].
      eapply Forall_impl; [|exact Hy]. intros z Hz. eapply rank_trans; eassumption.
Qed.

(** On such elements the sort completes, and its result is in order. *)
Lemma Array_sort_sorted (array : list A) :
  Forall P array ->
  exists r, Array_sort comparefn array = Ok r /\ StronglySorted (ranked rank) r
            /\ Forall P r.
Proof.
  induction array as [|x xs IH]; intros HP; simpl.
  - eexists. split; [reflexivity|]. split; constructor.
  - inversion HP as [|? ? Px HPxs]; subst.
    destruct (IH HPxs) as (s & Hs & Hss & HPs). rewrite Hs. simpl.
    apply sort_insert_sorted; assumption.
Qed.
End SortFacts.

Lemma StronglySorted_weaken {A : Type} (R S : A -> A -> Prop) (l : list A) :
  (forall a b, R a b -> S a b) -> StronglySorted R l -> StronglySorted S l.
Proof.
  intros H Hs. induction Hs as [|x l Hl IH Hx]; constructor; auto.
  eapply Forall_impl; [|exact Hx]. auto.
Qed.

Lemma mapM_Forall2 {A B : Type} (f : A -> result B) (Q : A -> B -> Prop) (l : list A) :
  (forall x, In x l -> exists y, f x = Ok y /\ Q x y) ->
  exists ys, mapM f l = Ok ys /\ Forall2 Q l ys.
Proof.
  induction l as [|x xs IH]; intros H; simpl.
  - exists []. split; [reflexivity|constructor].
  - destruct (H x (or_introl eq_refl)) as (y & Hy & HQ). rewrite Hy. simpl.
    destruct IH as (ys & Hys & HF); [intros z Hz; apply H; right; exact Hz|].
    rewrite Hys. simpl. exists (y :: ys). split; [reflexivity|constructor; assumption].
Qed.

Lemma same_day_events_named (day : Date) (events : list EventRecord) :
  Forall named events -> Forall named (same_day_events day events).
Proof.
  intros H. apply Forall_forall. intros e He.
  apply filter_In in He as [He _]. rewrite Forall_forall in H. auto.
Qed.

Lemma array_length_perm {A : Type} (l r : list A) :
  Permutation l r -> array_length l = array_length r.
Proof. intros H. unfold array_length. rewrite (Permutation_length H). reflexivity. Qed.

Lemma firstn_short {A : Type} (l : list A) : array_length l <= 2 -> firstn 2 l = l.
Proof. unfold array_length. intros H. apply firstn_all2. lia. Qed.

Lemma compare_lower_names_rank (a b : EventRecord) :
  named a -> named b ->
  compare_lower_names a b
  = Ok (localeCompare (toLowerCase (template (name a))) (toLowerCase (template (name b)))).
Proof.
  unfold named, compare_lower_names. destruct (name a), (name b); simpl; tauto.
Qed.

Lemma compare_names_rank (a b : EventRecord) :
  named a -> named b ->
  compare_names a b = Ok (localeCompare (template (name a)) (template (name b))).
Proof.
  unfold named, compare_names. destruct (name a), (name b); simpl; tauto.
Qed.

Lemma localeCompare_total (a b : string) : 0 < localeCompare a b -> localeCompare b a <= 0.
Proof. rewrite (localeCompare_antisym a b). lia. Qed.

(** The month cell's sort puts a day's named events in alphabetical
    order, case ignored. *)
Lemma sort_lower_names (l : list EventRecord) :
  Forall named l ->
  exists sorted, Array_sort compare_lower_names l = Ok sorted
                 /\ Permutation l sorted /\ StronglySorted ci_ordered sorted.
Proof.
  intros H.
  destruct (Array_sort_sorted compare_lower_names named
              (fun a b => localeCompare (toLowerCase (template (name a)))
                                        (toLowerCase (template (name b))))
              compare_lower_names_rank
              (fun a b => localeCompare_total _ _)
              (fun a b c => localeCompare_le_trans _ _ _) l H) as (r & Hr & Hs & _).
  exists r. split; [exact Hr|]. split; [apply (Array_sort_perm _ _ _ Hr)|exact Hs].
Qed.

(** So does the grid's sort, which compares the names as they are. *)
Lemma sort_names (l : list EventRecord) :
  Forall named l ->
  exists sorted, Array_sort compare_names l = Ok sorted
                 /\ Permutation l sorted /\ StronglySorted ci_ordered sorted.
Proof.
  intros H.
  destruct (Array_sort_sorted compare_names named
              (fun a b => localeCompare (template (name a)) (template (name b)))
              compare_names_rank
              (fun a b => localeCompare_total _ _)
              (fun a b c => localeCompare_le_trans _ _ _) l H) as (r & Hr & Hs & _).
  exists r. split; [exact Hr|]. split; [apply (Array_sort_perm _ _ _ Hr)|].
  eapply StronglySorted_weaken; [|exact Hs].
  intros a b. apply localeCompare_ignoring_case.
Qed.

(** The month cell of [unnamed/part_002]: a day with more than two
    events shows the first two of that day's events in alphabetical
    order of their names, case ignored, and the marker counts the rest;
    a day with two events or fewer shows them in the order of the input,
    unsorted.  A day whose events are named Zeta, Alpha and Mid, in that
    order, shows Alpha and Mid and the marker reads 1. *)
Lemma DayCell_sorts_crowded_days (day : Date) (events : list EventRecord) :
  (array_length (same_day_events day events) <= 2 ->
   DayCell day events = Ok {| tiles := same_day_events day events; more := None |})
  /\ (2 < array_length (same_day_events day events) ->
      Forall named (same_day_events day events) ->
      exists sorted,
        Permutation (same_day_events day events) sorted
        /\ StronglySorted ci_ordered sorted
        /\ DayCell day events
           = Ok {| tiles := firstn 2 sorted;
                   more := Some (array_length (same_day_events day events) - 2) |})
  /\ (forall zeta alpha mid,
        same_day_events day events = [zeta; alpha; mid] ->
        name zeta = JString "Zeta" -> name alpha = JString "Alpha" ->
        name mid = JString "Mid" ->
        DayCell day events = Ok {| tiles := [alpha; mid]; more := Some 1 |}).
Proof.
  unfold DayCell. fold (same_day_events day events).
  set (dayEvents := same_day_events day events).
  split; [|split].
  - intros Hle. destruct (array_length dayEvents >? 2) eqn:E; [lia|]. simpl.
    rewrite E. unfold slice_0_2. rewrite firstn_short by exact Hle. reflexivity.
  - intros Hgt Hnamed. destruct (array_length dayEvents >? 2) eqn:E; [|lia].
    destruct (sort_lower_names dayEvents Hnamed) as (sorted & Hs & Hp & Hss).
    exists sorted. split; [exact Hp|]. split; [exact Hss|].
    rewrite Hs. simpl. rewrite <- (array_length_perm _ _ Hp), E. reflexivity.
  - intros zeta alpha mid -> Hz Ha Hm.
    destruct zeta, alpha, mid. simpl in Hz, Ha, Hm. subst. reflexivity.
Qed.

Lemma DayCell_sorts_crowded_days_example :
  DayCell (parseISO (JString "2024-03-16")) crowded_day
  = Ok {| tiles := [sample_event "Elsewhere" "2024-03-16"]; more := None |}
  /\ (exists sorted,
        Permutation (same_day_events (parseISO (JString "2024-03-15")) crowded_day) sorted
        /\ StronglySorted ci_ordered sorted
        /\ DayCell (parseISO (JString "2024-03-15")) crowded_day
           = Ok {| tiles := firstn 2 sorted; more := Some (3 - 2) |})
  /\ DayCell (parseISO (JString "2024-03-15")) crowded_day
     = Ok {| tiles := [sample_event "Alpha" "2024-03-15"; sample_event "Mid" "2024-03-15"];
             more := Some 1 |}.
Proof.
  split; [|split].
  - apply (proj1 (DayCell_sorts_crowded_days (parseISO (JString "2024-03-16")) crowded_day)).
    vm_compute. discriminate.
  - apply (proj1 (proj2 (DayCell_sorts_crowded_days
                           (parseISO (JString "2024-03-15")) crowded_day))).
    + reflexivity.
    + repeat constructor.
  - exact (proj2 (proj2 (DayCell_sorts_crowded_days
                           (parseISO (JString "2024-03-15")) crowded_day))
             _ _ _ eq_refl eq_refl eq_refl eq_refl).
Defined.

Lemma mapM_In {A B : Type} (f : A -> result B) (l : list A) :
  forall ys, mapM f l = Ok ys -> forall y, In y ys -> exists x, In x l /\ f x = Ok y.
Proof.
  induction l as [|x xs IH]; simpl; intros ys H y Hy.
  - injection H as <-. destruct Hy.
  - destruct (f x) as [y0|] eqn:E; simpl in H; [|discriminate].
    destruct (mapM f xs) as [ys0|]; simpl in H; [|discriminate].
    injection H as <-. destruct Hy as [<-|Hy].
    + exists x. auto.
    + destruct (IH ys0 eq_refl y Hy) as (x' & Hx' & Hf). exists x'. auto.
Qed.

(** Every cell of the month grid is the [DayCell] of its day. *)
Lemma renderMonthView_cells (events : list EventRecord) (currentDate : Date) :
  forall rows, renderMonthView events currentDate = Ok rows ->
  forall row, In row rows -> forall day cell, In (day, cell) row ->
  DayCell day events = Ok cell.
Proof.
  unfold renderMonthView.
  generalize (startOfWeek (startOfMonth currentDate)) as day0.
  generalize (endOfWeek (endOfMonth (startOfMonth currentDate))) as endDate.
  generalize 6%nat as fuel.
  induction fuel as [|fuel IH]; cbn [month_rows];
    intros endDate day0 rows H row Hrow day cell Hcell.
  - injection H as <-. destruct Hrow.
  - destruct (num_le day0 endDate); [|injection H as <-; destruct Hrow].
    match type of H with
    | context [mapM ?f seven] => destruct (mapM f seven) as [days|] eqn:Edays
    end; cbn [bind] in H; [|discriminate].
    destruct (month_rows fuel events (addDays day0 7) endDate) as [rest|] eqn:Erest;
      cbn [bind] in H; [|discriminate].
    injection H as <-. destruct Hrow as [<-|Hrow].
    + destruct (mapM_In _ _ _ Edays _ Hcell) as (i & _ & Hi).
      destruct (DayCell (addDays day0 i) events) as [c|] eqn:Ec; simpl in Hi; [|discriminate].
      injection Hi as <- <-. exact Ec.
    + exact (IH _ _ _ Erest row Hrow day cell Hcell).
Qed.

(** C1. Month view, the cell of [src/components/DayCell.js]: whatever
    the number of a day's events, the cell shows the first two of them
    in the order of the input, without sorting them, and the marker
    counts the rest when there are more than two.  On the day whose
    events are named Zeta, Alpha and Mid, in that order, it shows Zeta
    and Alpha with the marker 1, where the cell of [unnamed/part_002],
    which sorts a day of more than two events, shows Alpha and Mid with
    the marker 1. *)
Theorem month_view_cell_does_not_sort (day : Date) (events : list EventRecord) :
  DayCell_unsorted day events
  = {| tiles := firstn 2 (same_day_events day events);
       more := if array_length (same_day_events day events) >? 2
               then Some (array_length (same_day_events day events) - 2)
               else None |}
  /\ same_day_events (parseISO (JString "2024-03-15")) crowded_day
     = [sample_event "Zeta" "2024-03-15"; sample_event "Alpha" "2024-03-15";
        sample_event "Mid" "2024-03-15"]
  /\ DayCell_unsorted (parseISO (JString "2024-03-15")) crowded_day
     = {| tiles := [sample_event "Zeta" "2024-03-15"; sample_event "Alpha" "2024-03-15"];
          more := Some 1 |}
  /\ DayCell (parseISO (JString "2024-03-15")) crowded_day
     = Ok {| tiles := [sample_event "Alpha" "2024-03-15"; sample_event "Mid" "2024-03-15"];
             more := Some 1 |}.
Proof.
  split; [reflexivity|]. split; [|split]; vm_compute; reflexivity.
Qed.

(** The week starts on the Sunday on or before the anchor date. *)
Lemma startOfWeek_sunday (t : Z) :
  exists sunday, startOfWeek (Some t) = Some (sunday * msPerDay)
                 /\ WeekDay sunday = 0 /\ sunday <= Day t < sunday + 7.
Proof.
  exists (Day t - WeekDay (Day t)). split; [reflexivity|].
  unfold WeekDay. pose proof (Z.mod_pos_bound (Day t + 4) 7 ltac:(lia)).
  split; [|lia].
  pose proof (Z.div_mod (Day t + 4) 7 ltac:(lia)).
  replace (Day t - (Day t + 4) mod 7 + 4) with (0 + (Day t + 4) / 7 * 7) by lia.
  rewrite Z.mod_add by lia. reflexivity.
Qed.

(** C2. Week view: the view has seven columns, one for each of the seven
    days from the Sunday on or before the anchor date; whatever the
    number of a day's events, its list is in alphabetical order of the
    names, case ignored, and the column shows at most the first two of
    it, with a marker that counts the rest when there are more.  So a
    day with the two events Elite 8s and Elite @ Boston, in that order,
    shows Elite @ Boston first (a sign sorts before a digit), and a day
    with Zeta, alpha, Mid and Alpha shows alpha and Alpha with the
    marker 2. *)
Theorem week_view_sorts_every_day (events : list EventRecord) (t : Z) :
  (Forall named events ->
   exists sunday columns,
     startOfWeek (Some t) = Some (sunday * msPerDay)
     /\ WeekDay sunday = 0 /\ sunday <= Day t < sunday + 7
     /\ renderWeekView events (Some t) = Ok columns
     /\ Forall2
          (fun i column =>
             let day := Some ((sunday + i) * msPerDay) in
             exists sorted,
               Permutation (same_day_events day events) sorted
               /\ StronglySorted ci_ordered sorted
               /\ column
                  = (day,
                     {| tiles := firstn 2 sorted;
                        more := if array_length (same_day_events day events) >? 2
                                then Some (array_length (same_day_events day events) - 2)
                                else None |}))
          seven columns)
  /\ option_map (fun column => (map name (tiles (snd column)), more (snd column)))
       (match renderWeekView elite_day (parseISO (JString "2024-03-15")) with
        | Ok columns => nth_error columns 5
        | Throw _ => None
        end)
     = Some ([JString "Elite @ Boston"; JString "Elite 8s"], None)
  /\ option_map (fun column => (map name (tiles (snd column)), more (snd column)))
       (match renderWeekView crowded_week (parseISO (JString "2024-03-15")) with
        | Ok columns => nth_error columns 5
        | Throw _ => None
        end)
     = Some ([JString "alpha"; JString "Alpha"], Some 2).
Proof.
  split; [|split; vm_compute; reflexivity].
  intros Hnamed.
  destruct (startOfWeek_sunday t) as (sunday & Hsow & Hsun & Hle).
  exists sunday. unfold renderWeekView. rewrite Hsow.
  destruct (mapM_Forall2
    (fun i =>
       let day := addDays (Some (sunday * msPerDay)) i in
       dayEvents <- getEventsForDate events day ;;
       Ok (day, {| tiles := slice_0_2 dayEvents;
                   more := if array_length dayEvents >? 2
                           then Some (array_length dayEvents - 2) else None |}))
    (fun i column =>
       let day := Some ((sunday + i) * msPerDay) in
       exists sorted,
         Permutation (same_day_events day events) sorted
         /\ StronglySorted ci_ordered sorted
         /\ column
            = (day,
               {| tiles := firstn 2 sorted;
                  more := if array_length (same_day_events day events) >? 2
                          then Some (array_length (same_day_events day events) - 2)
                          else None |}))
    seven) as (columns & Hcols & HF).
  - intros i _. cbv zeta. unfold addDays.
    replace (sunday * msPerDay + i * msPerDay) with ((sunday + i) * msPerDay) by lia.
    set (day := Some ((sunday + i) * msPerDay)).
    unfold getEventsForDate. fold (same_day_events day events).
    destruct (sort_names (same_day_events day events)
                (same_day_events_named day events Hnamed)) as (sorted & Hs & Hp & Hss).
    rewrite Hs. simpl. eexists. split; [reflexivity|].
    exists sorted. split; [exact Hp|]. split; [exact Hss|].
    rewrite <- (array_length_perm _ _ Hp). reflexivity.
  - exists columns. repeat split; try assumption; lia.
Qed.

Lemma week_view_sorts_every_day_witness :
  Forall named crowded_week
  /\ exists sunday columns,
    startOfWeek (Some 1710460800000) = Some (sunday * msPerDay)
    /\ WeekDay sunday = 0 /\ sunday <= Day 1710460800000 < sunday + 7
    /\ renderWeekView crowded_week (Some 1710460800000) = Ok columns
    /\ Forall2
         (fun i column =>
            let day := Some ((sunday + i) * msPerDay) in
            exists sorted,
              Permutation (same_day_events day crowded_week) sorted
              /\ StronglySorted ci_ordered sorted
              /\ column
                 = (day,
                    {| tiles := firstn 2 sorted;
                       more := if array_length (same_day_events day crowded_week) >? 2
                               then Some (array_length (same_day_events day crowded_week) - 2)
                               else None |}))
         seven columns.
Proof.
  assert (H : Forall named crowded_week) by (repeat constructor).
  split; [exact H|].
  exact (proj1 (week_view_sorts_every_day crowded_week 1710460800000) H).
Defined.

(** The week view on a day with five events, two of them named alike up
    to case: lower case comes first, and the marker counts two more. *)
Lemma week_view_crowded_day :
  option_map (fun column => (map name (tiles (snd column)), more (snd column)))
    (match renderWeekView crowded_week (parseISO (JString "2024-03-15")) with
     | Ok columns => nth_error columns 5
     | Throw _ => None
     end)
  = Some ([JString "alpha"; JString "Alpha"], Some 2).
Proof. reflexivity. Qed.

(** ** List view *)

Lemma Array_sort_completes {A : Type} (comparefn : A -> A -> result Z) (array : list A) :
  (forall a b, exists order, comparefn a b = Ok order) ->
  exists r, Array_sort comparefn array = Ok r.
Proof.
  intros H.
  assert (Hins : forall x sorted, exists r, sort_insert comparefn x sorted = Ok r).
  { intros x sorted. induction sorted as [|y ys [r Hr]]; simpl; [eauto|].
    destruct (H x y) as [order ->]. simpl.
    destruct (order >? 0); [rewrite Hr; simpl|]; eauto. }
  induction array as [|x xs [s Hs]]; simpl; [eauto|].
  rewrite Hs. simpl. apply Hins.
Qed.

(** Sorting by event type, where the comparator puts [''] for a missing
    value, completes on every list. *)
Lemma sortedEvents_eventType_completes (events : list EventRecord) (sortDirection : string) :
  exists r, sortedEvents events "eventType" sortDirection = Ok r.
Proof.
  apply Array_sort_completes. intros a b.
  unfold list_comparator. simpl.
  destruct (string_lt _ _); [eauto|]. destruct (string_lt _ _); eauto.
Qed.

(** Sorting by date completes on every list as well. *)
Lemma sortedEvents_startDateTime_completes (events : list EventRecord)
  (sortDirection : string) :
  exists r, sortedEvents events "startDateTime" sortDirection = Ok r.
Proof.
  apply Array_sort_completes. intros a b.
  unfold list_comparator. simpl.
  destruct (num_lt _ _); [eauto|]. destruct (num_lt _ _); eauto.
Qed.

(** C3. Sorting the list view by location throws a [TypeError] on two
    rows of which one has no location: the comparator calls
    [toLowerCase] on the missing value. *)
Theorem list_sort_by_location_throws :
  In "location" selectable_fields
  /\ sortedEvents rows_missing_location "location" "asc" = Throw TypeError
  /\ sortedEvents rows_missing_location "location" "desc" = Throw TypeError.
Proof. repeat split; [simpl; tauto]. Qed.

(** Of the seven fields, five are read without a guard: a missing value
    makes the read throw.  The event type is read with [''] in its
    place. *)
Lemma sort_value_of_missing (e : EventRecord) :
  (name e = JNull -> sort_value_of "name" e = Throw TypeError)
  /\ (sport e = JNull -> sort_value_of "sport" e = Throw TypeError)
  /\ (location e = JNull -> sort_value_of "location" e = Throw TypeError)
  /\ (age e = JNull -> sort_value_of "age" e = Throw TypeError)
  /\ (gender e = JNull -> sort_value_of "gender" e = Throw TypeError)
  /\ (event_type e = JNull -> sort_value_of "eventType" e = Ok (Some (StringValue ""))).
Proof.
  unfold sort_value_of. simpl.
  repeat split; intros ->; reflexivity.
Qed.

(** Whenever the read throws for one of two rows, so does the sort, in
    both directions. *)
Lemma list_sort_throws (field sortDirection : string) (a b : EventRecord) :
  sort_value_of field a = Throw TypeError
  \/ ((exists v, sort_value_of field a = Ok v) /\ sort_value_of field b = Throw TypeError) ->
  sortedEvents [a; b] field sortDirection = Throw TypeError.
Proof.
  intros H. unfold sortedEvents. simpl.
  unfold list_comparator.
  destruct H as [Ha | [[v Ha] Hb]]; rewrite Ha; simpl; [reflexivity|].
  rewrite Hb. reflexivity.
Qed.

(** ** Display normalisation *)

(** What [getDisplayValue] returns, case by case. *)
Lemma getDisplayValue_cases (value : jsval) (defaultValue : string) :
  match value with
  | JNull | JUndefined => getDisplayValue value defaultValue = defaultValue
  | JString s =>
      if (s =? "")%string || array_includes emptyValues (toLowerCase (trim s))
      then getDisplayValue value defaultValue = defaultValue
      else getDisplayValue value defaultValue = trim s
  end.
Proof.
  destruct value as [| |s]; unfold getDisplayValue; try reflexivity.
  destruct (s =? "")%string; cbv zeta; [reflexivity|].
  destruct (array_includes emptyValues (toLowerCase (trim s))); reflexivity.
Qed.

(** A string of white space only, unless it is empty, comes back as the
    empty string. *)
Lemma getDisplayValue_blank (s defaultValue : string) :
  s <> "" -> string_forallb is_white s = true ->
  getDisplayValue (JString s) defaultValue = "".
Proof.
  intros Hs Hw. unfold getDisplayValue.
  apply String.eqb_neq in Hs. rewrite Hs, (trim_blank s Hw). reflexivity.
Qed.

(** C8. Given three spaces, [getDisplayValue] returns the empty string,
    which is not the default. *)
Theorem getDisplayValue_whitespace_only :
  getDisplayValue (JString "   ") "N/A" = ""
  /\ getDisplayValue_default (JString "   ") <> "N/A"
  /\ trim "   " = "".
Proof. repeat split. discriminate. Qed.

(** ** Website validation *)

(** C9. [isValidExternalWebsite] rejects the empty string, [N/A], a
    [javascript:] URL and a URL on [localhost], and accepts
    [https://example.org/event]. *)
Theorem isValidExternalWebsite_examples :
  isValidExternalWebsite (JString "") = false
  /\ isValidExternalWebsite (JString "N/A") = false
  /\ isValidExternalWebsite (JString "javascript:alert(1)") = false
  /\ isValidExternalWebsite (JString "http://localhost/x") = false
  /\ isValidExternalWebsite (JString "https://example.org/event") = true.
Proof. repeat split. Qed.

(** ** Filtering *)

(** The filter callback completes on every record. *)
Lemma keeps_completes (searchQuery : string) (filters : Filters.t) (event : EventRecord) :
  exists b, keeps searchQuery filters event = Ok b.
Proof.
  unfold keeps. simpl.
  destruct (nonempty searchQuery); simpl;
    repeat match goal with
           | |- exists b, (if ?c then _ else _) = Ok b => destruct c
           | |- exists b, Ok _ = Ok b => eexists; reflexivity
           end.
Qed.

Lemma filterM_filter {A : Type} (f : A -> result bool) (l : list A) :
  (forall x, exists b, f x = Ok b) ->
  filterM f l = Ok (filter (fun x => says_true (f x)) l).
Proof.
  intros H. induction l as [|x xs IH]; simpl; [reflexivity|].
  destruct (H x) as [b Hb]. rewrite Hb, IH. simpl. destruct b; reflexivity.
Qed.

(** [applyFilters] completes, and keeps the records the callback
    accepts, in their order. *)
Lemma applyFilters_filter (events : list EventRecord) (searchQuery : string)
  (filters : Filters.t) :
  applyFilters events searchQuery filters
  = Ok (filter (fun event => says_true (keeps searchQuery filters event)) events).
Proof. apply filterM_filter. intros x. apply keeps_completes. Qed.

(** The date range is the last test of the callback: a record that
    passes the others is kept when its date is neither before the start
    nor after the end. *)
Lemma keeps_date_range (searchQuery : string) (filters : Filters.t)
  (event : EventRecord) :
  keeps searchQuery filters event
  = match keeps searchQuery (without_dateRange filters) event with
    | Ok true =>
        Ok (negb (before_bound (new_Date (start_date event))
                    (Filters.start (Filters.dateRange filters)))
            && negb (after_bound (new_Date (start_date event))
                       (Filters.end_ (Filters.dateRange filters))))
    | other => other
    end.
Proof.
  unfold keeps. simpl.
  destruct (Filters.start (Filters.dateRange filters)) as [lo|],
           (Filters.end_ (Filters.dateRange filters)) as [hi|]; simpl;
    repeat match goal with
           | |- context [if ?c then _ else _] => destruct c; simpl
           end; reflexivity.
Qed.

Lemma before_bound_invalid (bound : option Date) : before_bound NaN bound = false.
Proof. destruct bound as [[b|]|]; reflexivity. Qed.

Lemma after_bound_invalid (bound : option Date) : after_bound NaN bound = false.
Proof. destruct bound as [[b|]|]; reflexivity. Qed.

(** A date that does not parse is on neither side of a bound. *)
Lemma keeps_malformed_date (searchQuery : string) (filters : Filters.t)
  (event : EventRecord) :
  new_Date (start_date event) = NaN ->
  keeps searchQuery filters event = keeps searchQuery (without_dateRange filters) event.
Proof.
  intros Hnan. rewrite keeps_date_range, Hnan, before_bound_invalid, after_bound_invalid.
  destruct (keeps searchQuery (without_dateRange filters) event) as [[|]|]; reflexivity.
Qed.

(** C4. [applyFilters] completes on every input.  A record whose
    [start_date] makes no date (the [Date] built from it is an Invalid
    Date) is kept or dropped as if no date range were set: no bound
    excludes it.  A record whose [start_date] is read as a date, whatever
    its form, is compared with the bounds as the date read: it is shown
    only if that date is neither before the start nor after the end. *)
Theorem applyFilters_malformed_date (events : list EventRecord) (searchQuery : string)
  (filters : Filters.t) :
  exists visible,
    applyFilters events searchQuery filters = Ok visible
    /\ (forall event,
          In event events ->
          new_Date (start_date event) = NaN ->
          (In event visible
           <-> keeps searchQuery (without_dateRange filters) event = Ok true))
    /\ (forall event t,
          In event events ->
          new_Date (start_date event) = Some t ->
          (In event visible
           <-> keeps searchQuery (without_dateRange filters) event = Ok true
               /\ before_bound (Some t) (Filters.start (Filters.dateRange filters)) = false
               /\ after_bound (Some t) (Filters.end_ (Filters.dateRange filters)) = false)).
Proof.
  eexists. split; [apply applyFilters_filter|]. split.
  - intros event Hin Hbad.
    rewrite filter_In, keeps_malformed_date by exact Hbad.
    destruct (keeps_completes searchQuery (without_dateRange filters) event) as [b Hb].
    rewrite Hb. destruct b; simpl; split; intros H;
      try (destruct H; discriminate); try discriminate; auto.
  - intros event t Hin Hdate.
    rewrite filter_In, keeps_date_range, Hdate.
    destruct (keeps_completes searchQuery (without_dateRange filters) event) as [b Hb].
    rewrite Hb. destruct b; simpl.
    + destruct (before_bound _ _), (after_bound _ _); simpl; split;
        try (intros [_ H]; discriminate H);
        try (intros (_ & H1 & H2); discriminate);
        auto.
    + split; [intros [_ H]; discriminate H|intros [H _]; discriminate H].
Qed.

Lemma applyFilters_malformed_date_witness :
  new_Date (start_date (sample_event "Spring Cup" "15/03/2024")) = NaN
  /\ new_Date (start_date (sample_event "Summer Cup" "2024-06-01")) = Some 1717200000000
  /\ exists visible,
    applyFilters [sample_event "Spring Cup" "15/03/2024"; sample_event "Summer Cup" "2024-06-01"]
                 "" march_2024 = Ok visible
    /\ In (sample_event "Spring Cup" "15/03/2024") visible
    /\ ~ In (sample_event "Summer Cup" "2024-06-01") visible.
Proof.
  split; [reflexivity|]. split; [reflexivity|].
  destruct (applyFilters_malformed_date
              [sample_event "Spring Cup" "15/03/2024"; sample_event "Summer Cup" "2024-06-01"]
              "" march_2024) as (visible & Hv & Hbad & Hread).
  exists visible. split; [exact Hv|]. split.
  - apply (Hbad (sample_event "Spring Cup" "15/03/2024") (or_introl eq_refl) eq_refl).
    reflexivity.
  - intros Hin.
    apply (Hread (sample_event "Summer Cup" "2024-06-01") 1717200000000
             (or_intror (or_introl eq_refl)) eq_refl) in Hin.
    destruct Hin as (_ & _ & H). discriminate H.
Defined.

(** With the same range, a record dated outside it is dropped and the
    malformed one stays. *)
Lemma applyFilters_march_2024 :
  applyFilters [sample_event "Spring Cup" "15/03/2024"; sample_event "Summer Cup" "2024-06-01"]
               "" march_2024
  = Ok [sample_event "Spring Cup" "15/03/2024"].
Proof. reflexivity. Qed.

(** A [start_date] that lacks its day is no date of the record's form,
    yet it is read as the first of the month: a range over March 2024
    drops the record, which the same filters without the range keep. *)
Lemma applyFilters_drops_year_month :
  date_text (start_date (sample_event "Summer Cup" "2024-06")) = None
  /\ applyFilters [sample_event "Summer Cup" "2024-06"] "" march_2024 = Ok []
  /\ applyFilters [sample_event "Summer Cup" "2024-06"] "" (without_dateRange march_2024)
     = Ok [sample_event "Summer Cup" "2024-06"].
Proof. split; [|split]; reflexivity. Qed.

(** ** Date display *)

Lemma length_append (a b : string) :
  String.length (a ++ b) = (String.length a + String.length b)%nat.
Proof. induction a as [|c a IH]; simpl; [|rewrite IH]; reflexivity. Qed.

Lemma substring_all (s : string) : substring 0 (String.length s) s = s.
Proof. induction s as [|c s IH]; simpl; [|rewrite IH]; reflexivity. Qed.

Lemma digit_value_range (c : ascii) (v : Z) : digit_value c = Some v -> 0 <= v <= 9.
Proof.
  unfold digit_value, is_digit. destruct (_ && _)%bool eqn:E; [|discriminate].
  intros H. injection H as <-. apply andb_true_iff in E as [E1 E2].
  apply N.leb_le in E1, E2. lia.
Qed.

Lemma digit_char_value (c : ascii) (v : Z) : digit_value c = Some v -> digit_char v = c.
Proof.
  destruct c as [[] [] [] [] [] [] [] []]; vm_compute; intros H;
    try discriminate H; injection H as <-; reflexivity.
Qed.

Lemma digits_snoc (w : nat) (x v : Z) :
  0 <= v <= 9 ->
  digits (S w) (10 * x + v) = digits w x ++ String (digit_char v) EmptyString.
Proof.
  intros Hv. cbn [digits].
  replace ((10 * x + v) / 10) with x
    by (rewrite Z.add_comm, Z.mul_comm, Z.div_add, Z.div_small by lia; reflexivity).
  unfold digit_char.
  replace ((10 * x + v) mod 10) with (v mod 10)
    by (rewrite Z.add_comm, Z.mul_comm, Z.mod_add by lia; reflexivity).
  reflexivity.
Qed.

(** A date that [parse_ymd] reads is written the way [digits] writes it. *)
Lemma parse_ymd_text (s : string) (y m d : Z) :
  parse_ymd s = Some (y, m, d) ->
  s = digits 4 y ++ "-" ++ digits 2 m ++ "-" ++ digits 2 d.
Proof.
  unfold parse_ymd. destruct (negb (String.length s =? 10)%nat) eqn:L; [discriminate|].
  do 10 (destruct s as [|? s]; [discriminate|]). destruct s; [|discriminate].
  simpl substring.
  destruct (String.eqb_spec (String a3 "") "-") as [E4|]; [|discriminate].
  destruct (String.eqb_spec (String a6 "") "-") as [E7|]; [|discriminate].
  injection E4 as ->. injection E7 as ->. cbn [andb negb].
  unfold parse_digits. cbn [number_of_digits].
  replace (10 * 0) with 0 by reflexivity.
  repeat match goal with
         | |- context [digit_value ?c] =>
             is_var c; let E := fresh "E" in let v := fresh "v" in
             destruct (digit_value c) as [v|] eqn:E;
             [pose proof (digit_value_range _ _ E); apply digit_char_value in E; subst c
             |cbv iota; discriminate]
         end.
  cbv iota beta.
  destruct (_ && _)%bool; [|discriminate].
  match goal with
  | |- Some (?Y, ?M, ?D) = Some _ -> _ =>
      intros Hp; assert (Hymd : y = Y /\ m = M /\ d = D) by (repeat split; congruence)
  end.
  destruct Hymd as (-> & -> & ->).
  rewrite !digits_snoc by assumption. reflexivity.
Qed.

Lemma digit_char_not_T (n : Z) : (digit_char n =? "T")%char = false.
Proof.
  unfold digit_char. pose proof (Z.mod_pos_bound n 10 ltac:(lia)) as H.
  assert (E : n mod 10 = 0 \/ n mod 10 = 1 \/ n mod 10 = 2 \/ n mod 10 = 3 \/ n mod 10 = 4
              \/ n mod 10 = 5 \/ n mod 10 = 6 \/ n mod 10 = 7 \/ n mod 10 = 8 \/ n mod 10 = 9)
    by lia.
  repeat destruct E as [E|E]; rewrite E; reflexivity.
Qed.

Lemma digit_char_not_space (n : Z) : (digit_char n =? " ")%char = false.
Proof.
  unfold digit_char. pose proof (Z.mod_pos_bound n 10 ltac:(lia)) as H.
  assert (E : n mod 10 = 0 \/ n mod 10 = 1 \/ n mod 10 = 2 \/ n mod 10 = 3 \/ n mod 10 = 4
              \/ n mod 10 = 5 \/ n mod 10 = 6 \/ n mod 10 = 7 \/ n mod 10 = 8 \/ n mod 10 = 9)
    by lia.
  repeat destruct E as [E|E]; rewrite E; reflexivity.
Qed.

Lemma parse_ymd_length (s : string) (y m d : Z) :
  parse_ymd s = Some (y, m, d) -> String.length s = 10%nat.
Proof.
  unfold parse_ymd. destruct (Nat.eqb_spec (String.length s) 10); [auto|discriminate].
Qed.

Lemma parse_iso_date_ymd (s : string) (y m d : Z) :
  parse_ymd s = Some (y, m, d) -> parse_iso_date s = Some (y, m, d).
Proof.
  intros H. unfold parse_iso_date. rewrite (parse_ymd_length _ _ _ _ H). exact H.
Qed.

(** A date in the form [YYYY-MM-DD] holds neither [T] nor a space. *)
Lemma before_delimiter_date (s : string) (y m d : Z) :
  parse_ymd s = Some (y, m, d) ->
  before_delimiter is_dateTimeDelimiter s = s
  /\ forall r, before_delimiter is_dateTimeDelimiter (s ++ String "T" r) = s.
Proof.
  intros H. rewrite (parse_ymd_text _ _ _ _ H).
  split; [|intros r]; cbn [digits append before_delimiter];
    unfold is_dateTimeDelimiter;
    rewrite !digit_char_not_T, !digit_char_not_space; reflexivity.
Qed.

Lemma substring_append_skip (a b : string) (n m : nat) :
  substring (String.length a + n) m (a ++ b) = substring n m b.
Proof. induction a as [|c a IH]; [reflexivity|]. exact IH. Qed.

(** The formatter reads a field that names a calendar day as that day,
    at midnight. *)
Lemma parseISO_midnight (v : jsval) (y m d : Z) :
  date_text v = Some (y, m, d) ->
  parseISO (JString (template v ++ "T00:00:00")) = Some (days_from_civil y m d * msPerDay).
Proof.
  destruct v as [| |s]; try discriminate. cbn [date_text template]. intros H.
  pose proof (parse_ymd_length _ _ _ _ H) as Hlen.
  unfold parseISO.
  rewrite (proj2 (before_delimiter_date _ _ _ _ H) "00:00:00"), (parse_iso_date_ymd _ _ _ _ H).
  rewrite length_append, Hlen.
  change (10 + String.length "T00:00:00" - 11)%nat with 8%nat.
  assert (Hts : substring 11 8 (s ++ "T00:00:00") = "00:00:00").
  { replace 11%nat with (String.length s + 1)%nat by (rewrite Hlen; reflexivity).
    rewrite substring_append_skip. reflexivity. }
  rewrite !Hts.
  change (parse_hms "00:00:00") with (Some 0).
  cbn [String.eqb Ascii.eqb Bool.eqb]. unfold MakeDate. f_equal. lia.
Qed.

(** [parseISO] of a field that names a calendar day: local midnight. *)
Lemma parseISO_date_text (v : jsval) (y m d : Z) :
  date_text v = Some (y, m, d) -> parseISO v = Some (days_from_civil y m d * msPerDay).
Proof.
  destruct v as [| |s]; try discriminate. cbn [date_text]. intros H.
  pose proof (parse_ymd_length _ _ _ _ H) as Hlen.
  unfold parseISO.
  rewrite (proj1 (before_delimiter_date _ _ _ _ H)), (parse_iso_date_ymd _ _ _ _ H).
  rewrite Hlen. cbn [Nat.sub].
  replace (substring 11 0 s) with "" by (do 10 (destruct s as [|? s]; [discriminate|]);
                                         destruct s; [reflexivity|discriminate]).
  cbn [String.eqb]. unfold MakeDate. f_equal. lia.
Qed.

Lemma parse_ymd_valid (s : string) (y m d : Z) :
  parse_ymd s = Some (y, m, d) -> 1 <= m <= 12 /\ 1 <= d <= days_in_month y m.
Proof.
  unfold parse_ymd.
  destruct (negb _); [discriminate|]. destruct (negb _); [discriminate|].
  destruct (parse_digits _) as [y'|]; [|discriminate].
  destruct (parse_digits _) as [m'|]; [|discriminate].
  destruct (parse_digits _) as [d'|]; [|discriminate].
  destruct ((1 <=? m') && (m' <=? 12) && (1 <=? d') && (d' <=? days_in_month y' m')) eqn:E;
    [|discriminate].
  intros H. injection H as <- <- <-.
  repeat rewrite andb_true_iff in E. lia.
Qed.

Lemma date_text_valid (v : jsval) (y m d : Z) :
  date_text v = Some (y, m, d) -> 1 <= m <= 12 /\ 1 <= d <= days_in_month y m.
Proof. destruct v; try discriminate. apply parse_ymd_valid. Qed.

Lemma Day_midnight (day : Z) : Day (day * msPerDay) = day.
Proof. unfold Day. apply Z.div_mul. unfold msPerDay. lia. Qed.

Ltac eval_tokens :=
  match goal with
  | |- context [format_tokens ?p] =>
      let toks := eval vm_compute in (format_tokens p) in
      change (format_tokens p) with toks
  end.

Lemma append_empty_r (s : string) : s ++ "" = s.
Proof. induction s as [|c s IH]; simpl; [|rewrite IH]; reflexivity. Qed.

Lemma append_assoc (a b c : string) : (a ++ b) ++ c = a ++ (b ++ c).
Proof. induction a as [|x a IH]; simpl; [|rewrite IH]; reflexivity. Qed.

Ltac name_parts y m d :=
  unfold long_date, short_date, weekday_of, month_abbr;
  generalize (nth (Z.to_nat (WeekDay (days_from_civil y m d))) weekday_names "");
  generalize (nth (Z.to_nat (m - 1)) month_names "");
  generalize (decimal d); generalize (zero_pad 4 y);
  intros Y D M W.

Lemma format_long (y m d : Z) :
  1 <= m <= 12 -> 1 <= d <= days_in_month y m ->
  format (Some (days_from_civil y m d * msPerDay)) "EEEE, MMM d, yyyy"
  = Ok (long_date y m d).
Proof.
  intros Hm Hd. unfold format. eval_tokens.
  cbn [format_all]. unfold format_token.
  rewrite Day_midnight, (civil_from_days_from_civil y m d Hm Hd).
  name_parts y m d. simpl. rewrite append_empty_r. reflexivity.
Qed.

Lemma format_short (y m d : Z) :
  1 <= m <= 12 -> 1 <= d <= days_in_month y m ->
  format (Some (days_from_civil y m d * msPerDay)) "EEE, MMM d"
  = Ok (short_date y m d).
Proof.
  intros Hm Hd. unfold format. eval_tokens.
  cbn [format_all]. unfold format_token.
  rewrite Day_midnight, (civil_from_days_from_civil y m d Hm Hd).
  name_parts y m d. simpl. rewrite append_empty_r. reflexivity.
Qed.

Lemma format_short_year (y m d : Z) :
  1 <= m <= 12 -> 1 <= d <= days_in_month y m ->
  format (Some (days_from_civil y m d * msPerDay)) "EEE, MMM d, yyyy"
  = Ok (short_date y m d ++ ", " ++ zero_pad 4 y).
Proof.
  intros Hm Hd. unfold format. eval_tokens.
  cbn [format_all]. unfold format_token.
  rewrite Day_midnight, (civil_from_days_from_civil y m d Hm Hd).
  name_parts y m d. rewrite !append_assoc. simpl. rewrite append_empty_r. reflexivity.
Qed.

Lemma isSameDay_midnight (a b : Z) :
  isSameDay (Some (a * msPerDay)) (Some (b * msPerDay)) = (a =? b).
Proof.
  unfold isSameDay, startOfDay. rewrite !Day_midnight.
  destruct (Z.eqb_spec a b) as [->|Hne].
  - apply Z.eqb_refl.
  - apply Z.eqb_neq. unfold msPerDay. lia.
Qed.

Lemma isSameDay_invalid_r (a : Date) : isSameDay a NaN = false.
Proof. unfold isSameDay. destruct (startOfDay a); reflexivity. Qed.

Lemma date_text_truthy (v : jsval) (y m d : Z) :
  date_text v = Some (y, m, d) -> truthy v = true.
Proof. destruct v as [| |s]; try discriminate. destruct s; [discriminate|reflexivity]. Qed.

(** The long pattern formats every date. *)
Lemma format_long_completes (t : Z) :
  exists text, format (Some t) "EEEE, MMM d, yyyy" = Ok text.
Proof.
  unfold format. eval_tokens. cbn [format_all]. unfold format_token.
  destruct (civil_from_days (Day t)) as [[y m] d]. simpl. eexists. reflexivity.
Qed.

(** C5. [formatEventDateDisplay] returns the single date
    [<Weekday>, <Mon> <Day>, <Year>] when the end is [null] (or
    otherwise empty) or names the same calendar day as the start, and
    the range [<Weekday short>, <Mon> <Day> – <Weekday short>, <Mon>
    <Day>, <Year>], with an en dash, when it names another day.  It
    returns the start as it was given exactly when [parseISO] reads no
    date from the start, or from a given end: a start that [parseISO]
    does read is formatted as the date read, whatever its form.  In
    particular 2024-03-15 to 2024-03-15 in America/New_York reads
    [Friday, Mar 15, 2024], and 2024-03-15 to 2024-03-17 reads
    [Fri, Mar 15 – Sun, Mar 17, 2024] in every zone. *)
Theorem formatEventDateDisplay_cases (startDate endDate : jsval) (timezone : string) :
  (forall y m d,
     date_text startDate = Some (y, m, d) ->
     truthy endDate = false \/ date_text endDate = Some (y, m, d) ->
     formatEventDateDisplay startDate endDate timezone = JString (long_date y m d))
  /\ (forall y m d y' m' d',
        date_text startDate = Some (y, m, d) ->
        date_text endDate = Some (y', m', d') ->
        (y, m, d) <> (y', m', d') ->
        formatEventDateDisplay startDate endDate timezone
        = JString (short_date y m d ++ " " ++ en_dash ++ " "
                   ++ short_date y' m' d' ++ ", " ++ zero_pad 4 y'))
  /\ (parseISO (JString (template startDate ++ "T00:00:00")) = NaN
      \/ (truthy endDate = true
          /\ parseISO (JString (template endDate ++ "T00:00:00")) = NaN) ->
      formatEventDateDisplay startDate endDate timezone = startDate)
  /\ (forall t,
        parseISO (JString (template startDate ++ "T00:00:00")) = Some t ->
        truthy endDate = false ->
        exists text,
          format (Some t) "EEEE, MMM d, yyyy" = Ok text
          /\ formatEventDateDisplay startDate endDate timezone = JString text)
  /\ formatEventDateDisplay (JString "2024-03-15") (JString "2024-03-15") "America/New_York"
     = JString "Friday, Mar 15, 2024"
  /\ formatEventDateDisplay (JString "2024-03-15") (JString "2024-03-17") timezone
     = JString ("Fri, Mar 15 " ++ en_dash ++ " Sun, Mar 17, 2024").
Proof.
  split; [|split; [|split; [|split; [|split; vm_compute; reflexivity]]]].
  - intros y m d Hs He. destruct (date_text_valid _ _ _ _ Hs) as [Hm Hd].
    unfold formatEventDateDisplay. rewrite (parseISO_midnight _ _ _ _ Hs).
    assert (Hsingle : negb (truthy endDate)
                      || isSameDay (Some (days_from_civil y m d * msPerDay))
                           (parseISO (JString (template endDate ++ "T00:00:00"))) = true).
    { destruct He as [He|He].
      - rewrite He. reflexivity.
      - rewrite (parseISO_midnight _ _ _ _ He), isSameDay_midnight, Z.eqb_refl.
        apply orb_true_r. }
    rewrite Hsingle. unfold formatTz. rewrite (format_long y m d Hm Hd). reflexivity.
  - intros y m d y' m' d' Hs He Hne.
    destruct (date_text_valid _ _ _ _ Hs) as [Hm Hd].
    destruct (date_text_valid _ _ _ _ He) as [Hm' Hd'].
    unfold formatEventDateDisplay.
    rewrite (parseISO_midnight _ _ _ _ Hs), (parseISO_midnight _ _ _ _ He).
    rewrite (date_text_truthy _ _ _ _ He), isSameDay_midnight.
    destruct (Z.eqb_spec (days_from_civil y m d) (days_from_civil y' m' d')) as [E|_].
    + exfalso. apply Hne.
      rewrite <- (civil_from_days_from_civil y m d Hm Hd),
              <- (civil_from_days_from_civil y' m' d' Hm' Hd'), E. reflexivity.
    + cbn [negb orb]. unfold formatTz.
      rewrite (format_short y m d Hm Hd), (format_short_year y' m' d' Hm' Hd').
      reflexivity.
  - intros H. unfold formatEventDateDisplay.
    destruct H as [Hs|[Ht He]].
    + rewrite Hs. unfold formatTz, format.
      destruct (negb (truthy endDate) || isSameDay NaN _); reflexivity.
    + rewrite Ht, He, isSameDay_invalid_r. cbn [negb orb]. cbv iota.
      destruct (formatTz _ "EEE, MMM d" _); reflexivity.
  - intros t Ht He. destruct (format_long_completes t) as [text Htext].
    exists text. split; [exact Htext|].
    unfold formatEventDateDisplay. rewrite Ht, He. cbn [negb orb]. unfold formatTz.
    rewrite Htext. reflexivity.
Qed.

Lemma formatEventDateDisplay_cases_witness :
  formatEventDateDisplay (JString "2024-03-15") JNull "America/New_York"
  = JString (long_date 2024 3 15)
  /\ formatEventDateDisplay (JString "2024-03-15") (JString "2024-04-02") "America/New_York"
     = JString (short_date 2024 3 15 ++ " " ++ en_dash ++ " "
                ++ short_date 2024 4 2 ++ ", " ++ zero_pad 4 2024)
  /\ formatEventDateDisplay (JString "15/03/2024") (JString "2024-04-02") "America/New_York"
     = JString "15/03/2024"
  /\ exists text,
       format (Some (19783 * msPerDay)) "EEEE, MMM d, yyyy" = Ok text
       /\ formatEventDateDisplay (JString "2024-03") JNull "America/New_York" = JString text.
Proof.
  split; [|split; [|split]].
  - exact (proj1 (formatEventDateDisplay_cases (JString "2024-03-15") JNull "America/New_York")
             2024 3 15 eq_refl (or_introl eq_refl)).
  - refine (proj1 (proj2 (formatEventDateDisplay_cases
                            (JString "2024-03-15") (JString "2024-04-02") "America/New_York"))
              2024 3 15 2024 4 2 eq_refl eq_refl _).
    discriminate.
  - exact (proj1 (proj2 (proj2 (formatEventDateDisplay_cases
                            (JString "15/03/2024") (JString "2024-04-02") "America/New_York")))
             (or_introl eq_refl)).
  - exact (proj1 (proj2 (proj2 (proj2 (formatEventDateDisplay_cases
                            (JString "2024-03") JNull "America/New_York"))))
             (19783 * msPerDay) eq_refl eq_refl).
Defined.

(** A start that lacks its day is no date of the record's form, yet
    [parseISO] reads it as the first of the month and it is formatted,
    not returned as it was given. *)
Lemma formatEventDateDisplay_reads_year_month :
  date_text (JString "2024-03") = None
  /\ formatEventDateDisplay (JString "2024-03") JNull "America/New_York"
     = JString "Friday, Mar 1, 2024"
  /\ formatEventDateDisplay (JString "2024-03") JNull "America/New_York"
     <> JString "2024-03".
Proof. split; [reflexivity|]. split; [vm_compute; reflexivity|discriminate]. Qed.

(** ** Export: dates *)

Lemma time_split (t : Z) : Day t * msPerDay + TimeWithinDay t = t.
Proof.
  unfold Day, TimeWithinDay. pose proof (Z.div_mod t msPerDay ltac:(unfold msPerDay; lia)). lia.
Qed.

(** [d.setDate(d.getDate() + 1)] moves the wall clock one day on. *)
Lemma setDate_next_day (tz : TimeZone) (t0 : Z) :
  setDate tz (Some t0) (num_add (getDate tz (Some t0)) 1)
  = TimeClip (UTC tz (LocalTime tz t0 + msPerDay)).
Proof.
  unfold setDate, getDate, num_add.
  set (t := LocalTime tz t0).
  unfold YearFromTime, MonthFromTime, DateFromTime.
  destruct (civil_from_days (Day t)) as [[y m] d] eqn:E.
  destruct (days_from_civil_from_days _ _ _ _ E) as (Hday & Hm & Hd).
  unfold MakeDay, MakeDate.
  replace ((m - 1) / 12) with 0 by (symmetry; apply Z.div_small; lia).
  replace ((m - 1) mod 12 + 1) with m by (rewrite Z.mod_small; lia).
  replace (y + 0) with y by lia.
  do 2 f_equal. pose proof (time_split t). lia.
Qed.

Lemma Day_shift (day off : Z) :
  - msPerDay <= off < 0 -> Day (day * msPerDay + off) = day - 1.
Proof.
  intros H. unfold Day.
  replace (day * msPerDay + off) with ((off + msPerDay) + (day - 1) * msPerDay) by lia.
  rewrite Z.div_add by (unfold msPerDay; lia).
  rewrite Z.div_small by lia. lia.
Qed.

Lemma Day_next (t : Z) : Day (t + msPerDay) = Day t + 1.
Proof.
  unfold Day. replace (t + msPerDay) with (t + 1 * msPerDay) by lia.
  apply Z.div_add. unfold msPerDay. lia.
Qed.

(** A year written with four digits. *)
Lemma parse_ymd_year (s : string) (y m d : Z) :
  parse_ymd s = Some (y, m, d) -> 0 <= y <= 9999.
Proof.
  unfold parse_ymd. destruct (negb (String.length s =? 10)%nat) eqn:L; [discriminate|].
  do 10 (destruct s as [|? s]; [discriminate|]). destruct s; [|discriminate].
  simpl substring.
  destruct (negb (_ && _)); [discriminate|].
  unfold parse_digits at 1. cbn [number_of_digits].
  replace (10 * 0) with 0 by reflexivity.
  repeat match goal with
         | |- context [digit_value ?c] =>
             is_var c; let E := fresh "E" in
             destruct (digit_value c) eqn:E;
             [apply digit_value_range in E|cbv iota; discriminate]
         end.
  destruct (parse_digits _); [|discriminate]. destruct (parse_digits _); [|discriminate].
  destruct (_ && _)%bool; [|discriminate].
  intros H.
  apply (f_equal (fun o => match o with Some (a, _, _) => a | None => 0 end)) in H.
  cbv beta iota in H. lia.
Qed.

Lemma date_text_year (v : jsval) (y m d : Z) :
  date_text v = Some (y, m, d) -> 0 <= y <= 9999.
Proof. destruct v; try discriminate. apply parse_ymd_year. Qed.

(** [new Date] of a field that names a date: midnight UTC of that day. *)
Lemma new_Date_date_text (v : jsval) (y m d : Z) :
  date_text v = Some (y, m, d) -> new_Date v = Some (days_from_civil y m d * msPerDay).
Proof.
  destruct v as [| |s]; try discriminate. intros H. unfold date_text in H.
  unfold new_Date. rewrite (parse_iso_date_ymd _ _ _ _ H). reflexivity.
Qed.

Lemma TimeClip_in_range (t : Z) :
  Z.abs t <= 8640000000000000 -> TimeClip t = Some t.
Proof. intros H. unfold TimeClip. apply Z.leb_le in H. rewrite H. reflexivity. Qed.

Lemma local_fields (tz : TimeZone) (t : Z) :
  (getFullYear tz (Some t), num_add (getMonth tz (Some t)) 1, getDate tz (Some t))
  = triple (civil_from_days (Day (LocalTime tz t))).
Proof.
  unfold getFullYear, getMonth, getDate, YearFromTime, MonthFromTime, DateFromTime, num_add.
  destruct (civil_from_days (Day (LocalTime tz t))) as [[y m] d]. simpl.
  do 2 f_equal. f_equal. lia.
Qed.

Lemma LocalTime_fixed (minutes t : Z) : LocalTime (fixed_zone minutes) t = t + minutes * 60000.
Proof. reflexivity. Qed.

Lemma UTC_fixed (minutes t : Z) : UTC (fixed_zone minutes) t = t - minutes * 60000.
Proof. reflexivity. Qed.

(** C10. The single-event serialiser reads the stored dates as midnight
    UTC and takes year, month and day from the host's local time.  On a
    host whose zone is behind UTC, the start it hands on is the calendar
    day before the stored [start_date] and the end is the stored
    [end_date] itself (the wall-clock time the end is set to being read
    back on its own calendar day); on a host at UTC the start is the
    stored [start_date] and the end is the day after the stored
    [end_date]. *)
Theorem icsEvent_dates_follow_host_zone (host : TimeZone) (event : EventRecord)
  (y m d y' m' d' : Z) :
  date_text (start_date event) = Some (y, m, d) ->
  date_text (end_date event) = Some (y', m', d') ->
  (forall t isUTC, - msPerDay <= LocalTZA host t isUTC < 0) ->
  keeps_calendar_day host
    (LocalTime host (days_from_civil y' m' d' * msPerDay) + msPerDay) ->
  (ics_start (icsEvent_of host event) = triple (civil_from_days (days_from_civil y m d - 1))
   /\ ics_end (icsEvent_of host event) = triple (y', m', d'))
  /\ (ics_start (icsEvent_of (fixed_zone 0) event) = triple (y, m, d)
      /\ ics_end (icsEvent_of (fixed_zone 0) event)
         = triple (civil_from_days (days_from_civil y' m' d' + 1))).
Proof.
  intros Hs He Hneg Hwall.
  destruct (date_text_valid _ _ _ _ Hs) as [Hm Hd].
  destruct (date_text_valid _ _ _ _ He) as [Hm' Hd'].
  pose proof (days_from_civil_bounds y m d Hm Hd (date_text_year _ _ _ _ Hs)) as Hb.
  pose proof (days_from_civil_bounds y' m' d' Hm' Hd' (date_text_year _ _ _ _ He)) as Hb'.
  unfold icsEvent_of, ics_start, ics_end.
  rewrite (new_Date_date_text _ _ _ _ Hs), (new_Date_date_text _ _ _ _ He).
  rewrite !setDate_next_day.
  set (D := days_from_civil y m d) in *. set (D' := days_from_civil y' m' d') in *.
  split; split.
  - rewrite local_fields. unfold LocalTime. rewrite Day_shift by apply Hneg. reflexivity.
  - rewrite TimeClip_in_range.
    + rewrite local_fields. unfold keeps_calendar_day in Hwall. rewrite Hwall.
      rewrite Day_next. unfold LocalTime. rewrite Day_shift by apply Hneg.
      replace (D' - 1 + 1) with D' by lia.
      unfold D'. rewrite (civil_from_days_from_civil y' m' d' Hm' Hd'). reflexivity.
    + unfold UTC, LocalTime.
      pose proof (Hneg (D' * msPerDay) true).
      pose proof (Hneg (D' * msPerDay + LocalTZA host (D' * msPerDay) true + msPerDay) false).
      unfold msPerDay in *. lia.
  - rewrite local_fields, LocalTime_fixed.
    replace (D * msPerDay + 0 * 60000) with (D * msPerDay) by lia.
    rewrite Day_midnight. unfold D.
    rewrite (civil_from_days_from_civil y m d Hm Hd). reflexivity.
  - rewrite UTC_fixed, LocalTime_fixed.
    replace (D' * msPerDay + 0 * 60000 + msPerDay - 0 * 60000) with ((D' + 1) * msPerDay) by lia.
    rewrite TimeClip_in_range by (unfold msPerDay; lia).
    rewrite local_fields, LocalTime_fixed.
    replace ((D' + 1) * msPerDay + 0 * 60000) with ((D' + 1) * msPerDay) by lia.
    rewrite Day_midnight. reflexivity.
Qed.

Lemma America_New_York_behind (t : Z) (isUTC : bool) :
  - msPerDay <= LocalTZA America_New_York t isUTC < 0.
Proof.
  unfold America_New_York, LocalTZA.
  match goal with |- context [if ?c then _ else _] => destruct c end;
    unfold msPerDay, msPerHour; lia.
Qed.

Lemma icsEvent_dates_follow_host_zone_witness :
  ics_start (icsEvent_of America_New_York (sample_event "Spring Cup" "2024-03-15"))
  = triple (2024, 3, 14)
  /\ ics_end (icsEvent_of America_New_York (sample_event "Spring Cup" "2024-03-15"))
     = triple (2024, 3, 15).
Proof.
  exact (proj1 (icsEvent_dates_follow_host_zone America_New_York
                  (sample_event "Spring Cup" "2024-03-15") 2024 3 15 2024 3 15
                  eq_refl eq_refl America_New_York_behind eq_refl)).
Defined.

(** ** Export: the calendar link *)

(** The link builder always returns a string, and that string is the
    placeholder whenever a step inside it throws. *)
Lemma generateGoogleCalendarUrl_placeholder (host : TimeZone) (event : EventRecord)
  (userTimezone : string) (e : exn) :
  googleCalendarParams host event = Throw e ->
  generateGoogleCalendarUrl host event userTimezone = "#".
Proof. intros H. unfold generateGoogleCalendarUrl. rewrite H. reflexivity. Qed.

(** A record without a start date, or whose end date is not a date,
    gets the placeholder. *)
Lemma generateGoogleCalendarUrl_bad_dates (host : TimeZone) (event : EventRecord)
  (userTimezone : string) :
  (forall s, start_date event <> JString s) \/ new_Date (end_date event) = NaN ->
  generateGoogleCalendarUrl host event userTimezone = "#".
Proof.
  intros [H|H]; unfold generateGoogleCalendarUrl, googleCalendarParams.
  - destruct (start_date event) as [| |s]; try reflexivity. destruct (H s eq_refl).
  - rewrite H. destruct (as_object (start_date event)); reflexivity.
Qed.

(** The link of an event on 2024-03-15, on a host in New York and on a
    host in any zone that keeps one offset: the end is the 16th. *)
Lemma calendar_link_example :
  param "dates" (try_catch (googleCalendarParams America_New_York
                              (sample_event "Spring Cup" "2024-03-15")) (fun _ => []))
  = Some "20240315/20240316"
  /\ forall minutes,
       googleCalendarParams (fixed_zone minutes) (sample_event "Spring Cup" "2024-03-15")
       = googleCalendarParams (fixed_zone 0) (sample_event "Spring Cup" "2024-03-15")
       /\ param "dates" (try_catch (googleCalendarParams (fixed_zone minutes)
                                      (sample_event "Spring Cup" "2024-03-15")) (fun _ => []))
          = Some "20240315/20240316".
Proof.
  split; [vm_compute; reflexivity|].
  intros minutes.
  assert (E : googleCalendarParams (fixed_zone minutes) (sample_event "Spring Cup" "2024-03-15")
              = googleCalendarParams (fixed_zone 0) (sample_event "Spring Cup" "2024-03-15")).
  { unfold googleCalendarParams.
    destruct (new_Date (end_date (sample_event "Spring Cup" "2024-03-15"))) as [t0|];
      [|reflexivity].
    rewrite !setDate_next_day, !UTC_fixed, !LocalTime_fixed.
    replace (t0 + minutes * 60000 + msPerDay - minutes * 60000)
      with (t0 + 0 * 60000 + msPerDay - 0 * 60000) by lia.
    reflexivity. }
  split; [exact E|]. rewrite E. vm_compute. reflexivity.
Qed.

(** C6. On a host in New York, the link of an event that ends on
    2024-03-10, the day the clocks go forward, carries the end
    2024-03-10: the day after is missing. *)
Theorem calendar_link_spring_forward :
  exists params,
    googleCalendarParams America_New_York (sample_event "Spring Cup" "2024-03-10")
    = Ok params
    /\ param "dates" params = Some "20240310/20240310"
    /\ generateGoogleCalendarUrl America_New_York (sample_event "Spring Cup" "2024-03-10")
         "America/New_York"
       = "https://calendar.google.com/calendar/render?" ++ URLSearchParams_toString params.
Proof. eexists. split; [vm_compute; reflexivity|]. split; vm_compute; reflexivity. Qed.

(** ** Export: the bulk file *)

Lemma index_ge (s1 s2 : string) :
  forall n m, index n s1 s2 = Some m -> (n <= m)%nat.
Proof.
  induction s2 as [|c s2 IH]; intros n m; destruct n as [|n]; cbn [index].
  - intros _. lia.
  - discriminate.
  - intros _. lia.
  - destruct (index n s1 s2) as [k|] eqn:E; [|discriminate].
    intros H. injection H as <-. apply IH in E. lia.
Qed.

Lemma substring_split (s : string) :
  forall i a b, substring i (a + b) s = substring i a s ++ substring (i + a) b s.
Proof.
  induction s as [|c s IH]; intros i a b.
  - destruct i, a, b; reflexivity.
  - destruct i as [|i].
    + destruct a as [|a]; [reflexivity|].
      cbn [Nat.add substring append]. rewrite (IH 0%nat a b). reflexivity.
    + cbn [Nat.add substring]. apply IH.
Qed.

Lemma match_VEVENT_shape (v block : string) :
  match_VEVENT v = Some block ->
  exists body, block = "BEGIN:VEVENT" ++ body ++ "END:VEVENT".
Proof.
  unfold match_VEVENT.
  destruct (index 0 "BEGIN:VEVENT" v) as [i|] eqn:Ei; [|discriminate].
  destruct (index (i + 12) "END:VEVENT" v) as [j|] eqn:Ej; [|discriminate].
  intros H. injection H as <-.
  pose proof (index_ge _ _ _ _ Ej) as Hij.
  apply index_correct1 in Ei, Ej. cbn [String.length] in Ei, Ej.
  exists (substring (i + 12) (j - i - 12) v).
  replace (j + 10 - i)%nat with (12 + ((j - i - 12) + 10))%nat by lia.
  rewrite !substring_split, Ei.
  replace (i + 12 + (j - i - 12))%nat with j by lia.
  rewrite Ej. reflexivity.
Qed.

Lemma substring_prefix (s tail : string) : substring 0 (String.length s) (s ++ tail) = s.
Proof. induction s as [|c s IH]; cbn [String.length append substring]; [|rewrite IH]; [|reflexivity].
  destruct tail; reflexivity.
Qed.

(** [s] stands in [head ++ s ++ tail] right after [head]. *)
Lemma substring_occurrence (head s tail : string) :
  substring (String.length head) (String.length s) (head ++ s ++ tail) = s.
Proof.
  replace (String.length head) with (String.length head + 0)%nat by lia.
  rewrite substring_append_skip. apply substring_prefix.
Qed.

(** A search from [n] finds a word that stands at [q], no later than
    there. *)
Lemma index_finds (word v : string) (n q : nat) :
  word <> "" -> (n <= q)%nat -> substring q (String.length word) v = word ->
  exists i, index n word v = Some i /\ (n <= i)%nat /\ (i <= q)%nat.
Proof.
  intros Hne Hnq Hq. destruct (index n word v) as [i|] eqn:E.
  - exists i. split; [reflexivity|]. split; [exact (index_ge _ _ _ _ E)|].
    destruct (Nat.le_gt_cases i q) as [Hle|Hgt]; [exact Hle|].
    destruct (index_correct2 _ _ _ _ E q Hnq Hgt Hq).
  - destruct (index_correct3 _ q _ _ E Hne Hnq Hq).
Qed.

(** A text that holds [BEGIN:VEVENT] and, later, [END:VEVENT] has a
    match. *)
Lemma match_VEVENT_found (head body tail : string) :
  exists block,
    match_VEVENT (head ++ "BEGIN:VEVENT" ++ body ++ "END:VEVENT" ++ tail) = Some block.
Proof.
  set (v := head ++ "BEGIN:VEVENT" ++ body ++ "END:VEVENT" ++ tail).
  destruct (index_finds "BEGIN:VEVENT" v 0 (String.length head)) as (i & Ei & _ & Hi).
  - discriminate.
  - lia.
  - exact (substring_occurrence head "BEGIN:VEVENT" (body ++ "END:VEVENT" ++ tail)).
  - destruct (index_finds "END:VEVENT" v (i + 12)
                (String.length (head ++ "BEGIN:VEVENT" ++ body))) as (j & Ej & _).
    + discriminate.
    + rewrite !length_append. cbn [String.length]. lia.
    + unfold v.
      replace (head ++ "BEGIN:VEVENT" ++ body ++ "END:VEVENT" ++ tail)
        with ((head ++ "BEGIN:VEVENT" ++ body) ++ "END:VEVENT" ++ tail)
        by (rewrite !append_assoc; reflexivity).
      exact (substring_occurrence (head ++ "BEGIN:VEVENT" ++ body) "END:VEVENT" tail).
    + unfold match_VEVENT. fold v. rewrite Ei, Ej. eexists. reflexivity.
Qed.

(** What [match_VEVENT] returns is the first block of the text. *)
Lemma match_VEVENT_first_block (v block : string) :
  match_VEVENT v = Some block -> first_block v block.
Proof.
  unfold match_VEVENT.
  destruct (index 0 "BEGIN:VEVENT" v) as [i|] eqn:Ei; [|discriminate].
  destruct (index (i + 12) "END:VEVENT" v) as [j|] eqn:Ej; [|discriminate].
  intros H. injection H as <-. exists i, j.
  split; [exact (index_correct1 _ _ _ _ Ei)|].
  split; [intros p Hp; apply (index_correct2 _ _ _ _ Ei p); [lia|exact Hp]|].
  split; [exact (index_ge _ _ _ _ Ej)|].
  split; [exact (index_correct1 _ _ _ _ Ej)|].
  split; [intros p Hp Hpj; exact (index_correct2 _ _ _ _ Ej p Hp Hpj)|reflexivity].
Qed.

Section BulkFacts.
Variable host : TimeZone.
Variable createEvent : IcsEvent -> result IcsReturn.

Lemma add_event_block (userTimezone : string) (icsContent : string) (eventCount : Z)
  (event : EventRecord) :
  add_event host createEvent userTimezone (icsContent, eventCount) event
  = match vevent_block host createEvent event userTimezone with
    | Some block => (icsContent ++ block ++ newline, eventCount + 1)
    | None => (icsContent, eventCount)
    end.
Proof.
  unfold add_event, vevent_block.
  destruct (error_truthy (error (generateICSContent host createEvent event userTimezone)));
    [reflexivity|].
  destruct (value (generateICSContent host createEvent event userTimezone)) as [| |v];
    try reflexivity.
  simpl. destruct (match_VEVENT v); reflexivity.
Qed.

Lemma concat_cons_line (block : string) (rest : list string) :
  block_lines (block :: rest) = (block ++ newline) ++ block_lines rest.
Proof.
  unfold block_lines. simpl. destruct (map _ rest) as [|x xs] eqn:E.
  - simpl. symmetry. apply append_empty_r.
  - reflexivity.
Qed.

Lemma bulk_fold (userTimezone : string) (events : list EventRecord) :
  forall icsContent eventCount,
    fold_left (add_event host createEvent userTimezone) events (icsContent, eventCount)
    = (icsContent ++ block_lines (vevent_blocks host createEvent events userTimezone),
       eventCount + array_length (vevent_blocks host createEvent events userTimezone)).
Proof.
  induction events as [|event events IH]; intros icsContent eventCount.
  - simpl. unfold block_lines, array_length. simpl.
    rewrite append_empty_r. f_equal. lia.
  - cbn [fold_left]. rewrite add_event_block.
    unfold vevent_blocks. simpl flat_map. fold (vevent_blocks host createEvent events userTimezone).
    destruct (vevent_block host createEvent event userTimezone) as [block|].
    + rewrite IH. simpl app. rewrite concat_cons_line, !append_assoc.
      f_equal. unfold array_length. cbn [List.length]. lia.
    + rewrite IH. reflexivity.
Qed.

Lemma vevent_blocks_unfold (userTimezone : string) (event : EventRecord)
  (events : list EventRecord) :
  vevent_blocks host createEvent (event :: events) userTimezone
  = match vevent_block host createEvent event userTimezone with
    | Some block => block :: vevent_blocks host createEvent events userTimezone
    | None => vevent_blocks host createEvent events userTimezone
    end.
Proof.
  unfold vevent_blocks. cbn [flat_map].
  destruct (vevent_block host createEvent event userTimezone); reflexivity.
Qed.

(** An event for which the library reports no success adds no block. *)
Lemma vevent_block_failure (userTimezone : string) (event : EventRecord) :
  reports_success host createEvent event = false ->
  vevent_block host createEvent event userTimezone = None.
Proof.
  unfold reports_success, vevent_block, generateICSContent.
  destruct (createEvent (icsEvent_of host event)) as [r|e]; cbn [try_catch error value].
  - intros H. apply negb_false_iff in H. rewrite H. reflexivity.
  - intros _. destruct (error_truthy _); reflexivity.
Qed.

(** An event for which it reports success, with a text that holds a
    block, adds the first block of that text. *)
Lemma vevent_block_success (userTimezone : string) (event : EventRecord) (r : IcsReturn)
  (head body tail : string) :
  createEvent (icsEvent_of host event) = Ok r ->
  error_truthy (error r) = false ->
  value r = JString (head ++ "BEGIN:VEVENT" ++ body ++ "END:VEVENT" ++ tail) ->
  exists block,
    vevent_block host createEvent event userTimezone = Some block
    /\ first_block (head ++ "BEGIN:VEVENT" ++ body ++ "END:VEVENT" ++ tail) block
    /\ exists inner, block = "BEGIN:VEVENT" ++ inner ++ "END:VEVENT".
Proof.
  intros Hr Herr Hv.
  destruct (match_VEVENT_found head body tail) as [block Hb].
  exists block. split; [|split].
  - unfold vevent_block, generateICSContent. rewrite Hr. cbn [try_catch].
    rewrite Herr, Hv. exact Hb.
  - apply match_VEVENT_first_block. exact Hb.
  - exact (match_VEVENT_shape _ _ Hb).
Qed.

(** C7. Bulk export, for a library whose text for an event it reports
    no error for holds a [VEVENT] block: the combined document is the
    header followed by one block for each event for which the library
    reports success, in the order of the input, one to a line; each
    block is the first stretch from [BEGIN:VEVENT] to [END:VEVENT] of
    that event's own serialisation, and opens and closes with these
    words; an event whose serialisation fails adds nothing to the
    document, which is the one that the successful events alone give;
    the count kept alongside is the number of events that serialised;
    and when that count is zero the user is told that no valid events
    were found and no file is produced, otherwise the document is closed
    and downloaded. *)
Theorem bulk_export_keeps_only_serialized (events : list EventRecord)
  (userTimezone : string) :
  (forall event r,
     In event events ->
     createEvent (icsEvent_of host event) = Ok r ->
     error_truthy (error r) = false ->
     exists head body tail,
       value r = JString (head ++ "BEGIN:VEVENT" ++ body ++ "END:VEVENT" ++ tail)) ->
  let succeeded := filter (reports_success host createEvent) events in
  exists blocks,
    bulk_loop host createEvent events userTimezone
    = (ics_header ++ block_lines blocks, array_length succeeded)
    /\ Forall2
         (fun event block =>
            exists r v,
              createEvent (icsEvent_of host event) = Ok r
              /\ value r = JString v
              /\ first_block v block
              /\ exists inner, block = "BEGIN:VEVENT" ++ inner ++ "END:VEVENT")
         succeeded blocks
    /\ bulk_loop host createEvent succeeded userTimezone
       = bulk_loop host createEvent events userTimezone
    /\ downloadMultipleEventsICS host createEvent events userTimezone
       = if array_length succeeded =? 0
         then Alert "Could not generate the .ics file. No valid events found."
         else Download "youth_sports_events.ics" "text/calendar;charset=utf-8"
                       (ics_header ++ block_lines blocks ++ "END:VCALENDAR").
Proof.
  intros Hlib succeeded.
  set (blocks := vevent_blocks host createEvent events userTimezone).
  assert (Hblocks :
    Forall2
      (fun event block =>
         exists r v,
           createEvent (icsEvent_of host event) = Ok r
           /\ value r = JString v
           /\ first_block v block
           /\ exists inner, block = "BEGIN:VEVENT" ++ inner ++ "END:VEVENT")
      succeeded blocks
    /\ vevent_blocks host createEvent succeeded userTimezone = blocks).
  { subst succeeded blocks. induction events as [|event events IH].
    - split; [constructor|reflexivity].
    - destruct IH as [IH1 IH2]; [intros e r He; apply Hlib; right; exact He|].
      cbn [filter]. rewrite (vevent_blocks_unfold userTimezone event events).
      destruct (reports_success host createEvent event) eqn:Es.
      + assert (Hr : exists r, createEvent (icsEvent_of host event) = Ok r
                               /\ error_truthy (error r) = false).
        { unfold reports_success in Es.
          destruct (createEvent (icsEvent_of host event)) as [r|e]; [|discriminate].
          exists r. split; [reflexivity|]. apply negb_true_iff. exact Es. }
        destruct Hr as (r & Hr & Herr).
        destruct (Hlib event r (or_introl eq_refl) Hr Herr) as (head & body & tail & Hv).
        destruct (vevent_block_success userTimezone event r head body tail Hr Herr Hv)
          as (block & Hb & Hfirst & Hshape).
        rewrite vevent_blocks_unfold, Hb. split.
        * constructor; [|exact IH1].
          exists r, (head ++ "BEGIN:VEVENT" ++ body ++ "END:VEVENT" ++ tail).
          repeat split; assumption.
        * f_equal. exact IH2.
      + rewrite (vevent_block_failure userTimezone event Es). split; assumption. }
  destruct Hblocks as [HF Hsame].
  assert (Hcount : array_length blocks = array_length succeeded).
  { unfold array_length. rewrite (Forall2_length HF). reflexivity. }
  assert (Hloop : bulk_loop host createEvent events userTimezone
                  = (ics_header ++ block_lines blocks, array_length succeeded)).
  { unfold bulk_loop. rewrite bulk_fold. fold blocks. rewrite Hcount. reflexivity. }
  exists blocks. split; [exact Hloop|]. split; [exact HF|]. split.
  - rewrite Hloop. unfold bulk_loop. rewrite bulk_fold, Hsame, Hcount. reflexivity.
  - unfold downloadMultipleEventsICS. rewrite Hloop.
    destruct (array_length succeeded =? 0); [reflexivity|].
    rewrite append_assoc. reflexivity.
Qed.
End BulkFacts.

Lemma digit_char_not_dash (n : Z) : (digit_char n =? "-")%char = false.
Proof.
  unfold digit_char. pose proof (Z.mod_pos_bound n 10 ltac:(lia)) as H.
  assert (E : n mod 10 = 0 \/ n mod 10 = 1 \/ n mod 10 = 2 \/ n mod 10 = 3 \/ n mod 10 = 4
              \/ n mod 10 = 5 \/ n mod 10 = 6 \/ n mod 10 = 7 \/ n mod 10 = 8 \/ n mod 10 = 9)
    by lia.
  repeat destruct E as [E|E]; rewrite E; reflexivity.
Qed.

(** The date of [toISOString], without its dashes. *)
Lemma toISOString_date (day : Z) (y m d : Z) :
  civil_from_days day = (y, m, d) -> 0 <= y <= 9999 ->
  exists iso, toISOString (Some (day * msPerDay)) = Ok iso
              /\ remove_dashes (substr0 10 iso) = yyyymmdd (y, m, d).
Proof.
  intros E Hy. unfold toISOString. rewrite Day_midnight, E.
  replace ((0 <=? y) && (y <=? 9999)) with true
    by (symmetry; apply andb_true_iff; split; apply Z.leb_le; lia).
  eexists. split; [reflexivity|].
  unfold yyyymmdd, substr0. cbn [digits append substring remove_dashes].
  rewrite !digit_char_not_dash. reflexivity.
Qed.

(** Where the host's offset is the same one day later, the link's end is
    the day after the stored [end_date]. *)
Lemma calendar_link_steady_offset (host : TimeZone) (event : EventRecord) (s : string)
  (y m d y1 m1 d1 : Z) :
  start_date event = JString s ->
  date_text (end_date event) = Some (y, m, d) ->
  civil_from_days (days_from_civil y m d + 1) = (y1, m1, d1) -> 0 <= y1 <= 9999 ->
  LocalTZA host (LocalTime host (days_from_civil y m d * msPerDay) + msPerDay) false
  = LocalTZA host (days_from_civil y m d * msPerDay) true ->
  exists params,
    googleCalendarParams host event = Ok params
    /\ param "dates" params = Some (remove_dashes s ++ "/" ++ yyyymmdd (y1, m1, d1)).
Proof.
  intros Hs He E Hy Hsteady.
  destruct (date_text_valid _ _ _ _ He) as [Hm Hd].
  pose proof (days_from_civil_bounds y m d Hm Hd (date_text_year _ _ _ _ He)) as Hb.
  unfold googleCalendarParams. rewrite Hs, (new_Date_date_text _ _ _ _ He).
  rewrite setDate_next_day. unfold UTC. rewrite Hsteady. unfold LocalTime.
  set (D := days_from_civil y m d) in *.
  replace (D * msPerDay + LocalTZA host (D * msPerDay) true + msPerDay
           - LocalTZA host (D * msPerDay) true) with ((D + 1) * msPerDay) by lia.
  rewrite TimeClip_in_range by (unfold msPerDay; lia).
  destruct (toISOString_date (D + 1) y1 m1 d1 E Hy) as (iso & Hiso & Hdate).
  cbn [as_object bind]. rewrite Hiso. cbn [bind].
  eexists. split; [reflexivity|]. cbn [param String.eqb Ascii.eqb Bool.eqb].
  rewrite Hdate. reflexivity.
Qed.

(** With such a serialiser, a list of three events of which one has a
    date that does not parse yields a file with the two other blocks;
    a list without a valid event, or without events, yields the
    notice. *)
Lemma bulk_export_example :
  bulk_loop (fixed_zone 0) strict_createEvent three_events "UTC"
  = (ics_header
     ++ "BEGIN:VEVENT" ++ crlf ++ "SUMMARY:Spring Cup" ++ crlf
     ++ "DTSTART;VALUE=DATE:20240315" ++ crlf ++ "DTEND;VALUE=DATE:20240316" ++ crlf
     ++ "END:VEVENT" ++ newline
     ++ "BEGIN:VEVENT" ++ crlf ++ "SUMMARY:Autumn Cup" ++ crlf
     ++ "DTSTART;VALUE=DATE:20241005" ++ crlf ++ "DTEND;VALUE=DATE:20241006" ++ crlf
     ++ "END:VEVENT" ++ newline,
     array_length three_events - 1)
  /\ downloadMultipleEventsICS (fixed_zone 0) strict_createEvent
       [sample_event "Summer Cup" "soon"] "UTC"
     = Alert "Could not generate the .ics file. No valid events found."
  /\ downloadMultipleEventsICS (fixed_zone 0) strict_createEvent [] "UTC"
     = Alert "Could not generate the .ics file. No valid events found.".
Proof. repeat split; vm_compute; reflexivity. Qed.

Lemma bulk_export_keeps_only_serialized_witness :
  exists blocks,
    bulk_loop (fixed_zone 0) strict_createEvent three_events "UTC"
    = (ics_header ++ block_lines blocks,
       array_length (filter (reports_success (fixed_zone 0) strict_createEvent) three_events))
    /\ Forall2
         (fun event block =>
            exists r v,
              strict_createEvent (icsEvent_of (fixed_zone 0) event) = Ok r
              /\ value r = JString v
              /\ first_block v block
              /\ exists inner, block = "BEGIN:VEVENT" ++ inner ++ "END:VEVENT")
         (filter (reports_success (fixed_zone 0) strict_createEvent) three_events) blocks
    /\ bulk_loop (fixed_zone 0) strict_createEvent
         (filter (reports_success (fixed_zone 0) strict_createEvent) three_events) "UTC"
       = bulk_loop (fixed_zone 0) strict_createEvent three_events "UTC"
    /\ downloadMultipleEventsICS (fixed_zone 0) strict_createEvent three_events "UTC"
       = if array_length (filter (reports_success (fixed_zone 0) strict_createEvent) three_events)
            =? 0
         then Alert "Could not generate the .ics file. No valid events found."
         else Download "youth_sports_events.ics" "text/calendar;charset=utf-8"
                       (ics_header ++ block_lines blocks ++ "END:VCALENDAR").
Proof.
  apply (bulk_export_keeps_only_serialized (fixed_zone 0) strict_createEvent three_events "UTC").
  intros event r [<-|[<-|[<-|[]]]] Hr; vm_compute in Hr; injection Hr as <-; intros Herr;
    try discriminate Herr.
  - exists ("BEGIN:VCALENDAR" ++ crlf ++ "VERSION:2.0" ++ crlf),
           (crlf ++ "SUMMARY:Spring Cup" ++ crlf ++ "DTSTART;VALUE=DATE:20240315" ++ crlf
            ++ "DTEND;VALUE=DATE:20240316" ++ crlf),
           (crlf ++ "END:VCALENDAR" ++ crlf).
    reflexivity.
  - exists ("BEGIN:VCALENDAR" ++ crlf ++ "VERSION:2.0" ++ crlf),
           (crlf ++ "SUMMARY:Autumn Cup" ++ crlf ++ "DTSTART;VALUE=DATE:20241005" ++ crlf
            ++ "DTEND;VALUE=DATE:20241006" ++ crlf),
           (crlf ++ "END:VCALENDAR" ++ crlf).
    reflexivity.
Defined.

(** * Further facts *)

(** ** Filtering: further facts *)

Lemma keeps_clear (event : EventRecord) : keeps "" clearAllFilters event = Ok true.
Proof. reflexivity. Qed.

Lemma filter_all {A : Type} (p : A -> bool) (l : list A) :
  (forall x, In x l -> p x = true) -> filter p l = l.
Proof.
  induction l as [|x xs IH]; simpl; intros H; [reflexivity|].
  rewrite (H x (or_introl eq_refl)), IH; [reflexivity|]. intros y Hy. apply H. right. exact Hy.
Qed.

Lemma filter_twice {A : Type} (p : A -> bool) (l : list A) :
  filter p (filter p l) = filter p l.
Proof.
  apply filter_all. intros x Hx. apply filter_In in Hx. tauto.
Qed.

Lemma hasActiveFilters_clear (filters : Filters.t) :
  hasActiveFilters filters = false <-> filters = clearAllFilters.
Proof.
  split.
  - destruct filters as [s l a g t [lo hi]]. unfold hasActiveFilters, nonempty. simpl.
    intros H. repeat (apply orb_false_iff in H; destruct H as [? H]).
    repeat match goal with
           | H : negb (?x =? "")%string = false |- _ =>
               apply negb_false_iff, String.eqb_eq in H; subst x
           | H : is_set ?b = false |- _ => destruct b; [discriminate H|clear H]
           | H : _ || _ = false |- _ => apply orb_false_iff in H; destruct H
           end.
    reflexivity.
  - intros ->. reflexivity.
Qed.

(** X1. With an empty search box and no criterion set, which is the case
    exactly when the Clear All button is not shown, every record is
    visible, in its place. *)
Theorem applyFilters_unconstrained (events : list EventRecord) (filters : Filters.t) :
  hasActiveFilters filters = false ->
  applyFilters events "" filters = Ok events.
Proof.
  intros H. apply hasActiveFilters_clear in H. subst filters.
  rewrite applyFilters_filter. f_equal. apply filter_all. intros x _. reflexivity.
Qed.

Lemma applyFilters_unconstrained_witness :
  applyFilters crowded_week "" clearAllFilters = Ok crowded_week.
Proof. exact (applyFilters_unconstrained crowded_week clearAllFilters eq_refl). Defined.

Lemma filter_kept_in_order {A : Type} (p : A -> bool) (l : list A) :
  kept_in_order (filter p l) l.
Proof.
  induction l as [|x xs IH]; simpl; [constructor|].
  destruct (p x); constructor; exact IH.
Qed.

(** X2. Filtering only removes records, leaving the others in the order
    of the input, and filtering the result again changes nothing. *)
Theorem applyFilters_stable (events : list EventRecord) (searchQuery : string)
  (filters : Filters.t) :
  exists visible,
    applyFilters events searchQuery filters = Ok visible
    /\ kept_in_order visible events
    /\ applyFilters visible searchQuery filters = Ok visible.
Proof.
  eexists. split; [apply applyFilters_filter|]. split.
  - apply filter_kept_in_order.
  - rewrite applyFilters_filter, filter_twice. reflexivity.
Qed.

Lemma strict_neq_false (v : jsval) (s : string) : strict_neq v s = false -> v = JString s.
Proof.
  destruct v as [| |x]; simpl; try discriminate.
  intros H. apply negb_false_iff, String.eqb_eq in H. subst. reflexivity.
Qed.

(** X3. Every visible record meets every criterion that is set: the
    selected sport, age, gender and event type are its own, exactly; its
    location contains the location typed, and its name, location or
    sport the search text, case ignored; and its date is on neither
    wrong side of a bound. *)
Theorem visible_meets_criteria (events : list EventRecord) (searchQuery : string)
  (filters : Filters.t) (visible : list EventRecord) :
  applyFilters events searchQuery filters = Ok visible ->
  forall event, In event visible ->
  In event events
  /\ (Filters.sport filters <> "" -> sport event = JString (Filters.sport filters))
  /\ (Filters.age filters <> "" -> age event = JString (Filters.age filters))
  /\ (Filters.gender filters <> "" -> gender event = JString (Filters.gender filters))
  /\ (Filters.eventType filters <> ""
      -> event_type event = JString (Filters.eventType filters))
  /\ (Filters.location filters <> ""
      -> includes (toLowerCase (or_default (location event) ""))
                  (toLowerCase (Filters.location filters)) = true)
  /\ (searchQuery <> ""
      -> includes (toLowerCase (or_default (name event) "")) (toLowerCase searchQuery) = true
         \/ includes (toLowerCase (or_default (location event) ""))
                     (toLowerCase searchQuery) = true
         \/ includes (toLowerCase (or_default (sport event) ""))
                     (toLowerCase searchQuery) = true)
  /\ (forall lo, Filters.start (Filters.dateRange filters) = Some lo
                 -> num_lt (new_Date (start_date event)) lo = false)
  /\ (forall hi, Filters.end_ (Filters.dateRange filters) = Some hi
                 -> num_gt (new_Date (start_date event)) hi = false).
Proof.
  rewrite applyFilters_filter. intros H event Hin. injection H as <-.
  apply filter_In in Hin as [Hin Hk]. split; [exact Hin|].
  unfold says_true, keeps in Hk. cbn [as_object bind] in Hk.
  assert (Hne : forall s, s <> "" -> nonempty s = true).
  { intros s Hs. unfold nonempty. apply negb_true_iff, String.eqb_neq. exact Hs. }
  destruct (nonempty searchQuery) eqn:Eq.
  - cbn [bind] in Hk.
    destruct (negb (includes (toLowerCase (or_default (name event) "")) (toLowerCase searchQuery))
              && negb (includes (toLowerCase (or_default (location event) ""))
                         (toLowerCase searchQuery))
              && negb (includes (toLowerCase (or_default (sport event) ""))
                         (toLowerCase searchQuery))) eqn:Em; [discriminate|].
    revert Hk.
    repeat match goal with
           | |- context [if ?c then Ok false else _] =>
               let E := fresh "E" in destruct c eqn:E; [discriminate|]
           end.
    intros Hk. repeat split.
    + intros Hs. rewrite (Hne _ Hs) in E. apply strict_neq_false. exact E.
    + intros Hs. rewrite (Hne _ Hs) in E1. apply strict_neq_false. exact E1.
    + intros Hs. rewrite (Hne _ Hs) in E2. apply strict_neq_false. exact E2.
    + intros Hs. rewrite (Hne _ Hs) in E3. apply strict_neq_false. exact E3.
    + intros Hs. rewrite (Hne _ Hs) in E0. apply negb_false_iff in E0. exact E0.
    + intros _. repeat (apply andb_false_iff in Em; destruct Em as [Em|Em]);
        apply negb_false_iff in Em; auto.
    + intros lo Hlo. rewrite Hlo in Hk. cbn [is_set orb andb before_bound] in Hk.
      destruct (num_lt (new_Date (start_date event)) lo); [discriminate|reflexivity].
    + intros hi Hhi. rewrite Hhi in Hk. rewrite orb_true_r in Hk.
      cbn [is_set andb after_bound] in Hk.
      destruct (is_set (Filters.start (Filters.dateRange filters))
                && before_bound (new_Date (start_date event))
                     (Filters.start (Filters.dateRange filters))); [discriminate|].
      destruct (num_gt (new_Date (start_date event)) hi); [discriminate|reflexivity].
  - cbn [bind] in Hk. revert Hk.
    repeat match goal with
           | |- context [if ?c then Ok false else _] =>
               let E := fresh "E" in destruct c eqn:E; [discriminate|]
           end.
    intros Hk. repeat split.
    + intros Hs. rewrite (Hne _ Hs) in E. apply strict_neq_false. exact E.
    + intros Hs. rewrite (Hne _ Hs) in E1. apply strict_neq_false. exact E1.
    + intros Hs. rewrite (Hne _ Hs) in E2. apply strict_neq_false. exact E2.
    + intros Hs. rewrite (Hne _ Hs) in E3. apply strict_neq_false. exact E3.
    + intros Hs. rewrite (Hne _ Hs) in E0. apply negb_false_iff in E0. exact E0.
    + intros Hs. rewrite (Hne _ Hs) in Eq. discriminate.
    + intros lo Hlo. rewrite Hlo in Hk. cbn [is_set orb andb before_bound] in Hk.
      destruct (num_lt (new_Date (start_date event)) lo); [discriminate|reflexivity].
    + intros hi Hhi. rewrite Hhi in Hk. rewrite orb_true_r in Hk.
      cbn [is_set andb after_bound] in Hk.
      destruct (is_set (Filters.start (Filters.dateRange filters))
                && before_bound (new_Date (start_date event))
                     (Filters.start (Filters.dateRange filters))); [discriminate|].
      destruct (num_gt (new_Date (start_date event)) hi); [discriminate|reflexivity].
Qed.

Lemma visible_meets_criteria_witness :
  sport (sample_event "Zeta" "2024-03-15") = JString "Soccer"
  /\ includes (toLowerCase (or_default (location (sample_event "Zeta" "2024-03-15")) ""))
       (toLowerCase "bos") = true.
Proof.
  assert (H : applyFilters crowded_week "CUP" soccer_only = Ok []) by reflexivity.
  assert (H' : applyFilters crowded_week "zet" soccer_only
               = Ok [sample_event "Zeta" "2024-03-15"]) by reflexivity.
  pose proof (visible_meets_criteria crowded_week "zet" soccer_only _ H'
                (sample_event "Zeta" "2024-03-15") (or_introl eq_refl)) as (_ & Hs & _ & _ & _ & Hl & _).
  split; [apply Hs; discriminate|apply Hl; discriminate].
Defined.

Lemma toLowerCase_empty (s : string) : toLowerCase s = "" -> s = "".
Proof. destruct s; [reflexivity|discriminate]. Qed.

Lemma nonempty_lower (q q' : string) :
  toLowerCase q = toLowerCase q' -> nonempty q = nonempty q'.
Proof.
  intros H. unfold nonempty. destruct q, q'; try reflexivity; discriminate.
Qed.

Lemma filterM_ext {A : Type} (f g : A -> result bool) (l : list A) :
  (forall x, f x = g x) -> filterM f l = filterM g l.
Proof. intros H. induction l as [|x xs IH]; simpl; [|rewrite H, IH]; reflexivity. Qed.

(** X4. The search ignores the case of what is typed: two search texts
    that differ only in case show the same records. *)
Theorem search_ignores_case (events : list EventRecord) (q q' : string)
  (filters : Filters.t) :
  toLowerCase q = toLowerCase q' ->
  applyFilters events q filters = applyFilters events q' filters.
Proof.
  intros H. unfold applyFilters. apply filterM_ext. intros event.
  unfold keeps. rewrite H, (nonempty_lower q q' H). reflexivity.
Qed.

Lemma search_ignores_case_witness :
  applyFilters crowded_week "ZeTa" clearAllFilters
  = applyFilters crowded_week "zeta" clearAllFilters.
Proof. exact (search_ignores_case crowded_week "ZeTa" "zeta" clearAllFilters eq_refl). Defined.

Lemma keeps_range_only (lo hi : option Date) (event : EventRecord) :
  keeps "" (range_only lo hi) event
  = Ok (negb (before_bound (new_Date (start_date event)) lo
              || after_bound (new_Date (start_date event)) hi)).
Proof.
  unfold keeps. simpl. destruct lo as [lo|], hi as [hi|]; simpl;
    repeat match goal with
           | |- context [if ?c then _ else _] => destruct c
           end; reflexivity.
Qed.

(** X5. The date range is closed at both ends: with a range alone set,
    from the day [lo] to the day [hi] as the date inputs give them, a
    record with a well-formed [start_date] is visible exactly when its
    day is neither before [lo] nor after [hi]. *)
Theorem dateRange_is_inclusive (events : list EventRecord) (lo hi : jsval)
  (event : EventRecord) (y m d yl ml dl yh mh dh : Z) :
  In event events ->
  date_text (start_date event) = Some (y, m, d) ->
  date_text lo = Some (yl, ml, dl) -> date_text hi = Some (yh, mh, dh) ->
  exists visible,
    applyFilters events "" (range_only (Some (new_Date lo)) (Some (new_Date hi))) = Ok visible
    /\ (In event visible
        <-> days_from_civil yl ml dl <= days_from_civil y m d <= days_from_civil yh mh dh).
Proof.
  intros Hin He Hlo Hhi. eexists. split; [apply applyFilters_filter|].
  rewrite filter_In, keeps_range_only.
  rewrite (new_Date_date_text _ _ _ _ He), (new_Date_date_text _ _ _ _ Hlo),
          (new_Date_date_text _ _ _ _ Hhi).
  unfold before_bound, after_bound, num_gt, num_lt.
  set (D := days_from_civil y m d). set (L := days_from_civil yl ml dl).
  set (H := days_from_civil yh mh dh).
  assert (Hs : forall b, says_true (Ok b) = b) by (intros []; reflexivity).
  rewrite Hs, negb_true_iff, orb_false_iff, !Z.ltb_ge.
  unfold msPerDay. split; [intros (_ & ? & ?)|intros ?; split; [exact Hin|]]; lia.
Qed.

Lemma dateRange_is_inclusive_witness :
  exists visible,
    applyFilters crowded_week ""
      (range_only (Some (new_Date (JString "2024-03-15"))) (Some (new_Date (JString "2024-03-15"))))
    = Ok visible
    /\ In (sample_event "Zeta" "2024-03-15") visible.
Proof.
  destruct (dateRange_is_inclusive crowded_week (JString "2024-03-15") (JString "2024-03-15")
              (sample_event "Zeta" "2024-03-15") 2024 3 15 2024 3 15 2024 3 15
              (or_introl eq_refl) eq_refl eq_refl eq_refl) as (visible & Hv & H).
  exists visible. split; [exact Hv|]. apply H. vm_compute. split; discriminate.
Defined.

(** X6. A record whose [start_date] is [null] is filtered as if it were
    dated 1 January 1970: a range that starts later hides it, and a
    range with an end alone, on or after that day, shows it. *)
Theorem null_start_date_is_epoch (events : list EventRecord) (lo hi : option Date)
  (event : EventRecord) :
  In event events -> start_date event = JNull ->
  exists visible,
    applyFilters events "" (range_only lo hi) = Ok visible
    /\ (In event visible
        <-> before_bound (Some 0) lo = false /\ after_bound (Some 0) hi = false).
Proof.
  intros Hin Hnull. eexists. split; [apply applyFilters_filter|].
  rewrite filter_In, keeps_range_only, Hnull. simpl new_Date.
  assert (Hs : forall b, says_true (Ok b) = b) by (intros []; reflexivity).
  rewrite Hs, negb_true_iff, orb_false_iff. tauto.
Qed.

Lemma null_start_date_is_epoch_witness :
  exists visible,
    applyFilters [undated_event] "" (range_only (Some (new_Date (JString "2024-03-01"))) None)
    = Ok visible
    /\ ~ In undated_event visible.
Proof.
  destruct (null_start_date_is_epoch [undated_event]
              (Some (new_Date (JString "2024-03-01"))) None undated_event
              (or_introl eq_refl) eq_refl) as (visible & Hv & H).
  exists visible. split; [exact Hv|]. intros Hin. apply H in Hin. destruct Hin. discriminate.
Defined.

(** ** Strings in code-unit order *)

Lemma compare_code_units (a : string) :
  forall b, String.compare a b = lex_compare (code_units a) (code_units b).
Proof.
  unfold code_units. induction a as [|x a IH]; intros [|y b]; simpl; try reflexivity.
  unfold Ascii.compare. destruct (N_of_ascii x ?= N_of_ascii y)%N; auto.
Qed.

Lemma string_compare_trans (a b c : string) :
  String.compare a b = Lt -> String.compare b c = Lt -> String.compare a c = Lt.
Proof. rewrite !compare_code_units. apply lex_compare_trans. Qed.

Lemma string_compare_antisym (a b : string) :
  String.compare b a = CompOpp (String.compare a b).
Proof. rewrite !compare_code_units. apply lex_compare_antisym. Qed.

Lemma string_compare_eq (a b : string) : String.compare a b = Eq -> a = b.
Proof. apply String.compare_eq_iff. Qed.

Lemma string_compare_refl (a : string) : String.compare a a = Eq.
Proof. rewrite compare_code_units. apply lex_compare_refl. Qed.

(** The rank [<], [>], else equal, as the sign of the comparison. *)
Lemma string_rank (a b : string) :
  (if string_lt a b then -1 else if string_lt b a then 1 else 0)
  = sign_of (String.compare a b).
Proof.
  unfold string_lt. rewrite (string_compare_antisym a b).
  destruct (String.compare a b); reflexivity.
Qed.

Lemma sign_compare_total (a b : string) :
  0 < sign_of (String.compare a b) -> sign_of (String.compare b a) <= 0.
Proof. rewrite (string_compare_antisym a b). destruct (String.compare a b); simpl; lia. Qed.

Lemma sign_compare_trans (a b c : string) :
  sign_of (String.compare a b) <= 0 -> sign_of (String.compare b c) <= 0 ->
  sign_of (String.compare a c) <= 0.
Proof.
  destruct (String.compare a b) eqn:Eab; simpl; try lia; intros _;
    destruct (String.compare b c) eqn:Ebc; simpl; try lia; intros _.
  - apply string_compare_eq in Eab, Ebc. subst. rewrite string_compare_refl. simpl. lia.
  - apply string_compare_eq in Eab. subst. rewrite Ebc. simpl. lia.
  - apply string_compare_eq in Ebc. subst. rewrite Eab. simpl. lia.
  - rewrite (string_compare_trans _ _ _ Eab Ebc). simpl. lia.
Qed.

(** ** Filter controls *)

Lemma same_value_eq (a b : jsval) : same_value a b = true <-> a = b.
Proof.
  destruct a as [| |x], b as [| |y]; simpl; split; intros H;
    try reflexivity; try discriminate.
  - apply String.eqb_eq in H. subst. reflexivity.
  - injection H as ->. apply String.eqb_refl.
Qed.

Lemma existsb_same_value (v : jsval) (seen : list jsval) :
  existsb (same_value v) seen = true <-> In v seen.
Proof.
  rewrite existsb_exists. split.
  - intros (x & Hx & E). apply same_value_eq in E. subst. exact Hx.
  - intros H. exists v. split; [exact H|]. apply same_value_eq. reflexivity.
Qed.

Lemma Set_values_spec (array : list jsval) :
  forall seen,
    NoDup (Set_values seen array)
    /\ forall v, In v (Set_values seen array) <-> In v array /\ ~ In v seen.
Proof.
  induction array as [|x xs IH]; intros seen; simpl.
  - split; [constructor|]. tauto.
  - destruct (existsb (same_value x) seen) eqn:E.
    + apply existsb_same_value in E. destruct (IH seen) as [Hnd Hin].
      split; [exact Hnd|]. intros v. rewrite Hin. split; [tauto|].
      intros [[<-|Hv] Hns]; [contradiction|tauto].
    + assert (Hx : ~ In x seen).
      { intros H. apply existsb_same_value in H. congruence. }
      destruct (IH (x :: seen)) as [Hnd Hin]. split.
      * constructor; [|exact Hnd]. rewrite Hin. simpl. tauto.
      * intros v. simpl. rewrite Hin. simpl.
        destruct (same_value v x) eqn:Ev.
        -- apply same_value_eq in Ev. subst. tauto.
        -- assert (x <> v).
           { intros ->. rewrite (proj2 (same_value_eq v v) eq_refl) in Ev. discriminate. }
           tauto.
Qed.

Lemma truthy_string (v : jsval) : truthy v = true -> exists s, v = JString s /\ s <> "".
Proof.
  destruct v as [| |s]; simpl; try discriminate. intros H. exists s.
  split; [reflexivity|]. apply negb_true_iff, String.eqb_neq in H. exact H.
Qed.

Lemma default_compare_rank (a b : jsval) :
  truthy a = true -> truthy b = true ->
  default_compare a b = Ok (sign_of (String.compare (template a) (template b))).
Proof.
  intros Ha Hb. destruct (truthy_string a Ha) as (x & -> & _).
  destruct (truthy_string b Hb) as (y & -> & _).
  unfold default_compare. simpl template. rewrite <- string_rank.
  destruct (string_lt x y); [reflexivity|]. destruct (string_lt y x); reflexivity.
Qed.

Lemma StronglySorted_strict {A : Type} (R S : A -> A -> Prop) (l : list A) :
  (forall a b, In a l -> In b l -> R a b -> a <> b -> S a b) ->
  NoDup l -> StronglySorted R l -> StronglySorted S l.
Proof.
  intros H Hnd Hs. induction Hs as [|x l Hl IH Hx]; [constructor|].
  inversion Hnd as [|? ? Hnin Hnd']; subst. constructor.
  - apply IH; [|exact Hnd']. intros a b Ha Hb. apply H; right; assumption.
  - rewrite Forall_forall in *. intros y Hy. apply H; simpl; auto.
    intros ->. contradiction.
Qed.

(** What a dropdown offers: the values some record has, the empty and
    the missing ones left out. *)
Lemma dropdown_options_members (field : EventRecord -> jsval) (events : list EventRecord)
  (options : list jsval) :
  dropdown_options field events = Ok options ->
  forall v, In v options
            <-> truthy v = true /\ exists event, In event events /\ field event = v.
Proof.
  unfold dropdown_options. intros Hsort v.
  destruct (Set_values_spec (map field events) []) as [_ Hin].
  pose proof (Array_sort_perm _ _ _ Hsort) as Hperm. split.
  - intros Hv. apply (Permutation_in _ (Permutation_sym Hperm)) in Hv.
    apply filter_In in Hv as [Hv Ht]. split; [exact Ht|].
    apply Hin in Hv as [Hv _]. apply in_map_iff in Hv as (e & He & Hine).
    exists e. auto.
  - intros (Ht & e & He & Hv). apply (Permutation_in _ Hperm).
    apply filter_In. split; [|exact Ht]. apply Hin. split; [|tauto].
    apply in_map_iff. exists e. auto.
Qed.

(** X7. A dropdown offers each value of its field once, in ascending
    order of code units, and offers exactly the values that some record
    has, the empty and the missing ones left out. *)
Theorem dropdown_options_spec (field : EventRecord -> jsval) (events : list EventRecord) :
  exists options,
    dropdown_options field events = Ok options
    /\ NoDup options
    /\ StronglySorted text_before options
    /\ forall v, In v options
                 <-> truthy v = true /\ exists event, In event events /\ field event = v.
Proof.
  destruct (Set_values_spec (map field events) []) as [Hnd _].
  set (values := filter truthy (Set_values [] (map field events))).
  assert (Htruthy : Forall (fun v => truthy v = true) values).
  { apply Forall_forall. intros v Hv. apply filter_In in Hv. tauto. }
  destruct (Array_sort_sorted default_compare (fun v => truthy v = true)
              (fun a b => sign_of (String.compare (template a) (template b)))
              default_compare_rank
              (fun a b => sign_compare_total _ _)
              (fun a b c => sign_compare_trans _ _ _) values Htruthy)
    as (options & Hsort & Hsorted & Hopt).
  pose proof (Array_sort_perm _ _ _ Hsort) as Hperm.
  assert (Hnd' : NoDup options).
  { eapply Permutation_NoDup; [exact Hperm|]. apply NoDup_filter. exact Hnd. }
  exists options. split; [exact Hsort|]. split; [exact Hnd'|]. split.
  - eapply StronglySorted_strict; [|exact Hnd'|exact Hsorted].
    intros a b Ha Hb Hr Hne. unfold ranked in Hr. unfold text_before, string_lt.
    rewrite Forall_forall in Hopt.
    destruct (truthy_string a (Hopt a Ha)) as (x & -> & _).
    destruct (truthy_string b (Hopt b Hb)) as (y & -> & _).
    simpl template in *. destruct (String.compare x y) eqn:E; simpl in Hr.
    all: try reflexivity; try lia.
    apply string_compare_eq in E. subst. contradiction.
  - exact (dropdown_options_members field events options Hsort).
Qed.

(** With its field set alone, an event passes the filter. *)
Lemma keeps_own_value (key s : string) (field : EventRecord -> jsval) (event : EventRecord) :
  In (key, field) [("sport", sport); ("age", age); ("gender", gender);
                   ("eventType", event_type)] ->
  field event = JString s ->
  keeps "" (updateFilter clearAllFilters key s) event = Ok true.
Proof.
  intros Hin Hs. unfold keeps. simpl in Hin.
  destruct Hin as [H|[H|[H|[H|[]]]]]; injection H as <- <-; simpl; rewrite Hs; simpl;
    rewrite String.eqb_refl; simpl; destruct (nonempty s); reflexivity.
Qed.

(** X8. Every option a dropdown offers finds something: selecting it,
    with nothing else set, leaves at least one record visible. *)
Theorem dropdown_option_matches (key : string) (field : EventRecord -> jsval)
  (events : list EventRecord) (options : list jsval) (v : jsval) :
  In (key, field) [("sport", sport); ("age", age); ("gender", gender);
                   ("eventType", event_type)] ->
  dropdown_options field events = Ok options -> In v options ->
  exists event visible,
    applyFilters events "" (updateFilter clearAllFilters key (template v)) = Ok visible
    /\ In event visible /\ field event = v.
Proof.
  intros Hkey Hopt Hv.
  apply (dropdown_options_members field events options Hopt) in Hv
    as (Ht & event & He & Hf).
  destruct (truthy_string v Ht) as (s & -> & _).
  exists event. eexists. split; [apply applyFilters_filter|]. split; [|exact Hf].
  apply filter_In. split; [exact He|].
  simpl template. rewrite (keeps_own_value key s field event Hkey Hf). reflexivity.
Qed.

Lemma dropdown_option_matches_witness :
  exists event visible,
    applyFilters (undated_event :: crowded_week) "" (updateFilter clearAllFilters "sport" "Hockey")
    = Ok visible
    /\ In event visible /\ sport event = JString "Hockey".
Proof.
  refine (dropdown_option_matches "sport" sport (undated_event :: crowded_week)
            [JString "Hockey"; JString "Soccer"] (JString "Hockey") _ _ _).
  - left. reflexivity.
  - reflexivity.
  - left. reflexivity.
Defined.

Lemma dropdown_options_spec_witness :
  exists options,
    dropdown_options sport crowded_week = Ok options
    /\ NoDup options
    /\ StronglySorted text_before options
    /\ forall v, In v options
                 <-> truthy v = true /\ exists event, In event crowded_week /\ sport event = v.
Proof. exact (dropdown_options_spec sport crowded_week). Defined.

(** ** List view: further facts *)

Lemma Array_sort_all_equal {A : Type} (comparefn : A -> A -> result Z) (array : list A) :
  (forall a b, comparefn a b = Ok 0) -> Array_sort comparefn array = Ok array.
Proof.
  intros H. induction array as [|x xs IH]; simpl; [reflexivity|].
  rewrite IH. simpl. destruct xs as [|y ys]; simpl; [reflexivity|].
  rewrite H. reflexivity.
Qed.

Lemma sort_value_of_unknown (field : string) (e : EventRecord) :
  ~ In field selectable_fields -> sort_value_of field e = Ok None.
Proof.
  intros H. unfold sort_value_of.
  repeat match goal with
         | |- context [(field =? ?s)%string] =>
             destruct (String.eqb_spec field s) as [->|_];
             [exfalso; apply H; simpl; tauto|]
         end.
  reflexivity.
Qed.

(** X9. Sorting the list view only rearranges the rows: none is lost,
    added or repeated; and under a sort field that names no column the
    rows stay as they are. *)
Theorem sortedEvents_rearranges (events : list EventRecord) (sortField sortDirection : string) :
  (forall rows, sortedEvents events sortField sortDirection = Ok rows ->
                Permutation events rows)
  /\ (~ In sortField selectable_fields ->
      sortedEvents events sortField sortDirection = Ok events).
Proof.
  split.
  - intros rows H. exact (Array_sort_perm _ _ _ H).
  - intros H. apply Array_sort_all_equal. intros a b.
    unfold list_comparator. rewrite !(sort_value_of_unknown _ _ H). reflexivity.
Qed.

Lemma sortedEvents_rearranges_witness :
  Permutation crowded_week
    [sample_event "alpha" "2024-03-15"; sample_event "Alpha" "2024-03-15";
     sample_event "Elsewhere" "2024-03-16"; sample_event "Mid" "2024-03-15";
     sample_event "Zeta" "2024-03-15"]
  /\ sortedEvents crowded_week "website" "asc" = Ok crowded_week.
Proof.
  split.
  - apply (proj1 (sortedEvents_rearranges crowded_week "name" "asc")). reflexivity.
  - apply (proj2 (sortedEvents_rearranges crowded_week "website" "asc")).
    simpl. intros H. repeat (destruct H as [H|H]; [discriminate|]). exact H.
Defined.

Lemma dated_time (e : EventRecord) : dated e -> new_Date (start_date e) = Some (start_time e).
Proof. unfold dated, start_time. destruct (new_Date (start_date e)); [reflexivity|]. intros H. destruct (H eq_refl). Qed.

Lemma date_comparator (sortDirection : string) (a b : EventRecord) :
  dated a -> dated b ->
  list_comparator "startDateTime" sortDirection a b
  = Ok ((if (sortDirection =? "asc")%string then 1 else -1)
        * sign_of (start_time a ?= start_time b)).
Proof.
  intros Ha Hb. unfold list_comparator. simpl.
  rewrite (dated_time a Ha), (dated_time b Hb). simpl.
  destruct (Z.compare_spec (start_time a) (start_time b)) as [E|E|E].
  - rewrite E, Z.ltb_irrefl. destruct (sortDirection =? "asc")%string; reflexivity.
  - apply Z.ltb_lt in E. rewrite E. destruct (sortDirection =? "asc")%string; reflexivity.
  - assert (E' : (start_time a <? start_time b) = false) by (apply Z.ltb_ge; lia).
    apply Z.ltb_lt in E. rewrite E', E. destruct (sortDirection =? "asc")%string; reflexivity.
Qed.

Lemma sign_Z_compare (x y : Z) : sign_of (x ?= y) <= 0 <-> x <= y.
Proof. destruct (Z.compare_spec x y); simpl; lia. Qed.

Lemma sign_Z_compare_ge (x y : Z) : - sign_of (x ?= y) <= 0 <-> y <= x.
Proof. destruct (Z.compare_spec x y); simpl; lia. Qed.

(** X10. When every row's start makes a date, sorting by the date
    column puts the rows in chronological order: earliest first when
    ascending, latest first when descending. *)
Theorem sortedEvents_chronological (events : list EventRecord) :
  Forall dated events ->
  (exists rows,
     sortedEvents events "startDateTime" "asc" = Ok rows
     /\ Permutation events rows
     /\ StronglySorted (fun a b => start_time a <= start_time b) rows)
  /\ (exists rows,
        sortedEvents events "startDateTime" "desc" = Ok rows
        /\ Permutation events rows
        /\ StronglySorted (fun a b => start_time b <= start_time a) rows).
Proof.
  intros H. split.
  - destruct (Array_sort_sorted (list_comparator "startDateTime" "asc") dated
                (fun a b => 1 * sign_of (start_time a ?= start_time b))
                (date_comparator "asc")) with (array := events)
      as (rows & Hs & Hsorted & _); [| |exact H|].
    + intros a b. rewrite !Z.mul_1_l, (Z.compare_antisym (start_time a)).
      destruct (start_time a ?= start_time b); simpl; lia.
    + intros a b c. rewrite !Z.mul_1_l, !sign_Z_compare. lia.
    + exists rows. split; [exact Hs|]. split; [exact (Array_sort_perm _ _ _ Hs)|].
      eapply StronglySorted_weaken; [|exact Hsorted].
      intros a b. unfold ranked. rewrite Z.mul_1_l, sign_Z_compare. tauto.
  - destruct (Array_sort_sorted (list_comparator "startDateTime" "desc") dated
                (fun a b => -1 * sign_of (start_time a ?= start_time b))
                (date_comparator "desc")) with (array := events)
      as (rows & Hs & Hsorted & _); [| |exact H|].
    + intros a b. rewrite (Z.compare_antisym (start_time a)).
      destruct (start_time a ?= start_time b); simpl; lia.
    + intros a b c.
      replace (-1 * sign_of (start_time a ?= start_time b))
        with (- sign_of (start_time a ?= start_time b)) by lia.
      replace (-1 * sign_of (start_time b ?= start_time c))
        with (- sign_of (start_time b ?= start_time c)) by lia.
      replace (-1 * sign_of (start_time a ?= start_time c))
        with (- sign_of (start_time a ?= start_time c)) by lia.
      rewrite !sign_Z_compare_ge. lia.
    + exists rows. split; [exact Hs|]. split; [exact (Array_sort_perm _ _ _ Hs)|].
      eapply StronglySorted_weaken; [|exact Hsorted].
      intros a b. unfold ranked.
      replace (-1 * sign_of (start_time a ?= start_time b))
        with (- sign_of (start_time a ?= start_time b)) by lia.
      rewrite sign_Z_compare_ge. tauto.
Qed.

Lemma sortedEvents_chronological_witness :
  exists rows,
    sortedEvents three_rows "startDateTime" "desc" = Ok rows
    /\ Permutation three_rows rows
    /\ StronglySorted (fun a b => start_time b <= start_time a) rows.
Proof.
  refine (proj2 (sortedEvents_chronological three_rows _)).
  repeat constructor; discriminate.
Defined.

Lemma sort_value_of_text (field : string) (e : EventRecord) :
  In field text_fields -> rankable field e ->
  sort_value_of field e = Ok (Some (StringValue (sort_text field e))).
Proof.
  intros Hin Hr. unfold sort_text, field_value.
  simpl in Hin. destruct Hin as [<-|[<-|[<-|[<-|[<-|[<-|[]]]]]]];
    unfold sort_value_of; simpl; try reflexivity;
    (destruct Hr as [Hr|[s Hr]]; [discriminate Hr|]);
    unfold field_value in Hr; simpl in Hr; rewrite Hr; simpl;
    destruct s; reflexivity.
Qed.

Lemma text_comparator (field sortDirection : string) (a b : EventRecord) :
  In field text_fields -> rankable field a -> rankable field b ->
  list_comparator field sortDirection a b
  = Ok ((if (sortDirection =? "asc")%string then 1 else -1)
        * sign_of (String.compare (sort_text field a) (sort_text field b))).
Proof.
  intros Hin Ha Hb. unfold list_comparator.
  rewrite (sort_value_of_text field a Hin Ha), (sort_value_of_text field b Hin Hb).
  cbn [bind value_lt]. rewrite <- string_rank.
  destruct (string_lt (sort_text field a) (sort_text field b));
    [destruct (sortDirection =? "asc")%string; reflexivity|].
  destruct (string_lt (sort_text field b) (sort_text field a));
    destruct (sortDirection =? "asc")%string; reflexivity.
Qed.

Lemma sign_no_later (x y : string) : sign_of (String.compare x y) <= 0 <-> no_later x y.
Proof. unfold no_later. destruct (String.compare x y); simpl; split; intros; try lia; congruence. Qed.

Lemma sign_opp (x y : string) :
  -1 * sign_of (String.compare x y) = sign_of (String.compare y x).
Proof. rewrite (string_compare_antisym x y). destruct (String.compare x y); reflexivity. Qed.

(** X11. Sorting by a text column whose field every row has (for the
    event type, every list of rows) puts the rows in the order of the
    field in lower case, by code units: ascending, or descending when
    the direction is so; a missing event type ranks as the empty
    string. *)
Theorem sortedEvents_by_text (field : string) (events : list EventRecord) :
  In field text_fields -> Forall (rankable field) events ->
  (exists rows,
     sortedEvents events field "asc" = Ok rows
     /\ Permutation events rows
     /\ StronglySorted (fun a b => no_later (sort_text field a) (sort_text field b)) rows)
  /\ (exists rows,
        sortedEvents events field "desc" = Ok rows
        /\ Permutation events rows
        /\ StronglySorted (fun a b => no_later (sort_text field b) (sort_text field a)) rows).
Proof.
  intros Hin H. split.
  - assert (Htot : forall a b : EventRecord,
               0 < 1 * sign_of (String.compare (sort_text field a) (sort_text field b)) ->
               1 * sign_of (String.compare (sort_text field b) (sort_text field a)) <= 0).
    { intros a b. rewrite !Z.mul_1_l. apply sign_compare_total. }
    assert (Htrans : forall a b c : EventRecord,
               1 * sign_of (String.compare (sort_text field a) (sort_text field b)) <= 0 ->
               1 * sign_of (String.compare (sort_text field b) (sort_text field c)) <= 0 ->
               1 * sign_of (String.compare (sort_text field a) (sort_text field c)) <= 0).
    { intros a b c. rewrite !Z.mul_1_l. apply sign_compare_trans. }
    destruct (Array_sort_sorted (list_comparator field "asc") (rankable field)
                (fun a b => 1 * sign_of (String.compare (sort_text field a) (sort_text field b)))
                (fun a b => text_comparator field "asc" a b Hin)
                Htot Htrans events H)
      as (rows & Hs & Hsorted & _).
    exists rows. split; [exact Hs|]. split; [exact (Array_sort_perm _ _ _ Hs)|].
    eapply StronglySorted_weaken; [|exact Hsorted].
    intros a b. unfold ranked. rewrite Z.mul_1_l. apply sign_no_later.
  - assert (Htot : forall a b : EventRecord,
               0 < -1 * sign_of (String.compare (sort_text field a) (sort_text field b)) ->
               -1 * sign_of (String.compare (sort_text field b) (sort_text field a)) <= 0).
    { intros a b. rewrite !sign_opp. apply sign_compare_total. }
    assert (Htrans : forall a b c : EventRecord,
               -1 * sign_of (String.compare (sort_text field a) (sort_text field b)) <= 0 ->
               -1 * sign_of (String.compare (sort_text field b) (sort_text field c)) <= 0 ->
               -1 * sign_of (String.compare (sort_text field a) (sort_text field c)) <= 0).
    { intros a b c. rewrite !sign_opp. intros Hab Hbc.
      exact (sign_compare_trans _ _ _ Hbc Hab). }
    destruct (Array_sort_sorted (list_comparator field "desc") (rankable field)
                (fun a b => -1 * sign_of (String.compare (sort_text field a) (sort_text field b)))
                (fun a b => text_comparator field "desc" a b Hin)
                Htot Htrans events H)
      as (rows & Hs & Hsorted & _).
    exists rows. split; [exact Hs|]. split; [exact (Array_sort_perm _ _ _ Hs)|].
    eapply StronglySorted_weaken; [|exact Hsorted].
    intros a b. unfold ranked. rewrite sign_opp. apply sign_no_later.
Qed.

Lemma sortedEvents_by_text_witness :
  exists rows,
    sortedEvents three_rows "name" "asc" = Ok rows
    /\ Permutation three_rows rows
    /\ StronglySorted (fun a b => no_later (sort_text "name" a) (sort_text "name" b)) rows.
Proof.
  refine (proj1 (sortedEvents_by_text "name" three_rows _ _)).
  - left. reflexivity.
  - repeat apply Forall_cons; try apply Forall_nil; right; eexists; reflexivity.
Defined.

(** ** Calendar grid: further facts *)

Lemma DayCell_completes (day : Date) (events : list EventRecord) :
  Forall named events -> exists cell, DayCell day events = Ok cell.
Proof.
  intros H. unfold DayCell. fold (same_day_events day events).
  destruct (array_length (same_day_events day events) >? 2).
  - destruct (sort_lower_names _ (same_day_events_named day events H)) as (s & Hs & _).
    rewrite Hs. simpl. eauto.
  - simpl. eauto.
Qed.

Lemma Forall2_map_fst {A B C : Type} (f : A -> B) (l : list A) (ys : list (B * C)) :
  Forall2 (fun i c => fst c = f i) l ys -> map fst ys = map f l.
Proof. induction 1 as [|i c l ys Hc _ IH]; simpl; [reflexivity|]. rewrite Hc, IH. reflexivity. Qed.

Lemma num_le_midnights (s e : Z) :
  num_le (Some (s * msPerDay)) (Some (e * msPerDay - 1)) = (s <? e).
Proof.
  unfold num_le, msPerDay.
  destruct (Z.ltb_spec s e); [apply Z.leb_le|apply Z.leb_gt]; lia.
Qed.

(** The loop lays out whole weeks up to the end date, when its bound
    allows for them. *)
Lemma month_rows_grid (events : list EventRecord) :
  Forall named events ->
  forall fuel n s, (n <= fuel)%nat ->
  exists rows,
    month_rows fuel events (Some (s * msPerDay))
               (Some ((s + 7 * Z.of_nat n) * msPerDay - 1)) = Ok rows
    /\ map (map fst) rows = grid_days n s.
Proof.
  intros Hnamed. induction fuel as [|fuel IH]; intros n s Hn.
  - assert (n = O) by lia. subst. exists []. split; reflexivity.
  - cbn [month_rows]. rewrite num_le_midnights.
    destruct n as [|n].
    + replace (s <? s + 7 * Z.of_nat 0) with false by (symmetry; apply Z.ltb_ge; lia).
      exists []. split; reflexivity.
    + replace (s <? s + 7 * Z.of_nat (S n)) with true by (symmetry; apply Z.ltb_lt; lia).
      destruct (mapM_Forall2
                  (fun i => cell <- DayCell (addDays (Some (s * msPerDay)) i) events ;;
                            Ok (addDays (Some (s * msPerDay)) i, cell))
                  (fun i c => fst c = Some ((s + i) * msPerDay)) seven)
        as (days & Hdays & Hfst).
      { intros i _. destruct (DayCell_completes (addDays (Some (s * msPerDay)) i) events Hnamed)
          as [cell Hc].
        rewrite Hc. cbn [bind]. eexists. split; [reflexivity|].
        cbn [fst addDays]. f_equal. lia. }
      rewrite Hdays. cbn [bind].
      destruct (IH n (s + 7) ltac:(lia)) as (rows & Hrows & Hgrid).
      replace (addDays (Some (s * msPerDay)) 7) with (Some ((s + 7) * msPerDay))
        by (cbn [addDays]; f_equal; lia).
      replace (s + 7 * Z.of_nat (S n)) with (s + 7 + 7 * Z.of_nat n) by lia.
      rewrite Hrows. cbn [bind]. eexists. split; [reflexivity|].
      cbn [map grid_days]. rewrite Hgrid. f_equal.
      apply (Forall2_map_fst (fun i => Some ((s + i) * msPerDay))). exact Hfst.
Qed.

Lemma days_in_month_range (y m : Z) : 28 <= days_in_month y m <= 31.
Proof.
  unfold days_in_month. destruct (m =? 2); [destruct (is_leap y); lia|].
  destruct (_ || _); lia.
Qed.

Lemma WeekDay_range (day : Z) : 0 <= WeekDay day < 7.
Proof. unfold WeekDay. apply Z.mod_pos_bound. lia. Qed.

Lemma days_from_civil_day (y m d : Z) :
  days_from_civil y m d = days_from_civil y m 1 + d - 1.
Proof. unfold days_from_civil. cbv zeta. rewrite (doe_of_civil_day _ m d). lia. Qed.

Lemma Day_before_midnight (day : Z) : Day (day * msPerDay - 1) = day - 1.
Proof.
  replace (day * msPerDay - 1) with (day * msPerDay + -1) by lia.
  apply Day_shift. unfold msPerDay. lia.
Qed.

Lemma sunday_multiple (day : Z) : exists q, day - WeekDay day + 4 = 7 * q.
Proof.
  unfold WeekDay. exists ((day + 4) / 7).
  pose proof (Z.div_mod (day + 4) 7 ltac:(lia)). lia.
Qed.

Lemma sunday_week (day : Z) : WeekDay (day - WeekDay day) = 0.
Proof.
  unfold WeekDay.
  pose proof (Z.div_mod (day + 4) 7 ltac:(lia)).
  replace (day - (day + 4) mod 7 + 4) with (0 + (day + 4) / 7 * 7) by lia.
  rewrite Z.mod_add by lia. reflexivity.
Qed.

(** X12. Month view: when every event has a name, the grid is laid out
    whatever the anchor date; it is made of whole weeks, Sunday to
    Saturday, four to six of them, from the week of the first day of
    the anchor's month to the week of its last. *)
Theorem renderMonthView_grid (events : list EventRecord) (t y m d : Z) :
  Forall named events ->
  civil_from_days (Day t) = (y, m, d) ->
  let first := days_from_civil y m 1 in
  let last := first + days_in_month y m - 1 in
  exists sunday n rows,
    renderMonthView events (Some t) = Ok rows
    /\ map (map fst) rows = grid_days n sunday
    /\ WeekDay sunday = 0
    /\ (4 <= n <= 6)%nat
    /\ sunday <= first < sunday + 7
    /\ sunday + 7 * (Z.of_nat n - 1) <= last < sunday + 7 * Z.of_nat n
    /\ first <= Day t <= last.
Proof.
  intros Hnamed Hciv first last.
  destruct (days_from_civil_from_days _ _ _ _ Hciv) as (Hday & Hm & Hd).
  fold first in Hday.
  pose proof (days_in_month_range y m) as Hdim.
  pose proof (WeekDay_range first) as Hwf.
  pose proof (WeekDay_range last) as Hwl.
  pose proof (sunday_week first) as Hsf.
  destruct (sunday_multiple first) as [qf Hqf].
  destruct (sunday_multiple last) as [ql Hql].
  set (sunday := first - WeekDay first) in *.
  set (saturday := last - WeekDay last + 6).
  assert (Hk : saturday + 1 - sunday = 7 * (ql + 1 - qf)) by (unfold saturday; lia).
  set (k := ql + 1 - qf) in *.
  assert (Hkr : 4 <= k <= 6) by (unfold saturday, sunday, last in *; lia).
  exists sunday, (Z.to_nat k).
  unfold renderMonthView.
  assert (Hstart : startOfWeek (startOfMonth (Some t)) = Some (sunday * msPerDay)).
  { unfold startOfMonth. rewrite Hciv. cbn [startOfWeek]. rewrite Day_midnight. reflexivity. }
  assert (Hend : endOfWeek (endOfMonth (startOfMonth (Some t)))
                 = Some ((sunday + 7 * Z.of_nat (Z.to_nat k)) * msPerDay - 1)).
  { unfold startOfMonth. rewrite Hciv. cbn [endOfMonth]. rewrite Day_midnight.
    assert (Hfirst : civil_from_days (days_from_civil y m 1) = (y, m, 1)).
    { apply civil_from_days_from_civil; [exact Hm|lia]. }
    rewrite Hfirst. cbn [endOfWeek]. rewrite Day_before_midnight.
    rewrite (days_from_civil_day y m (days_in_month y m)). fold first.
    replace (first + days_in_month y m - 1 + 1 - 1) with last by (unfold last; lia).
    do 2 f_equal. rewrite Z2Nat.id by lia. unfold saturday in Hk. lia. }
  rewrite Hstart, Hend.
  destruct (month_rows_grid events Hnamed 6 (Z.to_nat k) sunday ltac:(lia))
    as (rows & Hrows & Hgrid).
  exists rows. split; [exact Hrows|]. split; [exact Hgrid|]. split; [exact Hsf|].
  rewrite Z2Nat.id by lia. unfold saturday, sunday, last in *. lia.
Qed.

Lemma renderMonthView_grid_witness :
  exists sunday n rows,
    renderMonthView crowded_day (Some (19797 * msPerDay + 1000)) = Ok rows
    /\ map (map fst) rows = grid_days n sunday
    /\ WeekDay sunday = 0
    /\ (4 <= n <= 6)%nat
    /\ sunday <= days_from_civil 2024 3 1 < sunday + 7
    /\ sunday + 7 * (Z.of_nat n - 1)
       <= days_from_civil 2024 3 1 + days_in_month 2024 3 - 1
       < sunday + 7 * Z.of_nat n
    /\ days_from_civil 2024 3 1 <= Day (19797 * msPerDay + 1000)
       <= days_from_civil 2024 3 1 + days_in_month 2024 3 - 1.
Proof.
  refine (renderMonthView_grid crowded_day (19797 * msPerDay + 1000) 2024 3 15 _ _).
  - repeat constructor.
  - reflexivity.
Defined.

(** X13. Day view: when the events of the day have names, the view
    lists every event that starts on that day and no other, each as
    often as the input has it, in alphabetical order of the names, case
    ignored.  A day with Elite 8s and Elite @ Boston, in that order,
    lists Elite @ Boston first. *)
Theorem renderDayView_lists_the_day (events : list EventRecord) (currentDate : Date) :
  (Forall named (same_day_events currentDate events) ->
   exists shown,
     renderDayView events currentDate = Ok shown
     /\ Permutation (same_day_events currentDate events) shown
     /\ StronglySorted ci_ordered shown
     /\ (forall e, In e shown <->
                   In e events
                   /\ isSameDay (parseISO (start_date e)) currentDate = true))
  /\ renderDayView elite_day (parseISO (JString "2024-03-15"))
     = Ok [sample_event "Elite @ Boston" "2024-03-15"; sample_event "Elite 8s" "2024-03-15"].
Proof.
  split; [|vm_compute; reflexivity].
  intros H. unfold renderDayView, getEventsForDate.
  fold (same_day_events currentDate events).
  destruct (sort_names _ H) as (shown & Hs & Hp & Hss).
  exists shown. split; [exact Hs|]. split; [exact Hp|]. split; [exact Hss|].
  intros e. split.
  - intros He. apply (Permutation_in _ (Permutation_sym Hp)) in He.
    apply filter_In in He. exact He.
  - intros He. apply (Permutation_in _ Hp). apply filter_In. exact He.
Qed.

Lemma renderDayView_lists_the_day_witness :
  exists shown,
    renderDayView crowded_week (parseISO (JString "2024-03-15")) = Ok shown
    /\ Permutation (same_day_events (parseISO (JString "2024-03-15")) crowded_week) shown
    /\ StronglySorted ci_ordered shown
    /\ (forall e, In e shown <->
                  In e crowded_week
                  /\ isSameDay (parseISO (start_date e)) (parseISO (JString "2024-03-15")) = true).
Proof.
  refine (proj1 (renderDayView_lists_the_day crowded_week (parseISO (JString "2024-03-15"))) _).
  repeat constructor.
Defined.

(** X14. The month view and the week view agree on how much of a day
    they show: the same number of tiles and the same count of further
    events; and on a day with two events or fewer they show the same
    events, the month view in the order of the input. *)
Theorem month_and_week_show_as_many (events : list EventRecord) (day : Date)
    (cell : DayTiles) (dayEvents : list EventRecord) :
  DayCell day events = Ok cell ->
  getEventsForDate events day = Ok dayEvents ->
  List.length (tiles cell) = List.length (slice_0_2 dayEvents)
  /\ more cell = (if array_length dayEvents >? 2
                  then Some (array_length dayEvents - 2) else None)
  /\ (array_length dayEvents <= 2 ->
      tiles cell = same_day_events day events
      /\ Permutation (tiles cell) (slice_0_2 dayEvents)).
Proof.
  unfold DayCell, getEventsForDate. fold (same_day_events day events).
  intros Hc Hd. pose proof (Array_sort_perm _ _ _ Hd) as Hp.
  pose proof (array_length_perm _ _ Hp) as Hlen.
  destruct (array_length (same_day_events day events) >? 2) eqn:E.
  - destruct (Array_sort compare_lower_names (same_day_events day events)) as [s|] eqn:Es;
      cbn [bind] in Hc; [|discriminate].
    pose proof (Array_sort_perm _ _ _ Es) as Hps.
    pose proof (array_length_perm _ _ Hps) as Hlens.
    injection Hc as <-. cbn [tiles more]. rewrite <- Hlens, <- Hlen, E.
    split; [|split; [reflexivity|lia]].
    unfold slice_0_2. rewrite !length_firstn.
    rewrite <- (Permutation_length Hps), <- (Permutation_length Hp). reflexivity.
  - cbn [bind] in Hc. injection Hc as <-. cbn [tiles more]. rewrite <- Hlen, E.
    assert (Hle : array_length (same_day_events day events) <= 2) by lia.
    unfold slice_0_2. rewrite (firstn_short _ Hle).
    rewrite (firstn_short dayEvents) by lia.
    split; [apply (Permutation_length Hp)|]. split; [reflexivity|].
    intros _. split; [reflexivity|exact Hp].
Qed.

Lemma month_and_week_show_as_many_witness :
  let cell := {| tiles := [sample_event "Alpha" "2024-03-15"; sample_event "Mid" "2024-03-15"];
                 more := Some 1 |} in
  let dayEvents := [sample_event "Alpha" "2024-03-15"; sample_event "Mid" "2024-03-15";
                    sample_event "Zeta" "2024-03-15"] in
  List.length (tiles cell) = List.length (slice_0_2 dayEvents)
  /\ more cell = (if array_length dayEvents >? 2
                  then Some (array_length dayEvents - 2) else None)
  /\ (array_length dayEvents <= 2 ->
      tiles cell = same_day_events (parseISO (JString "2024-03-15")) crowded_day
      /\ Permutation (tiles cell) (slice_0_2 dayEvents)).
Proof.
  refine (month_and_week_show_as_many crowded_day (parseISO (JString "2024-03-15")) _ _ _ _).
  - reflexivity.
  - reflexivity.
Defined.

(** ** Small-screen list *)

Lemma compare_start_dates_rank (a b : EventRecord) :
  parseISO (start_date a) <> NaN -> parseISO (start_date b) <> NaN ->
  compare_start_dates a b
  = Ok (localeCompare (template (start_date a)) (template (start_date b))).
Proof.
  intros Ha _. unfold compare_start_dates.
  destruct (start_date a); try (exfalso; apply Ha; reflexivity). reflexivity.
Qed.

Lemma in_period_valid (view : string) (currentDate : Date) (e : EventRecord) :
  in_period view currentDate e = true -> parseISO (start_date e) <> NaN.
Proof.
  unfold in_period, num_ge, num_le. destruct (parseISO (start_date e)); [discriminate|].
  destruct (period_start view currentDate); discriminate.
Qed.

(** X15. The list a small screen shows in place of a calendar view is
    built whatever the events and the anchor date: it holds the events
    that start within the period, each as often as the input has it, in
    the order of their start-date texts; in the day view the period is
    the anchor's very instant. *)
Theorem allEventsInPeriod_spec (view : string) (events : list EventRecord)
    (currentDate : Date) :
  exists shown,
    allEventsInPeriod view events currentDate = Ok shown
    /\ Permutation (filter (in_period view currentDate) events) shown
    /\ StronglySorted start_ordered shown
    /\ (view <> "month" -> view <> "week" ->
        forall e, In e shown -> parseISO (start_date e) = currentDate).
Proof.
  unfold allEventsInPeriod.
  assert (Hvalid : Forall (fun e => parseISO (start_date e) <> NaN)
                          (filter (in_period view currentDate) events)).
  { apply Forall_forall. intros e He. apply filter_In in He as [_ He].
    exact (in_period_valid _ _ _ He). }
  destruct (Array_sort_sorted compare_start_dates
              (fun e => parseISO (start_date e) <> NaN)
              (fun a b => localeCompare (template (start_date a)) (template (start_date b)))
              compare_start_dates_rank
              (fun a b => localeCompare_total _ _)
              (fun a b c => localeCompare_le_trans _ _ _) _ Hvalid)
    as (shown & Hs & Hss & _).
  pose proof (Array_sort_perm _ _ _ Hs) as Hp.
  exists shown. split; [exact Hs|]. split; [exact Hp|]. split; [exact Hss|].
  intros Hm Hw e He. apply (Permutation_in _ (Permutation_sym Hp)) in He.
  apply filter_In in He as [_ He]. unfold in_period, period_start, period_end in He.
  apply String.eqb_neq in Hm, Hw. rewrite Hm, Hw in He.
  unfold num_ge, num_le in He.
  destruct currentDate as [t|]; [|discriminate].
  destruct (parseISO (start_date e)) as [x|]; [|discriminate].
  apply andb_true_iff in He as [H1 H2]. apply Z.leb_le in H1, H2. f_equal. lia.
Qed.

Lemma allEventsInPeriod_spec_witness :
  exists shown,
    allEventsInPeriod "day" crowded_week (parseISO (JString "2024-03-16")) = Ok shown
    /\ Permutation (filter (in_period "day" (parseISO (JString "2024-03-16"))) crowded_week) shown
    /\ StronglySorted start_ordered shown
    /\ ("day" <> "month" -> "day" <> "week" ->
        forall e, In e shown -> parseISO (start_date e) = parseISO (JString "2024-03-16")).
Proof. exact (allEventsInPeriod_spec "day" crowded_week (parseISO (JString "2024-03-16"))). Defined.

Lemma startOfDay_parts (x : Z) : startOfDay (Some x) = Some (Day x * msPerDay).
Proof. reflexivity. Qed.

(** X16. In the week view the small-screen list holds the very events
    of the seven columns of the week: an event is in the list exactly
    when it is among the events and starts on one of the seven days
    from the week's Sunday. *)
Theorem allEventsInPeriod_week (events : list EventRecord) (t : Z)
    (shown : list EventRecord) :
  allEventsInPeriod "week" events (Some t) = Ok shown ->
  forall e,
    In e shown <->
    In e events
    /\ exists i, In i seven
                 /\ isSameDay (parseISO (start_date e))
                              (addDays (startOfWeek (Some t)) i) = true.
Proof.
  unfold allEventsInPeriod. intros Hs e.
  pose proof (Array_sort_perm _ _ _ Hs) as Hp.
  set (sunday := Day t - WeekDay (Day t)).
  assert (Hin : in_period "week" (Some t) e = true <->
                exists i, In i seven
                          /\ isSameDay (parseISO (start_date e))
                                       (addDays (startOfWeek (Some t)) i) = true).
  { unfold in_period, period_start, period_end. cbn [String.eqb Ascii.eqb Bool.eqb].
    cbn [startOfWeek endOfWeek addDays]. fold sunday.
    destruct (parseISO (start_date e)) as [x|].
    - unfold num_ge, num_le. rewrite andb_true_iff, !Z.leb_le.
      pose proof (time_split x) as Hx.
      assert (Hr : 0 <= TimeWithinDay x < msPerDay)
        by (apply Z.mod_pos_bound; unfold msPerDay; lia).
      split.
      + intros [H1 H2]. exists (Day x - sunday). split.
        * assert (0 <= Day x - sunday <= 6) by (unfold msPerDay in *; lia).
          unfold seven. simpl.
          assert (Day x - sunday = 0 \/ Day x - sunday = 1 \/ Day x - sunday = 2
                  \/ Day x - sunday = 3 \/ Day x - sunday = 4 \/ Day x - sunday = 5
                  \/ Day x - sunday = 6) by lia.
          intuition.
        * unfold isSameDay. rewrite !startOfDay_parts.
          replace (sunday * msPerDay + (Day x - sunday) * msPerDay)
            with (Day x * msPerDay) by lia.
          rewrite Day_midnight. apply Z.eqb_refl.
      + intros (i & Hi & Hsame). unfold isSameDay in Hsame.
        rewrite !startOfDay_parts in Hsame. apply Z.eqb_eq in Hsame.
        replace (sunday * msPerDay + i * msPerDay) with ((sunday + i) * msPerDay) in Hsame by lia.
        rewrite Day_midnight in Hsame.
        assert (Hd : Day x = sunday + i) by (unfold msPerDay in Hsame; lia).
        assert (0 <= i <= 6) by (unfold seven in Hi; simpl in Hi; lia).
        unfold msPerDay in *. lia.
    - split; [discriminate|]. intros (i & _ & H). discriminate H. }
  split.
  - intros He. apply (Permutation_in _ (Permutation_sym Hp)) in He.
    apply filter_In in He as [He1 He2]. split; [exact He1|]. apply Hin. exact He2.
  - intros [He1 He2]. apply (Permutation_in _ Hp). apply filter_In.
    split; [exact He1|]. apply Hin. exact He2.
Qed.

Lemma allEventsInPeriod_week_witness :
  In (sample_event "Elsewhere" "2024-03-16")
     [sample_event "Zeta" "2024-03-15"; sample_event "alpha" "2024-03-15";
      sample_event "Mid" "2024-03-15"; sample_event "Alpha" "2024-03-15";
      sample_event "Elsewhere" "2024-03-16"] <->
  In (sample_event "Elsewhere" "2024-03-16") crowded_week
  /\ exists i, In i seven
               /\ isSameDay (parseISO (start_date (sample_event "Elsewhere" "2024-03-16")))
                            (addDays (startOfWeek (Some (19797 * msPerDay + 1000))) i) = true.
Proof.
  refine (allEventsInPeriod_week crowded_week (19797 * msPerDay + 1000) _ _
            (sample_event "Elsewhere" "2024-03-16")).
  reflexivity.
Defined.

(** ** Export: further facts *)

Lemma hex_digit_safe (n : N) : (n < 16)%N -> form_safe (hex_digit n) = true.
Proof.
  intros H. destruct n as [|p]; [reflexivity|].
  do 4 (try (destruct p as [p|p|]; try reflexivity));
    exfalso; revert H; unfold N.lt; simpl; destruct p; discriminate.
Qed.

Lemma form_encode_chars (s : string) : string_forallb query_char (form_encode s) = true.
Proof.
  induction s as [|c s IH]; [reflexivity|]. cbn [form_encode].
  destruct (form_safe c) eqn:Es.
  - cbn [string_forallb]. rewrite IH. unfold query_char. rewrite Es. reflexivity.
  - destruct (c =? " ")%char.
    + cbn [string_forallb]. rewrite IH. reflexivity.
    + cbn [string_forallb]. rewrite IH. unfold query_char.
      assert (Hc : (N_of_ascii c < 256)%N) by apply N_ascii_bounded.
      rewrite !hex_digit_safe.
      * reflexivity.
      * apply N.mod_lt. lia.
      * apply N.Div0.div_lt_upper_bound. exact Hc.
Qed.

(** X17. The calendar link is the placeholder [#] or the render address
    of the calendar with its six parameters in their fixed order; the
    name, the dates, the description and the location go in encoded, so
    that nothing in a record can end a parameter or add one. *)
Theorem generateGoogleCalendarUrl_shape (host : TimeZone) (event : EventRecord)
    (userTimezone : string) :
  generateGoogleCalendarUrl host event userTimezone = "#"
  \/ exists dates,
       generateGoogleCalendarUrl host event userTimezone
       = calendar_link (form_encode (template (name event))) (form_encode dates)
                       (form_encode (describe event))
                       (form_encode (or_default (location event) ""))
       /\ param "dates" (try_catch (googleCalendarParams host event) (fun _ => []))
          = Some dates
       /\ string_forallb query_char (form_encode (template (name event))) = true
       /\ string_forallb query_char (form_encode dates) = true
       /\ string_forallb query_char (form_encode (describe event)) = true
       /\ string_forallb query_char (form_encode (or_default (location event) "")) = true.
Proof.
  unfold generateGoogleCalendarUrl, googleCalendarParams.
  destruct (as_object (start_date event)) as [s|]; [|left; reflexivity].
  cbn [bind].
  destruct (toISOString _) as [iso|]; [|left; reflexivity].
  cbn [bind try_catch]. right.
  exists (remove_dashes s ++ "/" ++ remove_dashes (substr0 10 iso)).
  split; [|split; [reflexivity|repeat split; apply form_encode_chars]].
  unfold URLSearchParams_toString, calendar_link. cbn [map String.concat].
  generalize (form_encode (template (name event))) as a.
  generalize (form_encode (remove_dashes s ++ "/" ++ remove_dashes (substr0 10 iso))) as b.
  generalize (form_encode (describe event)) as c.
  generalize (form_encode (or_default (location event) "")) as d.
  intros d c b a. simpl. rewrite ?append_assoc. reflexivity.
Qed.

(** X18. A record whose [end_date] is [null] still gets a link: the
    end is read as the epoch, and on a host that keeps one offset the
    link ends on 2 January 1970; a record whose [end_date] is missing
    altogether gets the placeholder. *)
Theorem calendar_link_without_end_date (event : EventRecord) (s : string)
    (minutes : Z) (host : TimeZone) (userTimezone : string) :
  start_date event = JString s ->
  (end_date event = JNull ->
   param "dates" (try_catch (googleCalendarParams (fixed_zone minutes) event) (fun _ => []))
   = Some (remove_dashes s ++ "/19700102"))
  /\ (end_date event = JUndefined ->
      generateGoogleCalendarUrl host event userTimezone = "#").
Proof.
  intros Hs. split; intros He.
  - unfold googleCalendarParams. rewrite Hs, He. cbn [as_object bind new_Date].
    rewrite setDate_next_day, UTC_fixed, LocalTime_fixed.
    replace (0 + minutes * 60000 + msPerDay - minutes * 60000) with (1 * msPerDay) by lia.
    rewrite TimeClip_in_range by (unfold msPerDay; lia).
    destruct (toISOString_date 1 1970 1 2 eq_refl ltac:(lia)) as (iso & Hiso & Hdate).
    rewrite Hiso. cbn [bind try_catch param String.eqb Ascii.eqb Bool.eqb].
    rewrite Hdate. reflexivity.
  - apply generateGoogleCalendarUrl_bad_dates. right. rewrite He. reflexivity.
Qed.

Lemma calendar_link_without_end_date_witness :
  param "dates" (try_catch (googleCalendarParams (fixed_zone 60)
                              (open_ended "Spring Cup" "2024-03-15" JNull)) (fun _ => []))
  = Some "20240315/19700102".
Proof.
  exact (proj1 (calendar_link_without_end_date (open_ended "Spring Cup" "2024-03-15" JNull)
                  "2024-03-15" 60 (fixed_zone 60) "Europe/Paris" eq_refl) eq_refl).
Defined.

Lemma Day_within (day off : Z) : 0 <= off < msPerDay -> Day (day * msPerDay + off) = day.
Proof.
  intros H. unfold Day. rewrite Z.add_comm, Z.div_add by (unfold msPerDay; lia).
  rewrite Z.div_small by exact H. reflexivity.
Qed.

(** X19. On a host whose zone is at or ahead of UTC, by less than a
    day, the single-event serialiser is handed the stored [start_date]
    as the start and the day after the stored [end_date] as the end
    (the wall-clock time the end is set to being read back on its own
    calendar day). *)
Theorem icsEvent_dates_east_of_utc (host : TimeZone) (event : EventRecord)
  (y m d y' m' d' : Z) :
  date_text (start_date event) = Some (y, m, d) ->
  date_text (end_date event) = Some (y', m', d') ->
  (forall t isUTC, 0 <= LocalTZA host t isUTC < msPerDay) ->
  keeps_calendar_day host
    (LocalTime host (days_from_civil y' m' d' * msPerDay) + msPerDay) ->
  ics_start (icsEvent_of host event) = triple (y, m, d)
  /\ ics_end (icsEvent_of host event)
     = triple (civil_from_days (days_from_civil y' m' d' + 1)).
Proof.
  intros Hs He Hpos Hwall.
  destruct (date_text_valid _ _ _ _ Hs) as [Hm Hd].
  destruct (date_text_valid _ _ _ _ He) as [Hm' Hd'].
  pose proof (days_from_civil_bounds y' m' d' Hm' Hd' (date_text_year _ _ _ _ He)) as Hb'.
  unfold icsEvent_of, ics_start, ics_end.
  rewrite (new_Date_date_text _ _ _ _ Hs), (new_Date_date_text _ _ _ _ He).
  rewrite !setDate_next_day.
  set (D := days_from_civil y m d) in *. set (D' := days_from_civil y' m' d') in *.
  split.
  - rewrite local_fields. unfold LocalTime. rewrite Day_within by apply Hpos.
    unfold D. rewrite (civil_from_days_from_civil y m d Hm Hd). reflexivity.
  - rewrite TimeClip_in_range.
    + rewrite local_fields. unfold keeps_calendar_day in Hwall. rewrite Hwall.
      rewrite Day_next. unfold LocalTime. rewrite Day_within by apply Hpos. reflexivity.
    + unfold UTC, LocalTime.
      pose proof (Hpos (D' * msPerDay) true).
      pose proof (Hpos (D' * msPerDay + LocalTZA host (D' * msPerDay) true + msPerDay) false).
      unfold msPerDay in *. lia.
Qed.

Lemma icsEvent_dates_east_of_utc_witness :
  ics_start (icsEvent_of (fixed_zone 60) (sample_event "Spring Cup" "2024-03-15"))
  = triple (2024, 3, 15)
  /\ ics_end (icsEvent_of (fixed_zone 60) (sample_event "Spring Cup" "2024-03-15"))
     = triple (civil_from_days (days_from_civil 2024 3 15 + 1)).
Proof.
  refine (icsEvent_dates_east_of_utc (fixed_zone 60) (sample_event "Spring Cup" "2024-03-15")
            2024 3 15 2024 3 15 eq_refl eq_refl _ eq_refl).
  intros t isUTC. unfold fixed_zone, LocalTZA, msPerDay. lia.
Defined.

Lemma string_map_forallb (f : ascii -> ascii) (p : ascii -> bool) (s : string) :
  (forall c, p (f c) = true) -> string_forallb p (string_map f s) = true.
Proof.
  intros H. induction s as [|c s IH]; [reflexivity|].
  cbn [string_map string_forallb]. rewrite H, IH. reflexivity.
Qed.

Lemma toLowerCase_string_map (s : string) : toLowerCase s = string_map lower_char s.
Proof. induction s as [|c s IH]; [reflexivity|]. simpl. rewrite IH. reflexivity. Qed.

Lemma string_map_map (f g : ascii -> ascii) (s : string) :
  string_map f (string_map g s) = string_map (fun c => f (g c)) s.
Proof. induction s as [|c s IH]; [reflexivity|]. simpl. rewrite IH. reflexivity. Qed.

Lemma sanitised_char (c : ascii) :
  filename_char (lower_char (if is_alpha c || is_digit c then c else "_"%char)) = true.
Proof.
  destruct c as [[] [] [] [] [] [] [] []]; reflexivity.
Qed.

(** X20. The single-event download gives a file or one of two notices
    and lets no exception out.  It gives the file exactly when the
    serialiser reports no error and the event has a name; the file
    holds the serialiser's text, and its name is the event's name in
    lower case with every character that is not a letter or a digit
    turned into an underscore, followed by [.ics]. *)
Theorem downloadICSFile_outcome (host : TimeZone)
    (createEvent : IcsEvent -> result IcsReturn) (event : EventRecord)
    (userTimezone : string) :
  let result := generateICSContent host createEvent event userTimezone in
  (forall filename mime content,
     downloadICSFile host createEvent event userTimezone = Download filename mime content ->
     error_truthy (error result) = false
     /\ mime = "text/calendar;charset=utf-8"
     /\ content = template (value result)
     /\ exists stem,
          filename = stem ++ ".ics"
          /\ string_forallb filename_char stem = true
          /\ String.length stem = String.length (template (name event)))
  /\ (error_truthy (error result) = true ->
      downloadICSFile host createEvent event userTimezone
      = Alert "Could not generate the .ics file. The event data might be incomplete or invalid.")
  /\ (error_truthy (error result) = false ->
      (forall n, name event <> JString n) ->
      downloadICSFile host createEvent event userTimezone
      = Alert "An unexpected error occurred. Please check the console for more details.")
  /\ (error_truthy (error result) = false ->
      forall n, name event = JString n ->
      downloadICSFile host createEvent event userTimezone
      = Download (toLowerCase (replace_non_alnum n) ++ ".ics")
                 "text/calendar;charset=utf-8" (template (value result))).
Proof.
  intros result. unfold downloadICSFile. fold result.
  split; [|split; [|split]].
  - intros filename mime content.
    destruct (error_truthy (error result)); [discriminate|].
    destruct (name event) as [| |n]; try discriminate.
    cbn [as_object bind try_catch]. intros H. injection H as <- <- <-.
    split; [reflexivity|]. split; [reflexivity|]. split; [reflexivity|].
    exists (toLowerCase (replace_non_alnum n)). split; [reflexivity|]. split.
    + unfold replace_non_alnum. rewrite toLowerCase_string_map, string_map_map.
      apply string_map_forallb. apply sanitised_char.
    + cbn [template]. unfold replace_non_alnum.
      rewrite toLowerCase_string_map, string_map_map.
      induction n as [|c n IH]; [reflexivity|]. simpl. rewrite IH. reflexivity.
  - intros ->. reflexivity.
  - intros -> Hn. destruct (name event) as [| |n]; try reflexivity.
    destruct (Hn n eq_refl).
  - intros -> n ->. reflexivity.
Qed.

Lemma downloadICSFile_outcome_witness :
  downloadICSFile (fixed_zone 0) strict_createEvent (sample_event "Spring Cup!" "2024-03-15") "UTC"
  = Download "spring_cup_.ics" "text/calendar;charset=utf-8"
      (template (value (generateICSContent (fixed_zone 0) strict_createEvent
                          (sample_event "Spring Cup!" "2024-03-15") "UTC"))).
Proof.
  exact (proj2 (proj2 (proj2 (downloadICSFile_outcome (fixed_zone 0) strict_createEvent
                                (sample_event "Spring Cup!" "2024-03-15") "UTC")))
           eq_refl "Spring Cup!" eq_refl).
Defined.

(** ** Display normalisation: further facts *)

Lemma trimEnd_idem (s : string) : trimEnd (trimEnd s) = trimEnd s.
Proof.
  induction s as [|c s IH]; [reflexivity|]. cbn [trimEnd].
  destruct (is_white c && (trimEnd s =? "")%string) eqn:E; [reflexivity|].
  cbn [trimEnd]. rewrite IH, E. reflexivity.
Qed.

Lemma trimStart_head (s : string) :
  trimStart s = "" \/ exists c r, trimStart s = String c r /\ is_white c = false.
Proof.
  induction s as [|c s IH]; [left; reflexivity|]. cbn [trimStart].
  destruct (is_white c) eqn:E; [exact IH|]. right. exists c, s. auto.
Qed.

Lemma trim_idem (s : string) : trim (trim s) = trim s.
Proof.
  unfold trim. destruct (trimStart_head s) as [->|(c & r & -> & Hc)]; [reflexivity|].
  cbn [trimEnd]. rewrite Hc. cbn [andb trimStart]. rewrite Hc.
  cbn [trimEnd]. rewrite Hc. cbn [andb]. rewrite trimEnd_idem. reflexivity.
Qed.

(** X21. What [getDisplayValue] shows in place of a field is the
    default or the field without the white space around it; it has no
    white space at either end and is no placeholder word, in whatever
    letter case; and unless it is empty, showing it again changes
    nothing. *)
Theorem getDisplayValue_normal_form (value : jsval) :
  let shown := getDisplayValue_default value in
  (shown = "N/A"
   \/ (exists s, value = JString s /\ shown = trim s)
       /\ array_includes emptyValues (toLowerCase shown) = false)
  /\ trim shown = shown
  /\ (shown <> "" -> getDisplayValue_default (JString shown) = shown).
Proof.
  intros shown. unfold shown, getDisplayValue_default, getDisplayValue.
  destruct value as [| |s]; try (repeat split; left; reflexivity).
  destruct (s =? "")%string; [repeat split; left; reflexivity|]. cbv zeta.
  destruct (array_includes emptyValues (toLowerCase (trim s))) eqn:E;
    [repeat split; left; reflexivity|].
  split; [right; split; [exists s; split; reflexivity|exact E]|].
  split; [apply trim_idem|].
  intros Hne. apply String.eqb_neq in Hne. rewrite Hne, trim_idem, E. reflexivity.
Qed.

Lemma getDisplayValue_normal_form_witness :
  getDisplayValue_default (JString (getDisplayValue_default (JString "  Boston, MA ")))
  = getDisplayValue_default (JString "  Boston, MA ").
Proof.
  refine (proj2 (proj2 (getDisplayValue_normal_form (JString "  Boston, MA "))) _).
  discriminate.
Defined.

(** ** Website validation: further facts *)

Lemma new_URL_starts_with_letter (url : string) (u : URL) :
  new_URL url = Ok u -> exists c r, url = String c r /\ is_alpha c = true.
Proof.
  destruct url as [|c r]; [discriminate|]. unfold new_URL.
  destruct (is_alpha c) eqn:E; [|discriminate]. intros _. exists c, r. auto.
Qed.

Lemma startsWith_String (c : ascii) (r p : string) (a : ascii) :
  startsWith (String c r) (String a p) = true -> a = c /\ startsWith r p = true.
Proof.
  unfold startsWith. cbn [prefix]. destruct (ascii_dec a c); [auto|discriminate].
Qed.

Ltac read_prefix H :=
  repeat match type of H with
         | startsWith ?s (String _ _) = true =>
             destruct s; [discriminate H|];
             apply startsWith_String in H; destruct H as [<- H]
         end.

(** The loop over the internal patterns never rejects an address: an
    address that has come through the checks before it, parsed with the
    scheme [http] or [https], matches none of the patterns. *)
Lemma internalPatterns_never_match (url : string) (u : URL) :
  new_URL url = Ok u ->
  array_includes ["http:"; "https:"] (protocol u) = true ->
  existsb (fun pattern => pattern url) internalPatterns = false.
Proof.
  intros Hu Hp.
  destruct (new_URL_starts_with_letter url u Hu) as (c & r & -> & Hc).
  unfold internalPatterns. cbn [existsb].
  assert (Hslash : forall p, startsWith (String c r) (String "/" p) = false).
  { intros p. destruct (startsWith (String c r) (String "/" p)) eqn:E; [|reflexivity].
    apply startsWith_String in E as [<- _]. discriminate Hc. }
  rewrite !Hslash.
  replace (String c r =? "/")%string with false
    by (symmetry; apply String.eqb_neq; intros H; injection H as -> _; discriminate Hc).
  cbn [orb].
  destruct (startsWith (String c r) "javascript:") eqn:Ej.
  { exfalso. generalize Ej; intros H. read_prefix H.
    unfold new_URL in Hu. simpl in Hu.
    destruct (span _ _) as [path rest] in Hu. injection Hu as <-. discriminate Hp. }
  destruct (startsWith (String c r) "mailto:") eqn:Em.
  { exfalso. generalize Em; intros H. read_prefix H.
    unfold new_URL in Hu. simpl in Hu.
    destruct (span _ _) as [path rest] in Hu. injection Hu as <-. discriminate Hp. }
  destruct (startsWith (String c r) "tel:") eqn:Et.
  { exfalso. generalize Et; intros H. read_prefix H.
    unfold new_URL in Hu. simpl in Hu.
    destruct (span _ _) as [path rest] in Hu. injection Hu as <-. discriminate Hp. }
  reflexivity.
Qed.

Lemma toLowerCase_nonempty (s : string) : s <> "" -> toLowerCase s <> "".
Proof. destruct s; [congruence|discriminate]. Qed.

Lemma string_map_nonempty (f : ascii -> ascii) (s : string) : s <> "" -> string_map f s <> "".
Proof. destruct s; [congruence|discriminate]. Qed.

Lemma scheme_colon (scheme : string) :
  array_includes ["http:"; "https:"] (scheme ++ ":") = true -> is_special_scheme scheme = true.
Proof.
  unfold array_includes, is_special_scheme. cbn [existsb]. rewrite !orb_false_r.
  intros H. apply orb_true_iff in H as [H|H]; apply String.eqb_eq in H;
    repeat (destruct scheme as [|? scheme]; simpl in H; try discriminate H;
            injection H as -> H);
    (destruct scheme as [|? scheme];
     [reflexivity|simpl in H; injection H as _ H; destruct scheme; discriminate H]).
Qed.

(** An address parsed with the scheme [http] or [https] has a host and
    a path. *)
Lemma new_URL_special (url : string) (u : URL) :
  new_URL url = Ok u ->
  array_includes ["http:"; "https:"] (protocol u) = true ->
  hostname u <> "" /\ pathname u <> "".
Proof.
  unfold new_URL. destruct url as [|c r]; [discriminate|].
  destruct (negb (is_alpha c)); [discriminate|].
  destruct (span is_scheme_char (String c r)) as [sch rest].
  destruct rest as [|colon rest]; [discriminate|].
  destruct (Ascii.eqb_spec colon ":") as [->|Hne].
  - destruct (is_special_scheme (toLowerCase sch)) eqn:Es.
    + destruct (span is_slash rest) as [slashes rest1].
      destruct (span (fun c => negb (is_authority_end c)) rest1) as [authority rest2].
      match goal with
      | |- context [let '(host, port) := ?hp in _] => destruct hp as [host port]
      end.
      destruct (span (fun c => negb (is_path_end c)) rest2) as [path rest3].
      destruct (host =? "")%string eqn:Eh; [discriminate|]. cbn [orb].
      destruct (_ || _ || _); [discriminate|].
      intros H _. injection H as <-. cbn [hostname pathname].
      apply String.eqb_neq in Eh. split; [apply toLowerCase_nonempty; exact Eh|].
      destruct (String.eqb_spec path "") as [->|Hp]; [discriminate|].
      apply string_map_nonempty. exact Hp.
    + destruct (span (fun c => negb (is_path_end c)) rest) as [path rest3].
      intros H Hp. injection H as <-. cbn [protocol] in Hp.
      apply scheme_colon in Hp. congruence.
  - destruct colon as [[] [] [] [] [] [] [] []]; try discriminate; congruence.
Qed.

Lemma new_URL_nonempty (url : string) (u : URL) : new_URL url = Ok u -> url <> "".
Proof. destruct url; [discriminate|discriminate]. Qed.

Lemma startsWith_longer (t p : string) (a : ascii) :
  startsWith t (String a "") = false -> startsWith t (String a p) = false.
Proof.
  destruct t as [|c r]; [reflexivity|]. intros H.
  destruct (startsWith (String c r) (String a p)) eqn:E; [|reflexivity].
  apply startsWith_String in E as [<- _].
  unfold startsWith in H. cbn [prefix] in H.
  destruct (ascii_dec a a) as [_|Hne]; [|congruence]. destruct r; discriminate H.
Qed.

(** An address that the model of the constructor reads with the scheme
    [http] or [https] is not empty and begins with none of the words
    the internal patterns look for. *)
Lemma new_URL_not_internal (url : string) (u : URL) :
  new_URL url = Ok u ->
  array_includes ["http:"; "https:"] (protocol u) = true ->
  url <> ""
  /\ startsWith url "/" = false
  /\ startsWith url "javascript:" = false
  /\ startsWith url "mailto:" = false
  /\ startsWith url "tel:" = false.
Proof.
  intros Hu Hp. split; [exact (new_URL_nonempty _ _ Hu)|].
  pose proof (internalPatterns_never_match url u Hu Hp) as H.
  unfold internalPatterns in H. cbn [existsb] in H.
  repeat (apply orb_false_iff in H; destruct H as [? H]).
  split; [|repeat split; assumption].
  destruct (new_URL_starts_with_letter url u Hu) as (c & r & -> & Hc).
  destruct (startsWith (String c r) "/") eqn:E; [|reflexivity].
  apply startsWith_String in E as [<- _]. discriminate Hc.
Qed.

(** X22. Whatever the [URL] constructor is, as long as an address that
    it reads with the scheme [http] or [https] has a host and a path,
    is not empty, and begins with none of [/], [javascript:], [mailto:]
    and [tel:] (all of which the URL standard guarantees): an address
    counts as an external website exactly when it is a string that,
    trimmed, is no placeholder word and is read by the constructor with
    the scheme [http] or [https], a host other than [127.0.0.1] that
    does not contain [localhost], and a path other than [/].  The loop
    over the internal patterns has no say. *)
Theorem isValidExternalWebsite_spec (newURL : string -> result URL) (url : jsval) :
  (forall s u, newURL s = Ok u ->
               protocol u = "http:" \/ protocol u = "https:" ->
               hostname u <> "" /\ pathname u <> "") ->
  (forall s u, newURL s = Ok u ->
               protocol u = "http:" \/ protocol u = "https:" ->
               s <> ""
               /\ startsWith s "/" = false
               /\ startsWith s "javascript:" = false
               /\ startsWith s "mailto:" = false
               /\ startsWith s "tel:" = false) ->
  (isValidExternalWebsite_with newURL url = true <->
   exists s u,
     url = JString s
     /\ newURL (trim s) = Ok u
     /\ array_includes placeholderValues (toLowerCase (trim s)) = false
     /\ (protocol u = "http:" \/ protocol u = "https:")
     /\ hostname u <> "127.0.0.1"
     /\ includes (hostname u) "localhost" = false
     /\ pathname u <> "/").
Proof.
  intros Hspecial Hinput. split.
  - unfold isValidExternalWebsite_with. destruct url as [| |s]; try discriminate.
    destruct (negb (truthy (JString s))); [discriminate|].
    destruct (trim s =? "")%string; [discriminate|].
    destruct (array_includes placeholderValues (toLowerCase (trim s))) eqn:Ep; [discriminate|].
    destruct (newURL (trim s)) as [u|] eqn:Eu; [|discriminate]. cbn [bind].
    destruct (protocol u =? "")%string; [discriminate|]. cbn [orb].
    destruct (array_includes ["http:"; "https:"] (protocol u)) eqn:Eproto; [|discriminate].
    cbn [negb].
    destruct (hostname u =? "")%string; [discriminate|].
    destruct (hostname u =? "localhost")%string; [discriminate|].
    destruct (String.eqb_spec (hostname u) "127.0.0.1") as [|H127]; [discriminate|].
    destruct (includes (hostname u) "localhost") eqn:El; [discriminate|].
    destruct (String.eqb_spec (pathname u) "/") as [|Hpath]; [discriminate|].
    intros _. exists s, u. repeat split; try assumption.
    unfold array_includes in Eproto. cbn [existsb] in Eproto.
    rewrite orb_false_r in Eproto. apply orb_true_iff in Eproto as [E|E];
      apply String.eqb_eq in E; auto.
  - intros (s & u & -> & Eu & Ep & Eproto & H127 & El & Hpath).
    assert (Hproto : array_includes ["http:"; "https:"] (protocol u) = true).
    { destruct Eproto as [-> | ->]; reflexivity. }
    destruct (Hspecial _ _ Eu Eproto) as [Hhost Hpathname].
    destruct (Hinput _ _ Eu Eproto) as (Htrim & Hslash & Hjs & Hmail & Htel).
    assert (Hs : s <> "") by (intros ->; apply Htrim; reflexivity).
    assert (Hpatterns : existsb (fun pattern => pattern (trim s)) internalPatterns = false).
    { unfold internalPatterns. cbn [existsb].
      rewrite !(startsWith_longer _ _ _ Hslash), Hjs, Hmail, Htel.
      destruct (String.eqb_spec (trim s) "/") as [E|_]; [|reflexivity].
      rewrite E in Hslash. discriminate Hslash. }
    unfold isValidExternalWebsite_with. cbn [truthy].
    apply String.eqb_neq in Hs, Htrim, Hhost, Hpathname, H127, Hpath.
    rewrite Hs, Htrim, Ep, Eu. cbn [negb bind].
    rewrite Hproto, Hhost, H127, El, Hpath, Hpathname.
    replace (protocol u =? "")%string with false
      by (destruct Eproto as [-> | ->]; reflexivity).
    replace (hostname u =? "localhost")%string with false.
    + cbn [orb negb]. rewrite Hpatterns. reflexivity.
    + symmetry. apply String.eqb_neq. intros E. rewrite E in El. discriminate El.
Qed.

Lemma isValidExternalWebsite_spec_witness :
  isValidExternalWebsite (JString " https://example.org/event ") = true.
Proof.
  refine (proj2 (isValidExternalWebsite_spec new_URL (JString " https://example.org/event ")
                   _ _) _).
  - intros s u Hu Hp. apply (new_URL_special s u Hu).
    destruct Hp as [-> | ->]; reflexivity.
  - intros s u Hu Hp. apply (new_URL_not_internal s u Hu).
    destruct Hp as [-> | ->]; reflexivity.
  - exists " https://example.org/event ",
           {| protocol := "https:"; hostname := "example.org"; pathname := "/event" |}.
    repeat split; try reflexivity; try discriminate. right. reflexivity.
Defined.

(** ** Date display: further facts *)

(** X23. The older [formatDateDisplay] never lets an exception out: a
    date that names a calendar day reads [<Weekday>, <Mon> <Day>,
    <Year>], a value from which [parseISO] reads no date comes back as
    it was given; and it is what [formatEventDateDisplay] gives for an
    event without an end date. *)
Theorem formatDateDisplay_spec (date : jsval) (timezone : string) :
  (forall y m d,
     date_text date = Some (y, m, d) ->
     formatDateDisplay date timezone = JString (long_date y m d))
  /\ (parseISO (JString (template date ++ "T00:00:00")) = NaN ->
      formatDateDisplay date timezone = date)
  /\ (forall endDate,
        truthy endDate = false ->
        formatEventDateDisplay date endDate timezone = formatDateDisplay date timezone).
Proof.
  split; [|split].
  - intros y m d Hs. destruct (date_text_valid _ _ _ _ Hs) as [Hm Hd].
    unfold formatDateDisplay, formatTz. rewrite (parseISO_midnight _ _ _ _ Hs).
    rewrite (format_long y m d Hm Hd). reflexivity.
  - intros Hs. unfold formatDateDisplay, formatTz. rewrite Hs. reflexivity.
  - intros endDate He. unfold formatEventDateDisplay, formatDateDisplay.
    rewrite He. reflexivity.
Qed.

Lemma formatDateDisplay_spec_witness :
  formatDateDisplay (JString "2024-03-15") "America/New_York"
  = JString (long_date 2024 3 15)
  /\ formatDateDisplay (JString "soon") "America/New_York" = JString "soon"
  /\ formatEventDateDisplay (JString "2024-03-15") JNull "America/New_York"
     = formatDateDisplay (JString "2024-03-15") "America/New_York".
Proof.
  split; [|split].
  - exact (proj1 (formatDateDisplay_spec (JString "2024-03-15") "America/New_York")
             2024 3 15 eq_refl).
  - exact (proj1 (proj2 (formatDateDisplay_spec (JString "soon") "America/New_York")) eq_refl).
  - exact (proj2 (proj2 (formatDateDisplay_spec (JString "2024-03-15") "America/New_York"))
             JNull eq_refl).
Defined.

Lemma format_medium (y m d : Z) :
  1 <= m <= 12 -> 1 <= d <= days_in_month y m ->
  format (Some (days_from_civil y m d * msPerDay)) "MMM d, yyyy" = Ok (medium_date y m d).
Proof.
  intros Hm Hd. unfold format. eval_tokens.
  cbn [format_all]. unfold format_token.
  rewrite Day_midnight, (civil_from_days_from_civil y m d Hm Hd).
  unfold medium_date, month_abbr.
  generalize (nth (Z.to_nat (m - 1)) month_names ""); generalize (decimal d);
    generalize (zero_pad 4 y). intros Y D M. simpl. rewrite append_empty_r. reflexivity.
Qed.

(** X24. The table shows the two dates of a row as [<Mon> <Day>,
    <Year>] when both name a calendar day, and throws a [RangeError]
    when either is missing or names none; the small-screen list, which
    looks at the end date first, shows the start alone for an event
    without an end date. *)
Theorem row_dates_need_both_dates (event : EventRecord) :
  (forall y m d y' m' d',
     date_text (start_date event) = Some (y, m, d) ->
     date_text (end_date event) = Some (y', m', d') ->
     row_dates event = Ok (medium_date y m d, medium_date y' m' d'))
  /\ (parseISO (start_date event) = NaN \/ parseISO (end_date event) = NaN ->
      row_dates event = Throw RangeError)
  /\ (forall y m d,
        date_text (start_date event) = Some (y, m, d) ->
        truthy (end_date event) = false ->
        row_dates event = Throw RangeError
        /\ period_row_date event = Ok (medium_date y m d)).
Proof.
  assert (Hthrows : forall v fmt, parseISO v = NaN -> format (parseISO v) fmt = Throw RangeError).
  { intros v fmt ->. reflexivity. }
  assert (Hfalsy : forall v, truthy v = false -> parseISO v = NaN).
  { intros [| |s]; try reflexivity. destruct s; [reflexivity|discriminate]. }
  split; [|split].
  - intros y m d y' m' d' Hs He.
    destruct (date_text_valid _ _ _ _ Hs) as [Hm Hd].
    destruct (date_text_valid _ _ _ _ He) as [Hm' Hd'].
    unfold row_dates.
    rewrite (parseISO_date_text _ _ _ _ Hs), (parseISO_date_text _ _ _ _ He).
    rewrite (format_medium y m d Hm Hd), (format_medium y' m' d' Hm' Hd'). reflexivity.
  - intros [H|H]; unfold row_dates.
    + rewrite (Hthrows _ _ H). reflexivity.
    + rewrite (Hthrows (end_date event) _ H).
      destruct (format (parseISO (start_date event)) "MMM d, yyyy") as [s|e] eqn:E;
        [reflexivity|].
      destruct (parseISO (start_date event)) as [t|]; [|injection E as <-; reflexivity].
      unfold format in E. revert E. eval_tokens. cbn [format_all]. unfold format_token.
      destruct (civil_from_days (Day t)) as [[y m] d]. simpl. discriminate.
  - intros y m d Hs He. destruct (date_text_valid _ _ _ _ Hs) as [Hm Hd].
    unfold row_dates, period_row_date. rewrite He. cbn [andb].
    rewrite (parseISO_date_text _ _ _ _ Hs), (format_medium y m d Hm Hd).
    rewrite (Hthrows (end_date event) _ (Hfalsy _ He)). split; reflexivity.
Qed.

Lemma row_dates_need_both_dates_witness :
  row_dates (open_ended "Spring Cup" "2024-03-15" JNull) = Throw RangeError
  /\ period_row_date (open_ended "Spring Cup" "2024-03-15" JNull)
     = Ok (medium_date 2024 3 15).
Proof.
  exact (proj2 (proj2 (row_dates_need_both_dates (open_ended "Spring Cup" "2024-03-15" JNull)))
           2024 3 15 eq_refl eq_refl).
Defined.

(** ** Navigation *)

(** [d.setDate(d.getDate() + k)] moves the wall clock [k] days. *)
Lemma setDate_shift (tz : TimeZone) (t0 k : Z) :
  setDate tz (Some t0) (Some (DateFromTime (LocalTime tz t0) + k))
  = TimeClip (UTC tz (LocalTime tz t0 + k * msPerDay)).
Proof.
  unfold setDate.
  set (t := LocalTime tz t0).
  unfold YearFromTime, MonthFromTime, DateFromTime.
  destruct (civil_from_days (Day t)) as [[y m] d] eqn:E.
  destruct (days_from_civil_from_days _ _ _ _ E) as (Hday & Hm & Hd).
  unfold MakeDay, MakeDate.
  replace ((m - 1) / 12) with 0 by (symmetry; apply Z.div_small; lia).
  replace ((m - 1) mod 12 + 1) with m by (rewrite Z.mod_small; lia).
  replace (y + 0) with y by lia.
  do 2 f_equal. pose proof (time_split t). lia.
Qed.

Lemma TimeClip_maxTime (t : Z) : Z.abs t <= maxTime -> TimeClip t = Some t.
Proof. apply TimeClip_in_range. Qed.

(** X25. Going to the next or the previous day or week moves the wall
    clock of the anchor date by one day or seven, on any host; on a
    host that keeps one offset the instant moves by as many whole days,
    and going back afterwards returns to the instant left. *)
Theorem navigateDate_by_days (currentView : string) (t0 direction step : Z) :
  (currentView = "day" /\ step = direction)
  \/ (currentView = "week" /\ step = direction * 7) ->
  (forall host,
     navigateDate host currentView (Some t0) direction
     = TimeClip (UTC host (LocalTime host t0 + step * msPerDay)))
  /\ (forall minutes,
        Z.abs t0 <= maxTime -> Z.abs (t0 + step * msPerDay) <= maxTime ->
        navigateDate (fixed_zone minutes) currentView (Some t0) direction
        = Some (t0 + step * msPerDay)
        /\ navigateDate (fixed_zone minutes) currentView
             (Some (t0 + step * msPerDay)) (- direction)
           = Some t0).
Proof.
  intros Hview.
  assert (Hgen : forall host t dir stp,
             (currentView = "day" /\ stp = dir) \/ (currentView = "week" /\ stp = dir * 7) ->
             navigateDate host currentView (Some t) dir
             = TimeClip (UTC host (LocalTime host t + stp * msPerDay))).
  { intros host t dir stp [[-> ->]|[-> ->]]; unfold navigateDate;
      cbn [String.eqb Ascii.eqb Bool.eqb getDate num_add]; apply setDate_shift. }
  split; [intros host; apply Hgen; exact Hview|].
  intros minutes H0 H1. split.
  - rewrite (Hgen _ _ _ step Hview), UTC_fixed, LocalTime_fixed.
    replace (t0 + minutes * 60000 + step * msPerDay - minutes * 60000)
      with (t0 + step * msPerDay) by lia.
    apply TimeClip_maxTime. exact H1.
  - rewrite (Hgen _ _ _ (- step)) by (destruct Hview as [[-> ->]|[-> ->]]; [left|right]; split; auto; lia).
    rewrite UTC_fixed, LocalTime_fixed.
    replace (t0 + step * msPerDay + minutes * 60000 + - step * msPerDay - minutes * 60000)
      with t0 by lia.
    apply TimeClip_maxTime. exact H0.
Qed.

Lemma navigateDate_by_days_witness :
  navigateDate (fixed_zone (-300)) "week" (Some 1710500000000) 1
  = Some (1710500000000 + 1 * 7 * msPerDay)
  /\ navigateDate (fixed_zone (-300)) "week" (Some (1710500000000 + 1 * 7 * msPerDay)) (- (1))
     = Some 1710500000000.
Proof.
  refine (proj2 (navigateDate_by_days "week" 1710500000000 1 (1 * 7) _) (-300) _ _).
  - right. split; reflexivity.
  - unfold maxTime. lia.
  - unfold maxTime, msPerDay. lia.
Defined.

Lemma month_back (m direction : Z) :
  1 <= m <= 12 ->
  let mo := m - 1 + direction in
  (mo mod 12 + 1 - 1 + - direction) / 12 = - (mo / 12)
  /\ (mo mod 12 + 1 - 1 + - direction) mod 12 + 1 = m.
Proof.
  intros Hm mo.
  pose proof (Z.div_mod mo 12 ltac:(lia)) as Hdm.
  replace (mo mod 12 + 1 - 1 + - direction) with ((m - 1) + - (mo / 12) * 12)
    by (unfold mo in *; lia).
  rewrite Z.div_add, Z.mod_add by lia.
  rewrite Z.div_small, Z.mod_small by lia. lia.
Qed.

(** X26. Going to the next or the previous month, on a host that keeps
    one offset: when the anchor's day of the month exists in the month
    gone to, the new anchor is that day of that month at the same time
    of day, and going back afterwards returns to the instant left. *)
Theorem navigateDate_by_month (minutes t0 direction y m d : Z) :
  civil_from_days (Day (LocalTime (fixed_zone minutes) t0)) = (y, m, d) ->
  let mo := m - 1 + direction in
  let y' := y + mo / 12 in
  let m' := mo mod 12 + 1 in
  d <= days_in_month y' m' ->
  Z.abs t0 <= maxTime ->
  navigateDate (fixed_zone minutes) "month" (Some t0) direction <> NaN ->
  exists t1,
    navigateDate (fixed_zone minutes) "month" (Some t0) direction = Some t1
    /\ civil_from_days (Day (LocalTime (fixed_zone minutes) t1)) = (y', m', d)
    /\ TimeWithinDay (LocalTime (fixed_zone minutes) t1)
       = TimeWithinDay (LocalTime (fixed_zone minutes) t0)
    /\ navigateDate (fixed_zone minutes) "month" (Some t1) (- direction) = Some t0.
Proof.
  intros Hciv mo y' m' Hd H0 Hvalid.
  destruct (days_from_civil_from_days _ _ _ _ Hciv) as (Hday & Hm & Hdr).
  assert (Hm' : 1 <= m' <= 12).
  { unfold m'. pose proof (Z.mod_pos_bound mo 12 ltac:(lia)). lia. }
  set (t := LocalTime (fixed_zone minutes) t0) in *.
  pose proof (time_split t) as Hsplit.
  assert (Htwd : 0 <= TimeWithinDay t < msPerDay)
    by (apply Z.mod_pos_bound; unfold msPerDay; lia).
  set (t1 := days_from_civil y' m' d * msPerDay + TimeWithinDay t - minutes * 60000).
  assert (Hnav : navigateDate (fixed_zone minutes) "month" (Some t0) direction = TimeClip t1).
  { unfold navigateDate. cbn [String.eqb Ascii.eqb Bool.eqb getMonth num_add setMonth].
    fold t. unfold YearFromTime, MonthFromTime, DateFromTime. rewrite Hciv.
    rewrite UTC_fixed. unfold MakeDay, MakeDate, t1.
    rewrite (days_from_civil_day y' m' d). reflexivity. }
  assert (Hclip : TimeClip t1 = Some t1).
  { rewrite Hnav in Hvalid. unfold TimeClip in *.
    destruct (Z.abs t1 <=? 8640000000000000); [reflexivity|]. destruct (Hvalid eq_refl). }
  exists t1. rewrite Hnav.
  assert (Hlocal : LocalTime (fixed_zone minutes) t1
                   = days_from_civil y' m' d * msPerDay + TimeWithinDay t).
  { rewrite LocalTime_fixed. unfold t1. lia. }
  assert (Hday1 : Day (LocalTime (fixed_zone minutes) t1) = days_from_civil y' m' d).
  { rewrite Hlocal. apply Day_within. exact Htwd. }
  assert (Htwd1 : TimeWithinDay (LocalTime (fixed_zone minutes) t1) = TimeWithinDay t).
  { rewrite Hlocal. unfold TimeWithinDay at 1.
    rewrite Z.add_comm, Z.mod_add by (unfold msPerDay; lia).
    apply Z.mod_small. exact Htwd. }
  assert (Hciv1 : civil_from_days (Day (LocalTime (fixed_zone minutes) t1)) = (y', m', d)).
  { rewrite Hday1. apply civil_from_days_from_civil; [exact Hm'|lia]. }
  split; [exact Hclip|]. split; [exact Hciv1|]. split; [exact Htwd1|].
  unfold navigateDate. cbn [String.eqb Ascii.eqb Bool.eqb getMonth num_add setMonth].
  unfold YearFromTime, MonthFromTime, DateFromTime. rewrite Hciv1, Htwd1.
  rewrite UTC_fixed. unfold MakeDay, MakeDate.
  destruct (month_back m direction Hm) as [Hq Hr]. fold mo in Hq, Hr. fold m' in Hq, Hr.
  rewrite Hq, Hr.
  replace (y' + - (mo / 12)) with y by (unfold y'; lia).
  replace ((days_from_civil y m 1 + d - 1) * msPerDay + TimeWithinDay t - minutes * 60000)
    with t0 by (unfold t in *; rewrite LocalTime_fixed in *; lia).
  apply TimeClip_maxTime. exact H0.
Qed.

Lemma navigateDate_by_month_witness :
  exists t1,
    navigateDate (fixed_zone 60) "month" (Some 1706500000000) 1 = Some t1
    /\ civil_from_days (Day (LocalTime (fixed_zone 60) t1)) = (2024, 2, 29)
    /\ TimeWithinDay (LocalTime (fixed_zone 60) t1)
       = TimeWithinDay (LocalTime (fixed_zone 60) 1706500000000)
    /\ navigateDate (fixed_zone 60) "month" (Some t1) (- (1)) = Some 1706500000000.
Proof.
  refine (navigateDate_by_month 60 1706500000000 1 2024 1 29 _ _ _ _).
  - reflexivity.
  - vm_compute. discriminate.
  - unfold maxTime. lia.
  - vm_compute. discriminate.
Defined.

Lemma format_month_day_at (t y m d : Z) :
  civil_from_days (Day t) = (y, m, d) ->
  format (Some t) "MMM d" = Ok (month_abbr m ++ " " ++ decimal d).
Proof.
  intros E. unfold format. eval_tokens. cbn [format_all]. unfold format_token. rewrite E.
  unfold month_abbr.
  generalize (nth (Z.to_nat (m - 1)) month_names ""); generalize (decimal d).
  intros D M. simpl. rewrite append_empty_r. reflexivity.
Qed.

Lemma format_medium_at (t y m d : Z) :
  civil_from_days (Day t) = (y, m, d) ->
  format (Some t) "MMM d, yyyy" = Ok (medium_date y m d).
Proof.
  intros E. unfold format. eval_tokens. cbn [format_all]. unfold format_token. rewrite E.
  unfold medium_date, month_abbr.
  generalize (nth (Z.to_nat (m - 1)) month_names ""); generalize (decimal d);
    generalize (zero_pad 4 y). intros Y D M. simpl. rewrite append_empty_r. reflexivity.
Qed.

Lemma Day_add_days (t k : Z) : Day (t + k * msPerDay) = Day t + k.
Proof. unfold Day. apply Z.div_add. unfold msPerDay. lia. Qed.

Lemma setDate_fixed (minutes t0 k date : Z) :
  date = DateFromTime (LocalTime (fixed_zone minutes) t0) + k ->
  Z.abs (t0 + k * msPerDay) <= maxTime ->
  setDate (fixed_zone minutes) (Some t0) (Some date) = Some (t0 + k * msPerDay).
Proof.
  intros -> H. rewrite setDate_shift, UTC_fixed, LocalTime_fixed.
  replace (t0 + minutes * 60000 + k * msPerDay - minutes * 60000) with (t0 + k * msPerDay) by lia.
  apply TimeClip_maxTime. exact H.
Qed.

(** X27. On a host that keeps one offset, the title of the week view
    names the Sunday that the week view starts its columns on and the
    Saturday six days later: [<Mon> <Day> - <Mon> <Day>, <Year>]. *)
Theorem formatTitle_week_matches_columns (minutes t0 y1 m1 d1 y2 m2 d2 : Z) :
  let host := fixed_zone minutes in
  let sunday := Day (LocalTime host t0) - WeekDay (Day (LocalTime host t0)) in
  Z.abs t0 + 7 * msPerDay <= maxTime ->
  civil_from_days sunday = (y1, m1, d1) ->
  civil_from_days (sunday + 6) = (y2, m2, d2) ->
  startOfWeek (wall_clock host (Some t0)) = Some (sunday * msPerDay)
  /\ formatTitle_week host (Some t0)
     = Ok (month_abbr m1 ++ " " ++ decimal d1 ++ " - " ++ medium_date y2 m2 d2).
Proof.
  intros host sunday Hrange E1 E2. subst host. split; [reflexivity|].
  unfold formatTitle_week. cbn [getDate getDay num_sub].
  pose proof (WeekDay_range (Day (LocalTime (fixed_zone minutes) t0))) as Hwd.
  set (wd := WeekDay (Day (LocalTime (fixed_zone minutes) t0))) in *.
  rewrite (setDate_fixed minutes t0 (- wd))
    by (try lia; unfold maxTime, msPerDay in *; lia).
  cbn [getDate num_add].
  rewrite (setDate_fixed minutes (t0 + - wd * msPerDay) 6)
    by (try reflexivity; unfold maxTime, msPerDay in *; lia).
  cbn [wall_clock]. rewrite !LocalTime_fixed.
  rewrite (format_month_day_at _ y1 m1 d1).
  - rewrite (format_medium_at _ y2 m2 d2).
    + cbn [bind]. rewrite !append_assoc. reflexivity.
    + replace (t0 + - wd * msPerDay + 6 * msPerDay + minutes * 60000)
        with (t0 + minutes * 60000 + (- wd + 6) * msPerDay) by lia.
      rewrite Day_add_days. rewrite <- E2. f_equal.
      unfold sunday. fold wd. rewrite LocalTime_fixed. lia.
  - replace (t0 + - wd * msPerDay + minutes * 60000)
      with (t0 + minutes * 60000 + - wd * msPerDay) by lia.
    rewrite Day_add_days. rewrite <- E1. reflexivity.
Qed.

Lemma formatTitle_week_matches_columns_witness :
  startOfWeek (wall_clock (fixed_zone 60) (Some 1706500000000))
  = Some ((Day (LocalTime (fixed_zone 60) 1706500000000)
           - WeekDay (Day (LocalTime (fixed_zone 60) 1706500000000))) * msPerDay)
  /\ formatTitle_week (fixed_zone 60) (Some 1706500000000)
     = Ok (month_abbr 1 ++ " " ++ decimal 28 ++ " - " ++ medium_date 2024 2 3).
Proof.
  refine (formatTitle_week_matches_columns 60 1706500000000 2024 1 28 2024 2 3 _ _ _).
  - unfold maxTime, msPerDay. lia.
  - reflexivity.
  - reflexivity.
Defined.

(** ** List view: the column headers *)

(** X28. A click on a column header sorts by that column: ascending
    when the column was not the current one, in the other direction
    when it was; the direction is always one of the two, and a second
    click on the current column brings back the state left. *)
Theorem handleSort_toggles (sortField sortDirection field : string) :
  fst (handleSort sortField sortDirection field) = field
  /\ (snd (handleSort sortField sortDirection field) = "asc"
      \/ snd (handleSort sortField sortDirection field) = "desc")
  /\ (sortField <> field -> snd (handleSort sortField sortDirection field) = "asc")
  /\ (sortField = field ->
      snd (handleSort sortField sortDirection field) <> sortDirection
      /\ (sortDirection = "asc" \/ sortDirection = "desc" ->
          handleSort field (snd (handleSort sortField sortDirection field)) field
          = (sortField, sortDirection))).
Proof.
  unfold handleSort. destruct (String.eqb_spec sortField field) as [->|Hne].
  - cbn [fst snd]. rewrite String.eqb_refl.
    destruct (String.eqb_spec sortDirection "asc") as [->|Hd]; cbn [fst snd].
    + split; [reflexivity|]. split; [right; reflexivity|].
      split; [intros Hf; destruct (Hf eq_refl)|]. intros _.
      split; [discriminate|]. intros _. reflexivity.
    + split; [reflexivity|]. split; [left; reflexivity|].
      split; [reflexivity|]. intros _.
      split; [congruence|]. intros [Ha|Ha]; [destruct (Hd Ha)|]. rewrite Ha. reflexivity.
  - cbn [fst snd]. split; [reflexivity|]. split; [left; reflexivity|].
    split; [reflexivity|]. intros Hf. destruct (Hne Hf).
Qed.

Lemma handleSort_toggles_witness :
  handleSort "name" (snd (handleSort "name" "desc" "name")) "name" = ("name", "desc").
Proof.
  refine (proj2 (proj2 (proj2 (proj2 (handleSort_toggles "name" "desc" "name"))) eq_refl) _).
  right. reflexivity.
Defined.

(** ** Export: the blocks of the bulk file *)


(** ** Filter controls: the date boxes *)

Lemma TimeWithinDay_midnight (day : Z) : TimeWithinDay (day * msPerDay) = 0.
Proof. unfold TimeWithinDay. apply Z.mod_mul. unfold msPerDay. lia. Qed.

(** X30. A date box of the filter bar shows back the date that was
    picked in it: the bound it sets, read back as the box reads it, is
    the text that was entered; and an emptied box clears the bound. *)
Theorem date_input_round_trip (value : string) (y m d : Z) :
  parse_ymd value = Some (y, m, d) ->
  date_input_change value = Some (Some (days_from_civil y m d * msPerDay))
  /\ date_input_value (date_input_change value) = Ok value
  /\ date_input_value (date_input_change "") = Ok "".
Proof.
  intros H. pose proof (parse_ymd_text _ _ _ _ H) as Htext.
  destruct (parse_ymd_valid _ _ _ _ H) as [Hm Hd].
  pose proof (parse_ymd_year _ _ _ _ H) as Hy.
  assert (Hne : nonempty value = true).
  { rewrite Htext. reflexivity. }
  assert (Hchange : date_input_change value = Some (Some (days_from_civil y m d * msPerDay))).
  { unfold date_input_change. rewrite Hne. cbn [new_Date].
    rewrite (parse_iso_date_ymd _ _ _ _ H). reflexivity. }
  split; [exact Hchange|]. split; [|reflexivity].
  rewrite Hchange. unfold date_input_value, toISOString.
  rewrite Day_midnight, (civil_from_days_from_civil y m d Hm Hd), TimeWithinDay_midnight.
  replace ((0 <=? y) && (y <=? 9999)) with true
    by (symmetry; apply andb_true_iff; split; apply Z.leb_le; lia).
  cbn [bind]. f_equal. rewrite Htext.
  cbn [digits append before_first]. rewrite !digit_char_not_T. reflexivity.
Qed.

Lemma date_input_round_trip_witness :
  date_input_value (date_input_change "2024-03-15") = Ok "2024-03-15".
Proof.
  exact (proj1 (proj2 (date_input_round_trip "2024-03-15" 2024 3 15 eq_refl))).
Defined.
